(** * LuaLDAP: a shallow embedding of [src/lualdap.c]

    The C functions of the binding are transcribed as Rocq functions.
    - The Lua stack of a C function is its list of arguments and the list of
      values it returns; a [luaL_error]/[luaL_argerror] (a [longjmp]) is the
      [Raises] outcome.
    - Userdata blocks (connections, search cursors) live in a store indexed by
      address, so that closures and registry references alias them.
    - The LDAP client library is external: every call made to it is appended
      to the [calls] log of the state, and what the library answers is an
      argument of the embedded function.
    - An automatic variable that the C code does not initialise (the
      [attrs_data] of [add] and [modify], the [LDAPMessage *res] of the polling
      functions) holds indeterminate content until it is written; using an
      indeterminate pointer is the [Undefined] outcome. *)

From stdpp Require Import gmap strings list.
From Stdlib Require Import ZArith Ascii DecimalString.

Open Scope Z_scope.
Open Scope string_scope.
Open Scope list_scope.

(** ** C strings and formatting *)

(** The bytes a [const char *] designates: everything before the first NUL. *)
Fixpoint cstr (s : string) : string :=
  match s with
  | EmptyString => EmptyString
  | String c r => if Ascii.eqb c Ascii.zero then EmptyString else String c (cstr r)
  end.

(** [%d] of [lua_pushfstring]. *)
Definition fmt_d (n : Z) : string := NilZero.string_of_int (Z.to_int n).

(** ** Lua values *)

(** C functions of this file that are turned into closures. *)
Inductive cfunction := Fresult_message | Fnext_message.

#[warnings="-register-all"]
Inductive lua_value :=
| LNone                                   (* LUA_TNONE: a non-valid stack index *)
| LNil
| LBoolean (b : bool)
| LNumber (n : Z)                         (* numbers are modelled by integers *)
| LString (s : string)                    (* byte string with explicit length *)
| LTable (t : list (lua_value * lua_value)) (* pairs in [lua_next] order *)
| LUserdata (mt : string) (p : nat)       (* metatable name, address of block *)
| LCClosure (f : cfunction) (upvalues : list lua_value).

Definition lua_table := list (lua_value * lua_value).

(** Conversions between strings and numbers are those of the Lua core
    ([lua_Number2str], [luaO_str2d]); they are kept abstract. *)
Class LuaConv := {
  lua_number2str : Z -> string;
  lua_str2number : string -> option Z
}.

Section LuaAPI.
Context `{LuaConv}.

Definition lua_typename (v : lua_value) : string :=
  match v with
  | LNone => "no value"
  | LNil => "nil"
  | LBoolean _ => "boolean"
  | LNumber _ => "number"
  | LString _ => "string"
  | LTable _ => "table"
  | LUserdata _ _ => "userdata"
  | LCClosure _ _ => "function"
  end.

Definition lua_isnil (v : lua_value) : bool :=
  match v with LNil => true | _ => false end.

Definition lua_isnoneornil (v : lua_value) : bool :=
  match v with LNil | LNone => true | _ => false end.

Definition lua_isboolean (v : lua_value) : bool :=
  match v with LBoolean _ => true | _ => false end.

Definition lua_istable (v : lua_value) : bool :=
  match v with LTable _ => true | _ => false end.

(** [lua_isstring]: a string or a number (always convertible to a string). *)
Definition lua_isstring (v : lua_value) : bool :=
  match v with LString _ | LNumber _ => true | _ => false end.

(** [lua_isnumber]: a number or a string convertible to a number. *)
Definition lua_isnumber (v : lua_value) : bool :=
  match v with
  | LNumber _ => true
  | LString s => bool_decide (is_Some (lua_str2number s))
  | _ => false
  end.

Definition lua_toboolean (v : lua_value) : bool :=
  match v with LNone | LNil | LBoolean false => false | _ => true end.

(** [lua_tolstring]: the byte string and its length, NULL if not convertible. *)
Definition lua_tolstring (v : lua_value) : option string :=
  match v with
  | LString s => Some s
  | LNumber n => Some (lua_number2str n)
  | _ => None
  end.

(** [lua_tostring] hands out a [const char *]: read as a C string. *)
Definition lua_tostring (v : lua_value) : option string :=
  cstr <$> lua_tolstring v.

Definition lua_tonumber (v : lua_value) : Z :=
  match v with
  | LNumber n => n
  | LString s => default 0 (lua_str2number s)
  | _ => 0
  end.

Definition lua_tointeger (v : lua_value) : Z := lua_tonumber v.

(** Stack access: index [i] (from 1) of the arguments. *)
Definition index2value (args : list lua_value) (i : nat) : lua_value :=
  match i with
  | O => LNone
  | S j => default LNone (args !! j)
  end.

(** [lua_rawgeti]: the value stored under the integer key [i]. *)
Fixpoint rawgeti (t : lua_table) (i : Z) : lua_value :=
  match t with
  | [] => LNil
  | (LNumber j, v) :: t' => if (j =? i)%Z then v else rawgeti t' i
  | _ :: t' => rawgeti t' i
  end.

Definition lua_rawgeti (v : lua_value) (i : Z) : lua_value :=
  match v with LTable t => rawgeti t i | _ => LNil end.

(** [lua_getfield] (no metatables): the value stored under a string key. *)
Fixpoint getfield (t : lua_table) (k : string) : lua_value :=
  match t with
  | [] => LNil
  | (LString j, v) :: t' => if String.eqb j k then v else getfield t' k
  | _ :: t' => getfield t' k
  end.

Definition lua_getfield (v : lua_value) (k : string) : lua_value :=
  match v with LTable t => getfield t k | _ => LNil end.

(** [lua_rawlen] of a table: a border, found by counting up from 1.
    A table of [length t] pairs has no border beyond [length t]. *)
Fixpoint border (t : lua_table) (fuel : nat) (i : nat) : nat :=
  match fuel with
  | O => i
  | S fuel' =>
      if lua_isnil (rawgeti t (Z.of_nat (S i))) then i else border t fuel' (S i)
  end.

Definition lua_rawlen (v : lua_value) : nat :=
  match v with
  | LTable t => border t (length t) 0
  | LString s => String.length s
  | _ => 0%nat
  end.

(** [lua_rawset] with a string key on a table under construction. *)
Fixpoint rawset_str (t : lua_table) (k : string) (v : lua_value) : lua_table :=
  match t with
  | [] => [(LString k, v)]
  | (LString j, w) :: t' =>
      if String.eqb j k then (LString j, v) :: t' else (LString j, w) :: rawset_str t' k v
  | p :: t' => p :: rawset_str t' k v
  end.

(** [lua_rawseti] on a table under construction. *)
Fixpoint rawseti (t : lua_table) (i : Z) (v : lua_value) : lua_table :=
  match t with
  | [] => [(LNumber i, v)]
  | (LNumber j, w) :: t' =>
      if (j =? i)%Z then (LNumber j, v) :: t' else (LNumber j, w) :: rawseti t' i v
  | p :: t' => p :: rawseti t' i v
  end.

End LuaAPI.

(** ** Errors and outcomes *)

Inductive lua_error :=
| Error (msg : string)                  (* luaL_error: message, no position *)
| ArgError (narg : Z) (extramsg : string). (* luaL_argerror *)

(** A computation that may [longjmp] out with an error, or go wrong by
    dereferencing a pointer that designates no block. *)
Inductive except (A : Type) :=
| Ok (a : A)
| Throw (e : lua_error)
| Fault.
Arguments Ok {A} a.
Arguments Throw {A} e.
Arguments Fault {A}.

#[global] Instance except_ret : MRet except := fun A a => Ok a.
#[global] Instance except_bind : MBind except := fun A B f m =>
  match m with
  | Ok a => f a
  | Throw e => Throw e
  | Fault => Fault
  end.

(** Dereference of a pointer obtained from a store lookup. *)
Definition deref {A} (o : option A) : except A :=
  match o with Some a => Ok a | None => Fault end.

Definition luaL_error {A} (msg : string) : except A := Throw (Error msg).

Definition luaL_argcheck (cond : bool) (narg : Z) (extramsg : string) : except unit :=
  if cond then Ok tt else Throw (ArgError narg extramsg).

Section AuxLib.
Context `{LuaConv}.

(** [luaL_typerror]: "<expected> expected, got <typename>". *)
Definition luaL_typerror {A} (narg : Z) (v : lua_value) (tname : string) : except A :=
  Throw (ArgError narg (tname +:+ " expected, got " +:+ lua_typename v)).

Definition luaL_checklstring (args : list lua_value) (narg : nat) : except string :=
  match lua_tolstring (index2value args narg) with
  | Some s => Ok s
  | None => luaL_typerror (Z.of_nat narg) (index2value args narg) "string"
  end.

Definition luaL_checkstring (args : list lua_value) (narg : nat) : except string :=
  s ← luaL_checklstring args narg; Ok (cstr s).

(** [luaL_optlstring (L, narg, NULL, NULL)] *)
Definition luaL_optlstring (args : list lua_value) (narg : nat) : except (option string) :=
  if lua_isnoneornil (index2value args narg) then Ok None
  else s ← luaL_checklstring args narg; Ok (Some (cstr s)).

Definition luaL_checknumber (args : list lua_value) (narg : nat) : except Z :=
  if lua_isnumber (index2value args narg) then Ok (lua_tonumber (index2value args narg))
  else luaL_typerror (Z.of_nat narg) (index2value args narg) "number".

Definition luaL_optnumber (args : list lua_value) (narg : nat) (def : Z) : except Z :=
  if lua_isnoneornil (index2value args narg) then Ok def
  else luaL_checknumber args narg.

(** [luaL_checkudata]: the address of the block, when the value is a userdata
    whose metatable is the one registered under [tname]. *)
Definition luaL_checkudata (args : list lua_value) (narg : nat) (tname : string) : except nat :=
  match index2value args narg with
  | LUserdata mt p =>
      if String.eqb mt tname then Ok p
      else luaL_typerror (Z.of_nat narg) (index2value args narg) tname
  | v => luaL_typerror (Z.of_nat narg) v tname
  end.

End AuxLib.

(** ** The LDAP client library (external) *)

(** Constants of [<ldap.h>] (OpenLDAP, RFC 4511 tags). *)
Definition LDAP_SUCCESS : Z := 0.
Definition LDAP_COMPARE_FALSE : Z := 5.
Definition LDAP_COMPARE_TRUE : Z := 6.
Definition LDAP_MOD_ADD : Z := 0.
Definition LDAP_MOD_DELETE : Z := 1.
Definition LDAP_MOD_REPLACE : Z := 2.
Definition LDAP_MOD_BVALUES : Z := 128.
Definition LDAP_RES_SEARCH_ENTRY : Z := 100.
Definition LDAP_RES_SEARCH_RESULT : Z := 101.
Definition LDAP_RES_MODIFY : Z := 103.
Definition LDAP_RES_ADD : Z := 105.
Definition LDAP_RES_DELETE : Z := 107.
Definition LDAP_RES_MODDN : Z := 109.
Definition LDAP_RES_COMPARE : Z := 111.
Definition LDAP_RES_SEARCH_REFERENCE : Z := 115.
Definition LDAP_SCOPE_DEFAULT : Z := -1.
Definition LDAP_SCOPE_BASE : Z := 0.
Definition LDAP_SCOPE_ONELEVEL : Z := 1.
Definition LDAP_SCOPE_SUBTREE : Z := 2.
Definition LDAP_NO_LIMIT : Z := 0.
Definition LDAP_MSG_ONE : Z := 0.

(** Constants of [<lauxlib.h>]. *)
Definition LUA_NOREF : Z := -2.

(** Constants of [lualdap.c]. *)
Definition LUALDAP_PREFIX : string := "LuaLDAP: ".
Definition LUALDAP_CONNECTION_METATABLE : string := "LuaLDAP connection".
Definition LUALDAP_SEARCH_METATABLE : string := "LuaLDAP search".

Definition LUALDAP_MOD_ADD : Z := Z.lor LDAP_MOD_ADD LDAP_MOD_BVALUES.
Definition LUALDAP_MOD_DEL : Z := Z.lor LDAP_MOD_DELETE LDAP_MOD_BVALUES.
Definition LUALDAP_MOD_REP : Z := Z.lor LDAP_MOD_REPLACE LDAP_MOD_BVALUES.
Definition LUALDAP_NO_OP : Z := 0.

(** Maximum number of attributes manipulated in an operation. *)
Definition LUALDAP_MAX_ATTRS : nat := 100.
(** Size of buffer of NULL-terminated arrays of pointers to struct values. *)
Definition LUALDAP_ARRAY_VALUES_SIZE : nat := 2 * LUALDAP_MAX_ATTRS.
(** Maximum number of values structures. *)
Definition LUALDAP_MAX_VALUES : nat := LUALDAP_ARRAY_VALUES_SIZE / 2.

(** An [LDAP *] handle. *)
Definition LDAP := nat.

Record timeval := { tv_sec : Z; tv_usec : Z }.

Record BerValue := { bv_len : nat; bv_val : string }.

(** A message handed out by [ldap_result], with what the library's accessors
    report about it. *)
Record LDAPMessage := {
  lm_msgtype : Z;                          (* ldap_msgtype *)
  lm_parse_rc : Z;                         (* return code of ldap_parse_result *)
  lm_err : Z;                              (* result code of the operation *)
  lm_matched : option string;              (* matched DN *)
  lm_errmsg : option string;               (* diagnostic message, NULL if none *)
  lm_dn : string;                          (* ldap_get_dn *)
  lm_attrs : list (string * list BerValue) (* attributes, in ldap_next_attribute order *)
}.

(** The variable [LDAPMessage *res;] of the polling functions after
    [ldap_result (..., &res)]. The variable is automatic and not initialised:
    it holds NULL or a message when the library stored one through its last
    argument, and is indeterminate when the library returned without storing
    anything, as it may when it returns -1. *)
Inductive msgp :=
| MsgNull
| Msg (m : LDAPMessage)
| MsgWild.

(** What [ldap_result] answers: its return code and what it leaves in [res]. *)
Record result_reply := { rc : Z; res : msgp }.

(** What a submission ([ldap_add_ext], ...) answers. *)
Record submit_reply := { sub_rc : Z; sub_msgid : Z }.

(** A modification as the library reads it through the [LDAPMod **] array:
    operation, attribute type and the values ([None] for a NULL [mod_bvalues]). *)
Definition mod_entry : Type := Z * string * option (list BerValue).

(** The calls made to the library on handles and messages. *)
Inductive ldap_call :=
| Call_result (ld : option LDAP) (msgid : Z) (all : Z) (timeout : option timeval)
| Call_msgfree (res : option LDAPMessage)
| Call_parse_result (ld : option LDAP) (res : option LDAPMessage) (freeit : Z)
| Call_unbind_ext (ld : option LDAP)
| Call_sasl_bind_s (ld : option LDAP) (who : string) (cred : string)
| Call_add_ext (ld : option LDAP) (dn : string) (mods : option (list mod_entry))
| Call_modify_ext (ld : option LDAP) (dn : string) (mods : option (list mod_entry))
| Call_compare_ext (ld : option LDAP) (dn attr : string) (bvalue : BerValue)
| Call_delete_ext (ld : option LDAP) (dn : string)
| Call_rename (ld : option LDAP) (dn rdn : string) (par : option string) (del : Z)
| Call_search_ext (ld : option LDAP) (base : option string) (scope : Z)
    (filter : option string) (attrs : option (list string)) (attrsonly : Z)
    (timeout : option timeval) (sizelimit : Z).

Class LdapLib := { ldap_err2string : Z -> string }.

(** ** Program state *)

(** LDAP connection information *)
Record conn_data := {
  version : Z;          (* LDAP version *)
  ld : option LDAP      (* LDAP connection, NULL once closed *)
}.

(** LDAP search context information *)
Record search_data := {
  conn : Z;             (* conn_data reference (in the registry) *)
  msgid : Z
}.

Record lua_State := {
  conns : gmap nat conn_data;       (* connection userdata, by address *)
  searches : gmap nat search_data;  (* search userdata, by address *)
  registry : gmap nat lua_value;    (* registry slots handed out by luaL_ref *)
  calls : list ldap_call            (* calls to the LDAP library, oldest first *)
}.

Definition set_conns (f : gmap nat conn_data -> gmap nat conn_data) (L : lua_State) :=
  {| conns := f (conns L); searches := searches L; registry := registry L; calls := calls L |}.
Definition set_searches (f : gmap nat search_data -> gmap nat search_data) (L : lua_State) :=
  {| conns := conns L; searches := f (searches L); registry := registry L; calls := calls L |}.
Definition set_registry (f : gmap nat lua_value -> gmap nat lua_value) (L : lua_State) :=
  {| conns := conns L; searches := searches L; registry := f (registry L); calls := calls L |}.
(** Record one call to the library. *)
Definition call (c : ldap_call) (L : lua_State) :=
  {| conns := conns L; searches := searches L; registry := registry L; calls := calls L ++ [c] |}.

(** How a C function called from Lua ends. *)
Inductive outcome :=
| Returns (vals : list lua_value)   (* the values left for the caller *)
| Raises (e : lua_error)            (* a Lua error was raised *)
| Undefined.                        (* a block that does not exist was dereferenced *)

(** ** The attributes structure *)

(** A pointer into one of the arrays of [attrs_data]: NULL, the address of the
    element of index [i], or the indeterminate content of a slot that was never
    written. *)
Inductive ptr := NULL | Ptr (i : nat) | Wild.

Record LDAPMod := {
  mod_op : Z;
  mod_type : string;
  mod_bvalues : ptr     (* into [values] *)
}.

(** LDAP attribute modification structure *)
Record attrs_data := {
  attrs : list ptr;       (* LDAPMod *attrs[LUALDAP_MAX_ATTRS + 1], into [mods] *)
  mods : list LDAPMod;    (* LDAPMod mods[LUALDAP_MAX_ATTRS] *)
  ai : nat;
  values : list ptr;      (* BerValue *values[LUALDAP_ARRAY_VALUES_SIZE], into [bvals] *)
  vi : nat;
  bvals : list BerValue;  (* BerValue bvals[LUALDAP_MAX_VALUES] *)
  bi : nat
}.

(** What the stack holds where an automatic [attrs_data] is allocated: the
    three counters and the scalar fields of the two arrays of structures are
    whatever was left there. *)
Class Indeterminate := {
  stack_ai : nat;
  stack_vi : nat;
  stack_bi : nat;
  stack_mod_op : nat -> Z;
  stack_mod_type : nat -> string;
  stack_bval : nat -> BerValue
}.

(** The automatic variable [attrs_data attrs;] before [A_init]: every pointer
    is indeterminate and nothing else is known of the contents. *)
Definition uninitialised `{Indeterminate} : attrs_data := {|
  attrs := replicate (LUALDAP_MAX_ATTRS + 1) Wild;
  mods := (fun j => {| mod_op := stack_mod_op j; mod_type := stack_mod_type j;
                       mod_bvalues := Wild |}) <$> seq 0 LUALDAP_MAX_ATTRS;
  ai := stack_ai;
  values := replicate LUALDAP_ARRAY_VALUES_SIZE Wild;
  vi := stack_vi;
  bvals := stack_bval <$> seq 0 LUALDAP_MAX_VALUES;
  bi := stack_bi
|}.

(** *** Reading the structure as the library does *)

(** The NULL-terminated array of [BerValue *] starting at [values[k]]. *)
Fixpoint read_values (a : attrs_data) (fuel k : nat) : option (list BerValue) :=
  match fuel with
  | O => None
  | S fuel' =>
      match values a !! k with
      | Some NULL => Some []
      | Some (Ptr j) =>
          b ← bvals a !! j; bs ← read_values a fuel' (S k); Some (b :: bs)
      | _ => None
      end
  end.

Definition read_mod (a : attrs_data) (m : LDAPMod) : option mod_entry :=
  match mod_bvalues m with
  | NULL => Some (mod_op m, mod_type m, None)
  | Ptr k => bs ← read_values a (S (length (values a))) k; Some (mod_op m, mod_type m, Some bs)
  | Wild => None
  end.

(** The NULL-terminated array of [LDAPMod *] starting at [attrs[i]]. *)
Fixpoint read_attrs (a : attrs_data) (fuel i : nat) : option (list mod_entry) :=
  match fuel with
  | O => None
  | S fuel' =>
      match attrs a !! i with
      | Some NULL => Some []
      | Some (Ptr j) =>
          m ← mods a !! j; e ← read_mod a m; es ← read_attrs a fuel' (S i); Some (e :: es)
      | _ => None
      end
  end.

(** [attrs.attrs] as passed to [ldap_add_ext] and [ldap_modify_ext]; [None]
    when the library would run into an indeterminate pointer. *)
Definition read_mods (a : attrs_data) : option (list mod_entry) :=
  read_attrs a (S (length (attrs a))) 0.

Section Builder.
Context `{LuaConv}.

(** Error on attribute's value. *)
Definition value_error {A} (top : lua_value) (name : string) : except A :=
  luaL_error (LUALDAP_PREFIX +:+ "invalid value of attribute `" +:+ name +:+ "' ("
              +:+ lua_typename top +:+ ")").

(** Initialize attributes structure. *)
Definition A_init (a : attrs_data) : attrs_data := {|
  ai := 0;
  attrs := <[0%nat := NULL]> (attrs a);
  vi := 0;
  values := <[0%nat := NULL]> (values a);
  bi := 0;
  mods := mods a;
  bvals := bvals a
|}.

(** Store the string on top of the stack on the attributes structure.
    Increment the bvals counter. *)
Definition A_setbval (top : lua_value) (a : attrs_data) (n : string) : except (ptr * attrs_data) :=
  let ret := Ptr (bi a) in
  if (LUALDAP_MAX_VALUES <=? bi a)%nat then luaL_error (LUALDAP_PREFIX +:+ "too many values")
  else
    match lua_tolstring top with
    | None => value_error top n          (* !lua_isstring (L, -1) *)
    | Some s =>
        Ok (ret, {| bvals := <[bi a := {| bv_val := s; bv_len := String.length s |}]> (bvals a);
                    bi := S (bi a);
                    attrs := attrs a; mods := mods a; ai := ai a;
                    values := values a; vi := vi a |})
    end.

(** Store a pointer to the value on top of the stack on the attributes structure. *)
Definition A_setval (top : lua_value) (a : attrs_data) (n : string) : except (ptr * attrs_data) :=
  let ret := Ptr (vi a) in
  if (LUALDAP_ARRAY_VALUES_SIZE <=? vi a)%nat then luaL_error (LUALDAP_PREFIX +:+ "too many values")
  else
    '(p, a1) ← A_setbval top a n;
    Ok (ret, {| values := <[vi a1 := p]> (values a1);
                vi := S (vi a1);
                attrs := attrs a1; mods := mods a1; ai := ai a1;
                bvals := bvals a1; bi := bi a1 |}).

(** Store a NULL pointer on the attributes structure. *)
Definition A_nullval (a : attrs_data) : except (ptr * attrs_data) :=
  let ret := Ptr (vi a) in
  if (LUALDAP_ARRAY_VALUES_SIZE <=? vi a)%nat then luaL_error (LUALDAP_PREFIX +:+ "too many values")
  else
    Ok (ret, {| values := <[vi a := NULL]> (values a);
                vi := S (vi a);
                attrs := attrs a; mods := mods a; ai := ai a;
                bvals := bvals a; bi := bi a |}).

(** The loop of [A_tab2val]: elements [i], [i+1], ... ([count] of them). *)
Fixpoint A_tab2val_loop (tab : lua_value) (name : string) (count i : nat) (a : attrs_data)
  : except attrs_data :=
  match count with
  | O => Ok a
  | S count' =>
      '(_, a1) ← A_setval (lua_rawgeti tab (Z.of_nat i)) a name;
      A_tab2val_loop tab name count' (S i) a1
  end.

(** Store the value of an attribute.
    Valid values are:
      true => no values;
      string => one value; or
      table of strings => many values. *)
Definition A_tab2val (tab : lua_value) (a : attrs_data) (name : string) : except (ptr * attrs_data) :=
  let ret := Ptr (vi a) in
  if lua_isboolean tab && lua_toboolean tab then Ok (NULL, a)
  else
    a1 ← (if lua_isstring tab then
            '(_, a1) ← A_setval tab a name; Ok a1
          else if lua_istable tab then
            A_tab2val_loop tab name (lua_rawlen tab) 1 a
          else value_error tab name);
    '(_, a2) ← A_nullval a1;
    Ok (ret, a2).

(** Set a modification value (which MUST be on top of the stack). *)
Definition A_setmod (top : lua_value) (a : attrs_data) (op : Z) (name : string) : except attrs_data :=
  if (LUALDAP_MAX_ATTRS <=? ai a)%nat then luaL_error (LUALDAP_PREFIX +:+ "too many attributes")
  else
    '(p, a1) ← A_tab2val top a name;
    Ok {| mods := <[ai a1 := {| mod_op := op; mod_type := name; mod_bvalues := p |}]> (mods a1);
          attrs := <[ai a1 := Ptr (ai a1)]> (attrs a1);
          ai := S (ai a1);
          values := values a1; vi := vi a1; bvals := bvals a1; bi := bi a1 |}.

(** Convert a Lua table into an array of modifications.
    An array of modifications is a NULL-terminated array of LDAPMod's. *)
Fixpoint A_tab2mod (tab : lua_table) (a : attrs_data) (op : Z) : except attrs_data :=
  match tab with
  | [] => Ok a
  | (k, v) :: tab' =>
      a1 ← (* attribute must be a string and not a number *)
           (if negb (lua_isnumber k) && lua_isstring k then
              A_setmod v a op (default "" (lua_tostring k))
            else Ok a);
      A_tab2mod tab' a1 op
  end.

(** Terminate the array of attributes. *)
Definition A_lastattr (a : attrs_data) : except attrs_data :=
  if (LUALDAP_MAX_ATTRS <=? ai a)%nat then luaL_error (LUALDAP_PREFIX +:+ "too many attributes")
  else
    Ok {| attrs := <[ai a := NULL]> (attrs a);
          ai := S (ai a);
          mods := mods a; values := values a; vi := vi a; bvals := bvals a; bi := bi a |}.

End Builder.

(** ** Registry references ([luaL_ref], [luaL_unref]) *)

Definition registry_get (L : lua_State) (ref : Z) : lua_value :=
  if (ref <? 0)%Z then LNil else default LNil (registry L !! Z.to_nat ref).

Definition luaL_ref (v : lua_value) (L : lua_State) : Z * lua_State :=
  let r := fresh (dom (registry L)) in
  (Z.of_nat r, set_registry <[r := v]> L).

Definition luaL_unref (ref : Z) (L : lua_State) : lua_State :=
  if (ref <? 0)%Z then L else set_registry (delete (Z.to_nat ref)) L.

(** [lua_touserdata]: the address of the block, NULL for other values. *)
Definition lua_touserdata (v : lua_value) : option nat :=
  match v with LUserdata _ p => Some p | _ => None end.

(** ** Messages of the library *)

(** [ldap_msgfree (res)]: NULL is accepted; an indeterminate pointer is not a
    message the library could release. *)
Definition ldap_msgfree (res : msgp) (L : lua_State) : except lua_State :=
  match res with
  | MsgNull => Ok (call (Call_msgfree None) L)
  | Msg m => Ok (call (Call_msgfree (Some m)) L)
  | MsgWild => Fault
  end.

(** Reading the message [res] points to. *)
Definition deref_msg (res : msgp) : except LDAPMessage :=
  match res with
  | Msg m => Ok m
  | _ => Fault
  end.

(** ** The functions of the binding *)

(** A C function ends with what its body computed, or with the error that
    unwound it (the state is then the one at entry). *)
Definition run (L : lua_State) (m : except (outcome * lua_State)) : outcome * lua_State :=
  match m with
  | Ok r => r
  | Throw e => (Raises e, L)
  | Fault => (Undefined, L)
  end.

Section Binding.
Context `{LuaConv} `{LdapLib} `{Indeterminate}.

(** Typical error situation. *)
Definition faildirect (errmsg : string) : outcome :=
  Returns [LNil; LString errmsg].

(** Get a connection object from the first stack position. *)
Definition getconnection (L : lua_State) (args : list lua_value) : except conn_data :=
  p ← luaL_checkudata args 1 LUALDAP_CONNECTION_METATABLE;
  c ← deref (conns L !! p);
  _ ← luaL_argcheck (bool_decide (is_Some (ld c))) 1
        (LUALDAP_PREFIX +:+ "LDAP connection is closed");
  Ok c.

(** Get a search object from the first upvalue position. *)
Definition getsearch (L : lua_State) (upvalues : list lua_value) : except (nat * search_data) :=
  (* don't need to check upvalue's integrity *)
  sp ← deref (lua_touserdata (index2value upvalues 1));
  search ← deref (searches L !! sp);
  _ ← luaL_argcheck (negb (conn search =? LUA_NOREF)%Z) 1
        (LUALDAP_PREFIX +:+ "LDAP search is closed");
  Ok (sp, search).

(** Error on option. *)
Definition option_error {A} (top : lua_value) (name type : string) : except A :=
  luaL_error (LUALDAP_PREFIX +:+ "invalid value on option `" +:+ name +:+ "': " +:+ type
              +:+ " expected, got " +:+ lua_typename top).

(** Get the field named name as a string. *)
Definition strtabparam (tab : lua_value) (name : string) (def : option string)
  : except (option string) :=
  let v := lua_getfield tab name in
  if lua_isnil v then Ok def
  else if lua_isstring v then Ok (lua_tostring v)
  else option_error v name "string".

(** Storing a [long] in an [int] (32 bits): the value is reduced modulo
    2^32 into the range of [int]. *)
Definition int_of_long (z : Z) : Z :=
  (z + 2147483648) mod 4294967296 - 2147483648.

(** Get the field named name as an integer. *)
Definition longtabparam (tab : lua_value) (name : string) (def : Z) : except Z :=
  let v := lua_getfield tab name in
  if lua_isnil v then Ok def
  else if lua_isnumber v then Ok (lua_tointeger v)
  else option_error v name "number".

(** Get the field named name as a double. *)
Definition numbertabparam (tab : lua_value) (name : string) (def : Z) : except Z :=
  let v := lua_getfield tab name in
  if lua_isnil v then Ok def
  else if lua_isnumber v then Ok (lua_tonumber v)
  else option_error v name "number".

(** Get the field named name as a boolean. *)
Definition booltabparam (tab : lua_value) (name : string) (def : Z) : except Z :=
  let v := lua_getfield tab name in
  if lua_isnil v then Ok def
  else if lua_isboolean v then Ok (if lua_toboolean v then 1 else 0)
  else option_error v name "boolean".

(** Get the result message of an operation.
    #1 upvalue == connection
    #2 upvalue == msgid
    #3 upvalue == result code of the message (ADD, DEL etc.) to be received. *)
Definition result_message (upvalues args : list lua_value) (reply : result_reply)
    (L : lua_State) : outcome * lua_State :=
  run L (
    let timeout : option timeval := None in
    p ← deref (lua_touserdata (index2value upvalues 1));
    conn ← deref (conns L !! p);
    let msgid := lua_tonumber (index2value upvalues 2) in
    _ ← luaL_argcheck (bool_decide (is_Some (ld conn))) 1
          (LUALDAP_PREFIX +:+ "LDAP connection is closed");
    let L1 := call (Call_result (ld conn) msgid LDAP_MSG_ONE timeout) L in
    if (rc reply =? 0)%Z then
      Ok (faildirect (LUALDAP_PREFIX +:+ "result timeout expired"), L1)
    else if (rc reply <? 0)%Z then
      L2 ← ldap_msgfree (res reply) L1;
      Ok (faildirect (LUALDAP_PREFIX +:+ "result error"), L2)
    else
      match res reply with
      | MsgNull | MsgWild => Fault
      | Msg m =>
          let L2 := call (Call_parse_result (ld conn) (Some m) 1) L1 in
          if negb (lm_parse_rc m =? LDAP_SUCCESS)%Z then
            Ok (faildirect (ldap_err2string (lm_parse_rc m)), L2)
          else if (lm_err m =? LDAP_SUCCESS)%Z || (lm_err m =? LDAP_COMPARE_TRUE)%Z then
            Ok (Returns [LBoolean true], L2)
          else if (lm_err m =? LDAP_COMPARE_FALSE)%Z then
            Ok (Returns [LBoolean false], L2)
          else
            Ok (Returns [LNil;
                         LString ((LUALDAP_PREFIX +:+ ldap_err2string (lm_err m))
                                  +:+ match lm_errmsg m with
                                      | Some msg => " (" +:+ msg +:+ ")"
                                      | None => ""
                                      end)], L2)
      end).

(** Push a function to process the LDAP result. *)
Definition create_future (rc : Z) (conn : lua_value) (msgid : Z) (code : Z) : outcome :=
  if negb (rc =? LDAP_SUCCESS)%Z then faildirect (ldap_err2string rc)
  else Returns [LCClosure Fresult_message [conn; LNumber msgid; LNumber code]].

(** Unbind from the directory.
    @return 1 in case of success; nothing when already closed. *)
Definition lualdap_close (args : list lua_value) (L : lua_State) : outcome * lua_State :=
  run L (
    p ← luaL_checkudata args 1 LUALDAP_CONNECTION_METATABLE;
    conn ← deref (conns L !! p);
    match ld conn with
    | None => Ok (Returns [], L)  (* already closed *)
    | Some h =>
        let L1 := call (Call_unbind_ext (Some h)) L in
        Ok (Returns [LNumber 1],
            set_conns <[p := {| version := version conn; ld := None |}]> L1)
    end).

(** Bind to the directory.
    @return LDAP connection on success. *)
Definition lualdap_bind_simple (args : list lua_value) (err : Z) (L : lua_State)
  : outcome * lua_State :=
  run L (
    conn ← getconnection L args;
    who ← luaL_checkstring args 2;
    password ← luaL_checkstring args 3;
    let L1 := call (Call_sasl_bind_s (ld conn) who password) L in
    if negb (err =? LDAP_SUCCESS)%Z then Ok (faildirect (ldap_err2string err), L1)
    else Ok (Returns [index2value args 1], L1)).

(** Add a new entry to the directory.
    @return Function to process the LDAP result. *)
Definition lualdap_add (args : list lua_value) (reply : submit_reply) (L : lua_State)
  : outcome * lua_State :=
  run L (
    conn ← getconnection L args;
    dn ← luaL_checkstring args 2;
    let attrs := A_init uninitialised in
    attrs ← match index2value args 3 with
            | LTable t => A_tab2mod t attrs LUALDAP_MOD_ADD
            | _ => Ok attrs
            end;
    attrs ← A_lastattr attrs;
    let L1 := call (Call_add_ext (ld conn) dn (read_mods attrs)) L in
    Ok (create_future (sub_rc reply) (index2value args 1) (sub_msgid reply) LDAP_RES_ADD, L1)).

(** Compare a value against an entry.
    @return Function to process the LDAP result. *)
Definition lualdap_compare (args : list lua_value) (reply : submit_reply) (L : lua_State)
  : outcome * lua_State :=
  run L (
    conn ← getconnection L args;
    dn ← luaL_checkstring args 2;
    attr ← luaL_checkstring args 3;
    v ← luaL_checklstring args 4;
    let bvalue := {| bv_val := v; bv_len := String.length v |} in
    let L1 := call (Call_compare_ext (ld conn) dn attr bvalue) L in
    Ok (create_future (sub_rc reply) (index2value args 1) (sub_msgid reply) LDAP_RES_COMPARE, L1)).

(** Delete an entry. *)
Definition lualdap_delete (args : list lua_value) (reply : submit_reply) (L : lua_State)
  : outcome * lua_State :=
  run L (
    conn ← getconnection L args;
    dn ← luaL_checkstring args 2;
    let L1 := call (Call_delete_ext (ld conn) dn) L in
    Ok (create_future (sub_rc reply) (index2value args 1) (sub_msgid reply) LDAP_RES_DELETE, L1)).

(** Convert a string into an internal LDAP_MOD operation code. *)
Definition op2code (s : option string) : Z :=
  match s with
  | None => LUALDAP_NO_OP
  | Some EmptyString => LUALDAP_NO_OP   (* [*s] is the terminating NUL *)
  | Some (String c _) =>
      if Ascii.eqb c "+"%char then LUALDAP_MOD_ADD
      else if Ascii.eqb c "-"%char then LUALDAP_MOD_DEL
      else if Ascii.eqb c "="%char then LUALDAP_MOD_REP
      else LUALDAP_NO_OP
  end.

(** The loop of [lualdap_modify] over the arguments from [param] on. *)
Fixpoint modify_loop (rest : list lua_value) (param : Z) (attrs : attrs_data)
  : except attrs_data :=
  match rest with
  | LTable t :: rest' =>
      (* get operation ('+','-','=' operations allowed) *)
      let op := op2code (lua_tostring (rawgeti t 1)) in
      if (op =? LUALDAP_NO_OP)%Z then
        luaL_error (LUALDAP_PREFIX +:+ "forgotten operation on argument #" +:+ fmt_d param)
      else
        (* get array of attributes and values *)
        attrs ← A_tab2mod t attrs op;
        modify_loop rest' (param + 1) attrs
  | _ => Ok attrs
  end.

(** Modify an entry.
    @param #3, #4... Tables with modifications to apply. *)
Definition lualdap_modify (args : list lua_value) (reply : submit_reply) (L : lua_State)
  : outcome * lua_State :=
  run L (
    conn ← getconnection L args;
    dn ← luaL_checkstring args 2;
    let attrs := A_init uninitialised in
    attrs ← modify_loop (drop 2 args) 3 attrs;
    attrs ← A_lastattr attrs;
    let L1 := call (Call_modify_ext (ld conn) dn (read_mods attrs)) L in
    Ok (create_future (sub_rc reply) (index2value args 1) (sub_msgid reply) LDAP_RES_MODIFY, L1)).

(** Change the distinguished name of an entry. *)
Definition lualdap_rename (args : list lua_value) (reply : submit_reply) (L : lua_State)
  : outcome * lua_State :=
  run L (
    conn ← getconnection L args;
    dn ← luaL_checkstring args 2;
    rdn ← luaL_checkstring args 3;
    par ← luaL_optlstring args 4;
    del ← luaL_optnumber args 5 0;
    let L1 := call (Call_rename (ld conn) dn rdn par del) L in
    Ok (create_future (sub_rc reply) (index2value args 1) (sub_msgid reply) LDAP_RES_MODDN, L1)).

(** [lua_pushlstring (L, bv_val, bv_len)] *)
Definition lua_pushlstring (b : BerValue) : lua_value :=
  LString (String.substring 0 (bv_len b) (bv_val b)).

(** [tolower] on the letters A to Z. *)
Definition tolower (c : ascii) : ascii :=
  let n := nat_of_ascii c in
  if (65 <=? n)%nat && (n <=? 90)%nat then ascii_of_nat (n + 32) else c.

Fixpoint lowercase (s : string) : string :=
  match s with
  | EmptyString => EmptyString
  | String c r => String (tolower c) (lowercase r)
  end.

(** [strcasecmp (a, b) == 0]: the library compares attribute names without
    regard to the case of letters. *)
Definition strcasecmp_eq (a b : string) : bool :=
  String.eqb (lowercase a) (lowercase b).

(** [ldap_get_values_len]: the values of the first attribute of the entry
    whose name is [attr] up to the case of letters (NULL, counted as no
    value, when there is none). *)
Fixpoint ldap_get_values_len (attrs : list (string * list BerValue)) (attr : string)
  : list BerValue :=
  match attrs with
  | [] => []
  | (a, vals) :: attrs' =>
      if strcasecmp_eq attr a then vals else ldap_get_values_len attrs' attr
  end.

(** The loop of [push_values]: [tab[i+1] = vals[i]], for the values from index [i]. *)
Fixpoint push_values_loop (vals : list BerValue) (i : Z) (tab : lua_table) : lua_table :=
  match vals with
  | [] => tab
  | v :: vals' => push_values_loop vals' (i + 1) (rawseti tab (i + 1) (lua_pushlstring v))
  end.

(** Push an attribute value (or a table of values) on top of the stack. *)
Definition push_values (entry : LDAPMessage) (attr : string) : lua_value :=
  let vals := ldap_get_values_len (lm_attrs entry) attr in
  match vals with
  | [] => LBoolean true                 (* no values *)
  | [v] => lua_pushlstring v            (* just one value *)
  | _ => LTable (push_values_loop vals 0 [])  (* Multiple values *)
  end.

(** The loop of [set_attribs] over the attribute names still to visit. *)
Fixpoint set_attribs_loop (entry : LDAPMessage) (names : list string) (tab : lua_table)
  : lua_table :=
  match names with
  | [] => tab
  | attr :: names' =>
      set_attribs_loop entry names' (rawset_str tab attr (push_values entry attr))
  end.

(** Store entry's attributes and values at the given table. *)
Definition set_attribs (entry : LDAPMessage) (tab : lua_table) : lua_table :=
  set_attribs_loop entry (fst <$> lm_attrs entry) tab.

(** Get the distinguished name of the given entry and pushes it on the stack. *)
Definition push_dn (entry : LDAPMessage) : lua_value := LString (lm_dn entry).

(** Release connection reference. *)
Definition search_close (sp : nat) (search : search_data) (L : lua_State) : lua_State :=
  set_searches <[sp := {| conn := LUA_NOREF; msgid := msgid search |}]>
    (luaL_unref (conn search) L).

(** Retrieve next message...
    @return #1 entry's distinguished name.
    @return #2 table with entry's attributes and values. *)
Definition next_message (upvalues args : list lua_value) (reply : result_reply)
    (L : lua_State) : outcome * lua_State :=
  run L (
    '(sp, search) ← getsearch L upvalues;
    let timeout : option timeval := None in
    p ← deref (lua_touserdata (registry_get L (conn search)));  (* get connection *)
    conn ← deref (conns L !! p);
    let L1 := call (Call_result (ld conn) (msgid search) LDAP_MSG_ONE timeout) L in
    if (rc reply =? 0)%Z then
      Ok (faildirect (LUALDAP_PREFIX +:+ "result timeout expired"), L1)
    else if (rc reply =? -1)%Z then
      Ok (faildirect (LUALDAP_PREFIX +:+ "result error"), L1)
    else if (rc reply =? LDAP_RES_SEARCH_RESULT)%Z then (* last message => nil *)
      (* close search object to avoid reuse *)
      L2 ← ldap_msgfree (res reply) (search_close sp search L1);
      Ok (Returns [], L2)
    else
      msg ← deref_msg (res reply);
      if (lm_msgtype msg =? LDAP_RES_SEARCH_ENTRY)%Z then
        L2 ← ldap_msgfree (res reply) L1;
        Ok (Returns [push_dn msg; LTable (set_attribs msg [])], L2)
      else if (lm_msgtype msg =? LDAP_RES_SEARCH_REFERENCE)%Z then
        L2 ← ldap_msgfree (res reply) L1;
        Ok (Returns [push_dn msg; LNil], L2)
      else if (lm_msgtype msg =? LDAP_RES_SEARCH_RESULT)%Z then
        (* close search object to avoid reuse *)
        L2 ← ldap_msgfree (res reply) (search_close sp search L1);
        Ok (Returns [], L2)
      else
        L2 ← ldap_msgfree (res reply) L1;
        Ok (Raises (Error (LUALDAP_PREFIX +:+ "error on search result chain")), L2)).

(** Convert a string to one of the possible scopes of the search. *)
Definition string2scope (s : option string) : except Z :=
  match s with
  | None => Ok LDAP_SCOPE_DEFAULT
  | Some EmptyString => Ok LDAP_SCOPE_DEFAULT
  | Some (String c r) =>
      if Ascii.eqb c Ascii.zero then Ok LDAP_SCOPE_DEFAULT   (* *s == '\0' *)
      else if Ascii.eqb c "b"%char then Ok LDAP_SCOPE_BASE
      else if Ascii.eqb c "o"%char then Ok LDAP_SCOPE_ONELEVEL
      else if Ascii.eqb c "s"%char then Ok LDAP_SCOPE_SUBTREE
      else luaL_error (LUALDAP_PREFIX +:+ "invalid search scope `" +:+ cstr (String c r)
                       +:+ "'")
  end.

(** Close the search object. *)
Definition lualdap_search_close (args : list lua_value) (L : lua_State)
  : outcome * lua_State :=
  run L (
    sp ← luaL_checkudata args 1 LUALDAP_SEARCH_METATABLE;
    search ← deref (searches L !! sp);
    if (conn search =? LUA_NOREF)%Z then Ok (Returns [], L)
    else Ok (Returns [LNumber 1], search_close sp search L)).

(** Create a search object and leaves it on top of the stack. *)
Definition create_search (conn_v : lua_value) (msgid : Z) (L : lua_State)
  : lua_value * lua_State :=
  let sp := fresh (dom (searches L)) in
  let '(ref, L1) := luaL_ref conn_v L in
  (LUserdata LUALDAP_SEARCH_METATABLE sp,
   set_searches <[sp := {| conn := ref; msgid := msgid |}]> L1).

(** A slot of the array [char *attrs[LUALDAP_MAX_ATTRS]]: NULL, a C string,
    or the indeterminate content of a slot never written. *)
Inductive charp := CNull | CStr (s : string) | CWild.

(** The NULL-terminated array of strings, as the library reads it. *)
Fixpoint read_strings (arr : list charp) : option (list string) :=
  match arr with
  | CNull :: _ => Some []
  | CStr s :: arr' => l ← read_strings arr'; Some (s :: l)
  | _ => None
  end.

(** The loop of [get_attrs_param], for the indices [i], [i+1], ... ([count] of them). *)
Fixpoint get_attrs_loop (tab : lua_value) (count i : nat) (attrs : list charp)
  : except (list charp) :=
  match count with
  | O => Ok attrs
  | S count' =>
      let e := lua_rawgeti tab (Z.of_nat (i + 1)) in   (* push table element *)
      match lua_tostring e with
      | Some s => get_attrs_loop tab count' (S i) (<[i := CStr s]> attrs)
      | None =>    (* !lua_isstring (L, -1) *)
          luaL_error (LUALDAP_PREFIX +:+ "invalid value #" +:+ fmt_d (Z.of_nat (i + 1)))
      end
  end.

(** Fill in the attrs array, according to the attrs parameter. *)
Definition get_attrs_param (crit : lua_value) (attrs : list charp) : except (list charp) :=
  let v := lua_getfield crit "attrs" in
  match lua_tostring v with
  | Some s =>                       (* lua_isstring (L, -1) *)
      Ok (<[1%nat := CNull]> (<[0%nat := CStr s]> attrs))
  | None =>
      if negb (lua_istable v) then Ok (<[0%nat := CNull]> attrs)
      else
        let n := lua_rawlen v in
        if (LUALDAP_MAX_ATTRS <? n + 1)%nat then
          luaL_error (LUALDAP_PREFIX +:+ "too many arguments")
        else
          attrs ← get_attrs_loop v n 0 attrs;
          Ok (<[n := CNull]> attrs)
  end.

(** Fill in the struct timeval, according to the timeout parameter. The
    numbers of this model are whole, so that [(long)t] is [t] and no fraction
    of a second is left for [tv_usec]. *)
Definition get_timeout_param (crit : lua_value) : except (option timeval) :=
  t ← numbertabparam crit "timeout" 0;
  if (t <=? 0)%Z then Ok None (* No timeout, block *)
  else
    let sec := t in    (* (long)t *)
    Ok (Some {| tv_sec := sec; tv_usec := 1000000 * (t - sec) |}).

(** Perform a search operation.
    @return #1 Function to iterate over the result entries.
    @return #2 nil.
    The search result is defined as an upvalue of the iterator. *)
Definition lualdap_search (args : list lua_value) (reply : submit_reply) (L : lua_State)
  : outcome * lua_State :=
  run L (
    conn ← getconnection L args;
    let crit := index2value args 2 in
    if negb (lua_istable crit) then
      luaL_error (LUALDAP_PREFIX +:+ "no search specification")
    else
      attrs ← get_attrs_param crit (replicate LUALDAP_MAX_ATTRS CWild);
      (* get other parameters *)
      attrsonly ← booltabparam crit "attrsonly" 0;
      base ← strtabparam crit "base" None;
      filter ← strtabparam crit "filter" None;
      scope ← (s ← strtabparam crit "scope" None; string2scope s);
      (* int sizelimit *)
      sizelimit ← (l ← longtabparam crit "sizelimit" LDAP_NO_LIMIT; Ok (int_of_long l));
      timeout ← get_timeout_param crit;
      let L1 := call (Call_search_ext (ld conn) base scope filter (read_strings attrs)
                        attrsonly timeout sizelimit) L in
      if negb (sub_rc reply =? LDAP_SUCCESS)%Z then
        Ok (Raises (Error (LUALDAP_PREFIX +:+ ldap_err2string (sub_rc reply))), L1)
      else
        let '(search, L2) := create_search (index2value args 1) (sub_msgid reply) L1 in
        Ok (Returns [LCClosure Fnext_message [search]; crit], L2)).

(** Calling a closure made by this library. *)
Definition call_closure (f : lua_value) (args : list lua_value) (reply : result_reply)
    (L : lua_State) : outcome * lua_State :=
  match f with
  | LCClosure Fresult_message upvalues => result_message upvalues args reply L
  | LCClosure Fnext_message upvalues => next_message upvalues args reply L
  | _ => (Raises (Error "attempt to call a non-function value"), L)
  end.

End Binding.

(** ** Opening connections *)

(** Constants of [<ldap.h>] used when a connection is set up. *)
Definition LDAP_VERSION3 : Z := 3.
Definition LDAP_OPT_SUCCESS : Z := 0.
Definition LDAP_OPT_PROTOCOL_VERSION : Z := 17.
Definition LDAP_OPT_DEBUG_LEVEL : Z := 20481.
Definition LDAP_OPT_TIMEOUT : Z := 20482.
Definition LDAP_OPT_NETWORK_TIMEOUT : Z := 20485.

(** The value passed to [ldap_set_option] through its [void *] argument. *)
Inductive option_value :=
| OptInt (n : Z)
| OptTimeval (tv : timeval).

(** The calls made to the library while a connection is set up. The
    functions that open a connection return them, oldest first, beside the
    outcome and the state. *)
Inductive setup_call :=
| Call_initialize (uri : option string)
| Call_set_option (ld : option LDAP) (option : Z) (value : option_value)
| Call_start_tls_s (ld : option LDAP).

(** What the library answers while a connection is set up: the return code of
    [ldap_initialize] and the handle it stores, and the return codes of the
    three [ldap_set_option] calls and of [ldap_start_tls_s]. *)
Record open_reply := {
  init_err : Z;
  init_ld : option LDAP;
  timeout_rc : Z;
  network_timeout_rc : Z;
  version_rc : Z;
  tls_rc : Z
}.

(** What the caller's global environment holds under [string.gsub]:
    indexing the global [string] raises an error, or the field is not a
    function, or it is a function; [f host] is then how the call
    [string.gsub (host, "(%S+)", "ldap://%1")] ends, with its first result. *)
Inductive gsub_global :=
| GsubError (e : lua_error)
| GsubNotFunction
| GsubFunction (f : string -> except lua_value).

(** [strstr (hay, needle) != NULL] *)
Fixpoint strstr (hay needle : string) : bool :=
  String.prefix needle hay ||
  match hay with
  | EmptyString => false
  | String _ hay' => strstr hay' needle
  end.

(** The first two results of a call made with [lua_call (L, nargs, 2)]. *)
Definition results2 (vals : list lua_value) : lua_value * lua_value :=
  (default LNil (vals !! 0%nat), default LNil (vals !! 1%nat)).

Section Opening.
Context `{LuaConv} `{LdapLib} `{Indeterminate}.

(** [luaL_optstring (L, narg, def)] *)
Definition luaL_optstring (args : list lua_value) (narg : nat) (def : string) : except string :=
  if lua_isnoneornil (index2value args narg) then Ok def
  else luaL_checkstring args narg.

(** The last steps of [lualdap_open], for the block at [p]: the protocol
    version and TLS. *)
Definition set_version (p : nat) (use_tls : bool) (reply : open_reply)
    (L : lua_State) (log : list setup_call) : outcome * lua_State * list setup_call :=
  (* Set protocol version *)
  let L1 := set_conns <[p := {| version := LDAP_VERSION3; ld := init_ld reply |}]> L in
  let log1 := log ++ [Call_set_option (init_ld reply) LDAP_OPT_PROTOCOL_VERSION
                        (OptInt LDAP_VERSION3)] in
  if negb (version_rc reply =? LDAP_OPT_SUCCESS)%Z then
    (faildirect (LUALDAP_PREFIX +:+ "Error setting LDAP version"), L1, log1)
  else if use_tls then
    (* Use TLS *)
    let log2 := log1 ++ [Call_start_tls_s (init_ld reply)] in
    if negb (tls_rc reply =? LDAP_SUCCESS)%Z then
      (faildirect (ldap_err2string (tls_rc reply)), L1, log2)
    else (Returns [LUserdata LUALDAP_CONNECTION_METATABLE p], L1, log2)
  else (Returns [LUserdata LUALDAP_CONNECTION_METATABLE p], L1, log1).

(** What [lualdap_open] does from the call of [ldap_initialize] on the URI
    on, for the block at [p]. The timeout is a whole number of seconds, as
    all numbers of this model: [(long)timeout] is [timeout] and no fraction
    is left for [tv_usec]. *)
Definition connect (p : nat) (use_tls : bool) (timeout : Z) (reply : open_reply)
    (L : lua_State) (uri : option string) : outcome * lua_State * list setup_call :=
  let log := [Call_initialize uri] in
  let L1 := set_conns <[p := {| version := 0; ld := init_ld reply |}]> L in
  if negb (init_err reply =? LDAP_SUCCESS)%Z then
    (faildirect (LUALDAP_PREFIX +:+ "Error connecting to server"), L1, log)
  else if (0 <? timeout)%Z then
    (* Set timeout (optionally) *)
    let sec := timeout in    (* (long)timeout *)
    let optTimeout := {| tv_sec := sec; tv_usec := 1000000 * (timeout - sec) |} in
    let log1 := log ++ [Call_set_option (init_ld reply) LDAP_OPT_TIMEOUT
                          (OptTimeval optTimeout)] in
    if negb (timeout_rc reply =? LDAP_OPT_SUCCESS)%Z then
      (faildirect (LUALDAP_PREFIX +:+ "Could not set timeout"), L1, log1)
    else
      let log2 := log1 ++ [Call_set_option (init_ld reply) LDAP_OPT_NETWORK_TIMEOUT
                             (OptTimeval optTimeout)] in
      if negb (network_timeout_rc reply =? LDAP_OPT_SUCCESS)%Z then
        (faildirect (LUALDAP_PREFIX +:+ "Could not set network timeout"), L1, log2)
      else set_version p use_tls reply L1 log2
  else set_version p use_tls reply L1 log.

(** Open a connection to a server.
    @param #1 String with hostname.
    @param #2 Boolean indicating if TLS must be used.
    @param #3 Number for connection timeout (optional).
    @return #1 Userdata with connection structure.
    The userdata block is entered in the store once [ldap_initialize] has
    written its [ld]; on the paths that leave before, its [ld] is
    indeterminate. *)
Definition lualdap_open (gsub : gsub_global) (args : list lua_value)
    (reply : open_reply) (L : lua_State) : outcome * lua_State * list setup_call :=
  match luaL_checklstring args 1 with
  | Throw e => (Raises e, L, [])
  | Fault => (Undefined, L, [])
  | Ok lhost =>
      let host := cstr lhost in
      let use_tls := lua_toboolean (index2value args 2) in
      let timeout := lua_tonumber (index2value args 3) in
      let p := fresh (dom (conns L)) in    (* lua_newuserdata *)
      (* Initialize *)
      if strstr host "://" then connect p use_tls timeout reply L (Some host)
      else
        match gsub with
        | GsubError e => (Raises e, L, [])      (* lua_getfield on the global [string] *)
        | GsubNotFunction => (faildirect (LUALDAP_PREFIX +:+ "string.gsub broken"), L, [])
        | GsubFunction f =>
            (* string.gsub(host, '(%S+)', 'ldap://%1') *)
            match f lhost with
            | Ok r =>
                (* ldap_initialize handles a whitespace-separated list of hostnames *)
                connect p use_tls timeout reply L (lua_tostring r)
            | Throw e => (Raises e, L, [])
            | Fault => (Undefined, L, [])
            end
        end
  end.

(** Open and initialize a connection to a server (without binding).
    @param #1 String with URI.
    @return #1 Userdata with connection structure. *)
Definition lualdap_initialize (args : list lua_value) (reply : open_reply) (L : lua_State)
  : outcome * lua_State * list setup_call :=
  match luaL_checkstring args 1 with
  | Throw e => (Raises e, L, [])
  | Fault => (Undefined, L, [])
  | Ok uri =>
      let p := fresh (dom (conns L)) in
      let lev := 7 in
      let log := [Call_initialize (Some uri)] in
      let L1 := set_conns <[p := {| version := 0; ld := init_ld reply |}]> L in
      if negb (init_err reply =? LDAP_SUCCESS)%Z then
        (faildirect (ldap_err2string (init_err reply)), L1, log)
      else
        (* Set protocol version *)
        let L2 := set_conns <[p := {| version := LDAP_VERSION3; ld := init_ld reply |}]> L1 in
        let log1 := log ++ [Call_set_option (init_ld reply) LDAP_OPT_PROTOCOL_VERSION
                              (OptInt LDAP_VERSION3)] in
        if negb (version_rc reply =? LDAP_OPT_SUCCESS)%Z then
          (faildirect (LUALDAP_PREFIX +:+ "Error setting LDAP version"), L2, log1)
        else
          (Returns [LUserdata LUALDAP_CONNECTION_METATABLE p], L2,
           log1 ++ [Call_set_option (init_ld reply) LDAP_OPT_DEBUG_LEVEL (OptInt lev)])
  end.

(** Open and initialize a connection to a server.
    @param #1 String with hostname.
    @param #2 String with username.
    @param #3 String with password.
    @param #4 Boolean indicating if TLS must be used.
    @param #5 Number for connection timeout (optional).
    @return #1 Userdata with connection structure. *)
Definition lualdap_open_simple (gsub : gsub_global) (args : list lua_value)
    (reply : open_reply) (bind_err : Z) (L : lua_State)
  : outcome * lua_State * list setup_call :=
  match (host ← luaL_checkstring args 1;
         who ← luaL_optstring args 2 "";
         password ← luaL_optstring args 3 "";
         Ok (host, who, password)) with
  | Throw e => (Raises e, L, [])
  | Fault => (Undefined, L, [])
  | Ok (host, who, password) =>
      let use_tls := lua_toboolean (index2value args 4) in
      let timeout := lua_tonumber (index2value args 5) in
      (* Open *)
      match lualdap_open gsub [LString host; LBoolean use_tls; LNumber timeout] reply L with
      | (Returns vals, L1, log) =>
          if lua_isnil (results2 vals).1 then
            (Returns [(results2 vals).1; (results2 vals).2], L1, log) (* nil, msg *)
          else
            (* keep only the userdata (LDAP connection) *)
            let conn := (results2 vals).1 in
            (* Bind to a server *)
            match lualdap_bind_simple [conn; LString who; LString password] bind_err L1 with
            | (Returns vals2, L2) =>
                if lua_isnil (results2 vals2).1 then
                  (* Pass through in case of errors *)
                  (Returns [(results2 vals2).1; (results2 vals2).2], L2, log)
                else (Returns [conn], L2, log)
            | (o, L2) => (o, L2, log)
            end
      | r => r
      end
  end.

(** Return the name of the object's metatable.
    This function is used by `tostring'. [fmt_p] is the [%p] conversion. *)
Definition lualdap_conn_tostring (fmt_p : nat -> string) (args : list lua_value)
    (L : lua_State) : outcome * lua_State :=
  run L (
    p ← luaL_checkudata args 1 LUALDAP_CONNECTION_METATABLE;
    conn ← deref (conns L !! p);
    match ld conn with
    | None => Ok (Returns [LString (LUALDAP_CONNECTION_METATABLE +:+ " (closed)")], L)
    | Some _ =>
        Ok (Returns [LString (LUALDAP_CONNECTION_METATABLE +:+ " (" +:+ fmt_p p +:+ ")")], L)
    end).

(** Return the name of the object's metatable.
    This function is used by `tostring'. *)
Definition lualdap_search_tostring (fmt_p : nat -> string) (args : list lua_value)
    (L : lua_State) : outcome * lua_State :=
  run L (
    sp ← luaL_checkudata args 1 LUALDAP_SEARCH_METATABLE;
    search ← deref (searches L !! sp);
    if (conn search =? LUA_NOREF)%Z then
      Ok (Returns [LString (LUALDAP_SEARCH_METATABLE +:+ " (closed)")], L)
    else
      Ok (Returns [LString (LUALDAP_SEARCH_METATABLE +:+ " (" +:+ fmt_p sp +:+ ")")], L)).

End Opening.

(** * Vocabulary of the properties *)

(** ** A concrete world, used to run the functions on examples *)

Module Sample.

(** Lua 5.3 prints integers with [%d]; decimal numerals convert to numbers. *)
Definition conv : LuaConv := {|
  lua_number2str := fmt_d;
  lua_str2number := fun s => Z.of_int <$> NilZero.int_of_string s
|}.

(** Some texts of [ldap_err2string]. *)
Definition lib : LdapLib := {|
  ldap_err2string := fun rc =>
    if (rc =? 0)%Z then "Success"
    else if (rc =? 32)%Z then "No such object"
    else if (rc =? 50)%Z then "Insufficient access"
    else "Unknown error"
|}.

(** Leftovers of earlier calls where [attrs_data attrs;] is allocated. *)
Definition stack : Indeterminate := {|
  stack_ai := 41;
  stack_vi := 1017;
  stack_bi := 23;
  stack_mod_op := fun j => Z.of_nat j + 5;
  stack_mod_type := fun _ => "junk";
  stack_bval := fun j => {| bv_len := j; bv_val := "junk" |}
|}.

(** The userdata values of the connection and of the search cursor. *)
Definition conn_ud : lua_value := LUserdata LUALDAP_CONNECTION_METATABLE 0.
Definition search_ud : lua_value := LUserdata LUALDAP_SEARCH_METATABLE 0.

(** One open connection, nothing else. *)
Definition open_state : lua_State := {|
  conns := {[ 0%nat := {| version := 3; ld := Some 7%nat |} ]};
  searches := ∅;
  registry := ∅;
  calls := []
|}.

(** The same connection after [close]. *)
Definition closed_state : lua_State := {|
  conns := {[ 0%nat := {| version := 3; ld := None |} ]};
  searches := ∅;
  registry := ∅;
  calls := []
|}.

(** An open connection with an open search cursor on it. *)
Definition searching_state : lua_State := {|
  conns := {[ 0%nat := {| version := 3; ld := Some 7%nat |} ]};
  searches := {[ 0%nat := {| conn := 0; msgid := 4 |} ]};
  registry := {[ 0%nat := conn_ud ]};
  calls := []
|}.

(** An open search cursor whose connection has been closed meanwhile. *)
Definition stale_state : lua_State := {|
  conns := {[ 0%nat := {| version := 3; ld := None |} ]};
  searches := {[ 0%nat := {| conn := 0; msgid := 4 |} ]};
  registry := {[ 0%nat := conn_ud ]};
  calls := []
|}.

(** A submission the library accepts, with message id 1. *)
Definition accepted : submit_reply := {| sub_rc := 0; sub_msgid := 1 |}.

(** A result message of the given type, result code and diagnostic message. *)
Definition message (type err : Z) (diag : option string) : LDAPMessage := {|
  lm_msgtype := type; lm_parse_rc := 0; lm_err := err;
  lm_matched := None; lm_errmsg := diag; lm_dn := ""; lm_attrs := []
|}.

End Sample.

Section Vocabulary.
Context `{LuaConv} `{LdapLib} `{Indeterminate}.

(** ** Search cursors *)

(** The cursor at address [sp] is open in [L] and refers, through the
    registry, to the connection block [c]. *)
Definition open_cursor (L : lua_State) (sp : nat) (s : search_data) (c : conn_data) : Prop :=
  searches L !! sp = Some s /\ conn s <> LUA_NOREF /\
  exists p, lua_touserdata (registry_get L (conn s)) = Some p /\ conns L !! p = Some c.

(** The terminal message of the search: [ldap_result] returns its type and
    has stored through its last argument, or the message handed out carries
    the type. *)
Definition terminal (reply : result_reply) : Prop :=
  (rc reply = LDAP_RES_SEARCH_RESULT /\ res reply <> MsgWild) \/
  (rc reply <> 0%Z /\ rc reply <> (-1)%Z /\
   exists m, res reply = Msg m /\ lm_msgtype m = LDAP_RES_SEARCH_RESULT).

(** ** Lua sequences *)

(** The table [{v1, v2, ...}], its elements stored under 1, 2, ... in order. *)
Fixpoint seq_table_from (i : Z) (elems : list lua_value) : lua_table :=
  match elems with
  | [] => []
  | v :: elems' => (LNumber i, v) :: seq_table_from (i + 1) elems'
  end.

(** The sequence [{v1, v2, ...}]. *)
Definition seq_table (elems : list lua_value) : lua_table := seq_table_from 1 elems.

(** ** The effect of the builder's stores *)

(** The [BerValue] designating the bytes of a Lua string. *)
Definition berval (s : string) : BerValue := {| bv_val := s; bv_len := String.length s |}.

(** A successful [A_setval] of the string [s]. *)
Definition push_value (s : string) (a : attrs_data) : attrs_data := {|
  values := <[vi a := Ptr (bi a)]> (values a); vi := S (vi a);
  bvals := <[bi a := berval s]> (bvals a); bi := S (bi a);
  attrs := attrs a; mods := mods a; ai := ai a |}.

(** A successful [A_nullval]. *)
Definition push_null (a : attrs_data) : attrs_data := {|
  values := <[vi a := NULL]> (values a); vi := S (vi a);
  bvals := bvals a; bi := bi a;
  attrs := attrs a; mods := mods a; ai := ai a |}.

(** The stores of [A_setmod], once the values are in place at [p]. *)
Definition push_mod (op : Z) (name : string) (p : ptr) (a : attrs_data) : attrs_data := {|
  mods := <[ai a := {| mod_op := op; mod_type := name; mod_bvalues := p |}]> (mods a);
  attrs := <[ai a := Ptr (ai a)]> (attrs a); ai := S (ai a);
  values := values a; vi := vi a; bvals := bvals a; bi := bi a |}.

(** The two capacity errors. *)
Definition too_many_values : lua_error := Error "LuaLDAP: too many values".
Definition too_many_attributes : lua_error := Error "LuaLDAP: too many attributes".

(** ** Counting modification entries *)

(** The keys [A_tab2mod] takes for attribute names: strings that do not
    convert to a number. *)
Definition is_attr_key (k : lua_value) : bool := negb (lua_isnumber k) && lua_isstring k.

(** The pairs of a table that become modification entries. *)
Fixpoint mod_entries (t : lua_table) : lua_table :=
  match t with
  | [] => []
  | (k, v) :: t' => if is_attr_key k then (k, v) :: mod_entries t' else mod_entries t'
  end.

(** The groups of a [modify] call: the tables at the front of the arguments
    that follow the DN. *)
Fixpoint leading_tables (l : list lua_value) : list lua_table :=
  match l with
  | LTable t :: l' => t :: leading_tables l'
  | _ => []
  end.

(** The number of modification entries of a list of groups. *)
Definition entry_count (gs : list lua_table) : nat :=
  foldr (fun g n => (length (mod_entries g) + n)%nat) 0%nat gs.

(** How [lualdap_add] and [lualdap_modify] end once the connection and the
    DN are checked: [build] stores the modifications, [A_lastattr] terminates
    the array and the request is submitted. *)
Definition submit_after (L : lua_State) (build : except attrs_data)
    (submit : attrs_data -> outcome * lua_State) : outcome * lua_State :=
  run L (attrs ← build; attrs ← A_lastattr attrs; Ok (submit attrs)).

(** ** Attribute maps of the data model *)

(** The attribute values of the data model: no value, one value, or an
    ordered sequence of values. *)
Inductive AttributeValue :=
| Absent
| Single (s : string)
| Multi (ss : list string).

(** An attribute map, in the order in which [lua_next] visits it. *)
Definition attribute_map := list (string * AttributeValue).

(** The Lua value a caller writes for an attribute value. *)
Definition lua_of_value (v : AttributeValue) : lua_value :=
  match v with
  | Absent => LBoolean true
  | Single s => LString s
  | Multi ss => LTable (seq_table (LString <$> ss))
  end.

(** The Lua table a caller writes for an attribute map. *)
Definition lua_of_map (m : attribute_map) : lua_table :=
  (fun kv => (LString kv.1, lua_of_value kv.2)) <$> m.

(** The values an attribute value carries. *)
Definition values_of (v : AttributeValue) : list string :=
  match v with
  | Absent => []
  | Single s => [s]
  | Multi ss => ss
  end.

(** The number of values of a whole map. *)
Definition value_count (m : attribute_map) : nat :=
  foldr (fun kv n => (length (values_of kv.2) + n)%nat) 0%nat m.

(** A name [A_tab2mod] stores unchanged: it does not convert to a number and
    holds no NUL. *)
Definition plain_name (k : string) : Prop :=
  lua_str2number k = None /\ cstr k = k.

(** The successful [A_setval]s of the loop of [A_tab2val]. *)
Fixpoint push_all (ss : list string) (a : attrs_data) : attrs_data :=
  match ss with
  | [] => a
  | s :: ss' => push_all ss' (push_value s a)
  end.

(** What storing one attribute does to the structure. *)
Definition store_one (op : Z) (kv : string * AttributeValue) (a : attrs_data) : attrs_data :=
  match kv.2 with
  | Absent => push_mod op kv.1 NULL a
  | v => push_mod op kv.1 (Ptr (vi a)) (push_null (push_all (values_of v) a))
  end.

(** What storing a whole map does to the structure. *)
Fixpoint store_all (op : Z) (m : attribute_map) (a : attrs_data) : attrs_data :=
  match m with
  | [] => a
  | kv :: m' => store_all op m' (store_one op kv a)
  end.

(** ** The structure as the library reads it *)

(** The arrays have their declared sizes. *)
Record lengths_ok (a : attrs_data) : Prop := {
  len_attrs : length (attrs a) = S LUALDAP_MAX_ATTRS;
  len_mods : length (mods a) = LUALDAP_MAX_ATTRS;
  len_values : length (values a) = LUALDAP_ARRAY_VALUES_SIZE;
  len_bvals : length (bvals a) = LUALDAP_MAX_VALUES
}.

(** [a'] was obtained from [a] by writing above the counters only. *)
Record extends (a a' : attrs_data) : Prop := {
  ext_vi : (vi a <= vi a')%nat;
  ext_bi : (bi a <= bi a')%nat;
  ext_ai : (ai a <= ai a')%nat;
  ext_values : forall j, (j < vi a)%nat -> values a' !! j = values a !! j;
  ext_bvals : forall j, (j < bi a)%nat -> bvals a' !! j = bvals a !! j;
  ext_mods : forall j, (j < ai a)%nat -> mods a' !! j = mods a !! j;
  ext_attrs : forall j, (j < ai a)%nat -> attrs a' !! j = attrs a !! j
}.

(** The NULL-terminated array starting at [values[k]] holds [bs], below the
    counters. *)
Definition values_at (a : attrs_data) (k : nat) (bs : list BerValue) : Prop :=
  (forall j b, bs !! j = Some b ->
     exists q, (q < bi a)%nat /\ values a !! (k + j)%nat = Some (Ptr q) /\
               bvals a !! q = Some b) /\
  values a !! (k + length bs)%nat = Some NULL /\
  (k + length bs < vi a)%nat.

(** The modification of index [i] is stored, and reads as [e]. *)
Definition mod_at (a : attrs_data) (i : nat) (e : mod_entry) : Prop :=
  (i < ai a)%nat /\ attrs a !! i = Some (Ptr i) /\
  exists m, mods a !! i = Some m /\ mod_op m = e.1.1 /\ mod_type m = e.1.2 /\
    match mod_bvalues m, e.2 with
    | NULL, None => True
    | Ptr k, Some bs => values_at a k bs
    | _, _ => False
    end.

(** The modifications [es] are stored in the first [ai a] slots. *)
Definition stored (a : attrs_data) (es : list mod_entry) : Prop :=
  length es = ai a /\ forall i e, es !! i = Some e -> mod_at a i e.

(** ** Encoding and decoding *)

(** What the library is handed for an attribute value. *)
Definition encoded_values (v : AttributeValue) : option (list BerValue) :=
  match v with
  | Absent => None
  | _ => Some (berval <$> values_of v)
  end.

(** The modification array the library is handed for a map. *)
Definition encoded (op : Z) (m : attribute_map) : list mod_entry :=
  (fun kv => (op, kv.1, encoded_values kv.2)) <$> m.

(** The entry a directory holds once the modifications [es] were applied to
    an empty entry named [dn]: every attribute with its values. *)
Definition entry_of_mods (dn : string) (es : list mod_entry) : LDAPMessage := {|
  lm_msgtype := LDAP_RES_SEARCH_ENTRY;
  lm_parse_rc := LDAP_SUCCESS; lm_err := LDAP_SUCCESS;
  lm_matched := None; lm_errmsg := None;
  lm_dn := dn;
  lm_attrs := (fun e => (e.1.2, default [] e.2)) <$> es
|}.

(** The shape the decoder gives to an attribute: by its number of values. *)
Definition decoded_shape (v : AttributeValue) : AttributeValue :=
  match values_of v with
  | [] => Absent
  | [s] => Single s
  | ss => Multi ss
  end.

(** The map with every attribute in its decoded shape. *)
Definition decoded_map (m : attribute_map) : attribute_map :=
  (fun kv => (kv.1, decoded_shape kv.2)) <$> m.

(** The change set of an attribute map, then the entry decoder on the
    equivalent entry. *)
Definition round_trip (m : attribute_map) : option lua_table :=
  match a0 ← A_tab2mod (lua_of_map m) (A_init uninitialised) LUALDAP_MOD_ADD; A_lastattr a0 with
  | Ok a => es ← read_mods a; Some (set_attribs (entry_of_mods "" es) [])
  | _ => None
  end.

End Vocabulary.

Module Capacity_examples.

(** [n] attributes named a0, a1, ..., each with the value [v]. *)
Definition attributes (n : nat) (v : lua_value) : lua_table :=
  (fun i => (LString ("a" +:+ fmt_d (Z.of_nat i)), v)) <$> seq 0 n.

(** A sequence of two values. *)
Definition two_values : lua_value := LTable (seq_table [LString "x"; LString "y"]).

End Capacity_examples.

(** ** Vocabulary of the further properties *)

Section Methods.
Context `{LuaConv} `{LdapLib} `{Indeterminate}.

(** The methods of a connection that return a future ([methods] of
    [lualdap_createmeta_conn]), with the response type each one passes to
    [create_future]. *)
Definition future_methods
  : list (string * (list lua_value -> submit_reply -> lua_State -> outcome * lua_State) * Z) :=
  [("add", lualdap_add, LDAP_RES_ADD);
   ("compare", lualdap_compare, LDAP_RES_COMPARE);
   ("delete", lualdap_delete, LDAP_RES_DELETE);
   ("modify", lualdap_modify, LDAP_RES_MODIFY);
   ("rename", lualdap_rename, LDAP_RES_MODDN)].

(** How a method that returns a future ends. *)
Inductive submission (op : list lua_value -> submit_reply -> lua_State -> outcome * lua_State)
    (code : Z) (args : list lua_value) (reply : submit_reply) (L : lua_State) : Prop :=
| submission_raises e : op args reply L = (Raises e, L) -> submission op code args reply L
| submission_undefined : op args reply L = (Undefined, L) -> submission op code args reply L
| submission_made p c h lc :
    index2value args 1 = LUserdata LUALDAP_CONNECTION_METATABLE p ->
    conns L !! p = Some c -> ld c = Some h ->
    op args reply L =
      (create_future (sub_rc reply) (index2value args 1) (sub_msgid reply) code, call lc L) ->
    submission op code args reply L.

(** The strings [A_tab2val] reads from the elements [i], [i+1], ... ([count]
    of them) of a table. *)
Definition element_strings (tab : lua_value) (i count : nat) : list string :=
  (fun j => default "" (lua_tolstring (lua_rawgeti tab (Z.of_nat j)))) <$> seq i count.

(** The attribute value [A_tab2val] reads from a Lua value it accepts. *)
Definition attr_value (v : lua_value) : AttributeValue :=
  if lua_isboolean v && lua_toboolean v then Absent
  else if lua_isstring v then Single (default "" (lua_tolstring v))
  else Multi (element_strings v 1 (lua_rawlen v)).

(** The values [A_tab2val] accepts: [true], a string or a number, or a table
    whose elements 1..n are strings or numbers. *)
Definition valid_value (v : lua_value) : bool :=
  (lua_isboolean v && lua_toboolean v) || lua_isstring v ||
  (lua_istable v &&
   forallb (fun i => lua_isstring (lua_rawgeti v (Z.of_nat i))) (seq 1 (lua_rawlen v))).

(** The attribute map [A_tab2mod] reads from a Lua table: its attribute keys,
    in [lua_next] order, each name read as a C string. *)
Definition attr_map_of (t : lua_table) : attribute_map :=
  (fun kv => (default "" (lua_tostring kv.1), attr_value kv.2)) <$> mod_entries t.

(** The modifications of one group of [modify], under the operation of its
    first positional element. *)
Definition group_mods (g : lua_table) : list mod_entry :=
  encoded (op2code (lua_tostring (rawgeti g 1))) (attr_map_of g).

(** The modifications of the groups of a [modify] call, in argument order. *)
Definition groups_mods (gs : list lua_table) : list mod_entry :=
  concat (group_mods <$> gs).

(** The attribute selection of a search whose [attrs] option is not a table. *)
Definition single_attr (v : lua_value) : list string :=
  match lua_tostring v with Some s => [s] | None => [] end.

(** The options of a search are absent or of the type their accessor expects. *)
Definition well_typed_options (crit : lua_value) : Prop :=
  (lua_isnil (lua_getfield crit "attrsonly") || lua_isboolean (lua_getfield crit "attrsonly")) /\
  (lua_isnil (lua_getfield crit "base") || lua_isstring (lua_getfield crit "base")) /\
  (lua_isnil (lua_getfield crit "filter") || lua_isstring (lua_getfield crit "filter")) /\
  (lua_isnil (lua_getfield crit "scope") || lua_isstring (lua_getfield crit "scope")) /\
  (lua_isnil (lua_getfield crit "sizelimit") || lua_isnumber (lua_getfield crit "sizelimit")) /\
  (lua_isnil (lua_getfield crit "timeout") || lua_isnumber (lua_getfield crit "timeout")).

(** Calling an iterator once per answer of the library, as the generic [for]
    loop does until it gets no value: the outcomes, in order, and the final
    state. *)
Fixpoint drain (f : lua_value) (replies : list result_reply) (L : lua_State)
  : list outcome * lua_State :=
  match replies with
  | [] => ([], L)
  | r :: replies' =>
      let '(o, L1) := call_closure f [] r L in
      let '(os, L2) := drain f replies' L1 in
      (o :: os, L2)
  end.

(** The poll answers with a search entry. *)
Definition entry_reply (r : result_reply) : Prop :=
  rc r = LDAP_RES_SEARCH_ENTRY /\
  exists m, res r = Msg m /\ lm_msgtype m = LDAP_RES_SEARCH_ENTRY.

(** What [next] returns for an entry: its DN and the table of its attributes. *)
Definition entry_values (r : result_reply) : outcome :=
  match res r with
  | Msg m => Returns [LString (lm_dn m); LTable (set_attribs m [])]
  | _ => Undefined
  end.

(** The message the library stored, none when it stored NULL. *)
Definition stored_message (r : result_reply) : option LDAPMessage :=
  match res r with
  | Msg m => Some m
  | _ => None
  end.

(** The calls of one [next]: the poll, then the release of the message. *)
Definition poll_and_free (c : conn_data) (s : search_data) (r : result_reply)
  : list ldap_call :=
  [Call_result (ld c) (msgid s) LDAP_MSG_ONE None; Call_msgfree (stored_message r)].

(** The calls that set up a connection in [lualdap_open], once
    [ldap_initialize] has answered with the handle [h]. *)
Definition setup_options (h : option LDAP) (timeout : option timeval) (use_tls : bool)
  : list setup_call :=
  match timeout with
  | Some tv => [Call_set_option h LDAP_OPT_TIMEOUT (OptTimeval tv);
                Call_set_option h LDAP_OPT_NETWORK_TIMEOUT (OptTimeval tv)]
  | None => []
  end ++
  [Call_set_option h LDAP_OPT_PROTOCOL_VERSION (OptInt LDAP_VERSION3)] ++
  (if use_tls then [Call_start_tls_s h] else []).

End Methods.

(** * Properties *)

(** ** Pending-operation future ([result_message]) *)

Section Future.
Context `{LuaConv} `{LdapLib} `{Indeterminate}.

(** C4. When a future fetches a result message that the library parses, the
    result code [LDAP_SUCCESS] or [LDAP_COMPARE_TRUE] yields [true],
    [LDAP_COMPARE_FALSE] yields [false], and any other code yields the pair
    [nil], text, where the text is [ldap_err2string] of the code (after the
    library prefix), followed by the diagnostic message in parentheses exactly
    when the message carries one. *)
Theorem C4_result_code_decoding upvalues args reply L p c h m :
  lua_touserdata (index2value upvalues 1) = Some p ->
  conns L !! p = Some c -> ld c = Some h ->
  (0 < rc reply)%Z -> res reply = Msg m -> lm_parse_rc m = LDAP_SUCCESS ->
  let r := fst (result_message upvalues args reply L) in
  (lm_err m = LDAP_SUCCESS \/ lm_err m = LDAP_COMPARE_TRUE -> r = Returns [LBoolean true]) /\
  (lm_err m = LDAP_COMPARE_FALSE -> r = Returns [LBoolean false]) /\
  (lm_err m <> LDAP_SUCCESS -> lm_err m <> LDAP_COMPARE_TRUE ->
   lm_err m <> LDAP_COMPARE_FALSE ->
   (forall d, lm_errmsg m = Some d ->
      r = Returns [LNil; LString ("LuaLDAP: " +:+ ldap_err2string (lm_err m)
                                   +:+ " (" +:+ d +:+ ")")]) /\
   (lm_errmsg m = None ->
      r = Returns [LNil; LString ("LuaLDAP: " +:+ ldap_err2string (lm_err m) +:+ "")])).
Proof.
  intros Hp Hc Hh Hrc Hres Hparse r. subst r.
  unfold result_message. rewrite Hp. simpl. rewrite Hc. simpl. rewrite Hh. simpl.
  rewrite Hres, Hparse.
  destruct (Z.eqb_spec (rc reply) 0) as [?|_]; [lia|].
  destruct (Z.ltb_spec (rc reply) 0) as [?|_]; [lia|].
  simpl. repeat split.
  - intros [-> | ->]; reflexivity.
  - intros ->. reflexivity.
  - intros d Hd. rewrite Hd.
    destruct (Z.eqb_spec (lm_err m) LDAP_SUCCESS); [done|].
    destruct (Z.eqb_spec (lm_err m) LDAP_COMPARE_TRUE); [done|].
    destruct (Z.eqb_spec (lm_err m) LDAP_COMPARE_FALSE); [done|].
    reflexivity.
  - intros Hd. rewrite Hd.
    destruct (Z.eqb_spec (lm_err m) LDAP_SUCCESS); [done|].
    destruct (Z.eqb_spec (lm_err m) LDAP_COMPARE_TRUE); [done|].
    destruct (Z.eqb_spec (lm_err m) LDAP_COMPARE_FALSE); [done|].
    reflexivity.
Qed.

(** On a poll error ([rc < 0]) the future hands [res] to [ldap_msgfree] and
    then reports [nil], "result error". *)
Lemma result_message_poll_error upvalues args reply L p c h :
  lua_touserdata (index2value upvalues 1) = Some p ->
  conns L !! p = Some c -> ld c = Some h ->
  (rc reply < 0)%Z ->
  result_message upvalues args reply L =
    run L (
      L2 ← ldap_msgfree (res reply)
             (call (Call_result (Some h) (lua_tonumber (index2value upvalues 2))
                      LDAP_MSG_ONE None) L);
      Ok (Returns [LNil; LString "LuaLDAP: result error"], L2)).
Proof.
  intros Hp Hc Hh Hrc.
  unfold result_message. rewrite Hp. simpl. rewrite Hc. simpl. rewrite Hh. simpl.
  destruct (Z.eqb_spec (rc reply) 0) as [?|_]; [lia|].
  destruct (Z.ltb_spec (rc reply) 0) as [_|?]; [|lia].
  reflexivity.
Qed.

(** On a timeout ([rc = 0]) the future reports [nil], "result timeout expired". *)
Lemma result_message_timeout upvalues args reply L p c h :
  lua_touserdata (index2value upvalues 1) = Some p ->
  conns L !! p = Some c -> ld c = Some h ->
  rc reply = 0%Z ->
  result_message upvalues args reply L =
    (Returns [LNil; LString "LuaLDAP: result timeout expired"],
     call (Call_result (Some h) (lua_tonumber (index2value upvalues 2)) LDAP_MSG_ONE None) L).
Proof.
  intros Hp Hc Hh Hrc.
  unfold result_message. rewrite Hp. simpl. rewrite Hc. simpl. rewrite Hh. simpl.
  rewrite Hrc. reflexivity.
Qed.

(** A future on a closed connection fails with the named error. *)
Lemma result_message_closed upvalues args reply L p c :
  lua_touserdata (index2value upvalues 1) = Some p ->
  conns L !! p = Some c -> ld c = None ->
  result_message upvalues args reply L =
    (Raises (ArgError 1 "LuaLDAP: LDAP connection is closed"), L).
Proof.
  intros Hp Hc Hh.
  unfold result_message. rewrite Hp. simpl. rewrite Hc. simpl. rewrite Hh. reflexivity.
Qed.

End Future.

Lemma C4_result_code_decoding_witness :
  fst (@result_message Sample.conv Sample.lib
         [Sample.conn_ud; LNumber 1; LNumber LDAP_RES_ADD] []
         {| rc := LDAP_RES_ADD; res := Msg (Sample.message LDAP_RES_ADD 32 (Some "no entry")) |}
         Sample.open_state)
  = Returns [LNil; LString "LuaLDAP: No such object (no entry)"].
Proof.
  pose proof (@C4_result_code_decoding Sample.conv Sample.lib
         [Sample.conn_ud; LNumber 1; LNumber LDAP_RES_ADD] []
         {| rc := LDAP_RES_ADD; res := Msg (Sample.message LDAP_RES_ADD 32 (Some "no entry")) |}
         Sample.open_state 0%nat {| version := 3; ld := Some 7%nat |} 7%nat
         (Sample.message LDAP_RES_ADD 32 (Some "no entry"))
         eq_refl eq_refl eq_refl eq_refl eq_refl eq_refl) as (_ & _ & Hother).
  destruct Hother as [Hd _]; [discriminate | discriminate | discriminate |].
  exact (Hd "no entry" eq_refl).
Defined.

(** ** Search result stream ([next_message], [lualdap_search_close]) *)

Section Stream.
Context `{LuaConv} `{LdapLib} `{Indeterminate}.

(** What [next_message] does up to the poll, on an open cursor. *)
Lemma next_message_open upvalues args reply L sp s c :
  lua_touserdata (index2value upvalues 1) = Some sp ->
  open_cursor L sp s c ->
  next_message upvalues args reply L =
    let L1 := call (Call_result (ld c) (msgid s) LDAP_MSG_ONE None) L in
    run L (
      if (rc reply =? 0)%Z then
        Ok (faildirect (LUALDAP_PREFIX +:+ "result timeout expired"), L1)
      else if (rc reply =? -1)%Z then
        Ok (faildirect (LUALDAP_PREFIX +:+ "result error"), L1)
      else if (rc reply =? LDAP_RES_SEARCH_RESULT)%Z then
        L2 ← ldap_msgfree (res reply) (search_close sp s L1);
        Ok (Returns [], L2)
      else
        msg ← deref_msg (res reply);
        if (lm_msgtype msg =? LDAP_RES_SEARCH_ENTRY)%Z then
          L2 ← ldap_msgfree (res reply) L1;
          Ok (Returns [push_dn msg; LTable (set_attribs msg [])], L2)
        else if (lm_msgtype msg =? LDAP_RES_SEARCH_REFERENCE)%Z then
          L2 ← ldap_msgfree (res reply) L1;
          Ok (Returns [push_dn msg; LNil], L2)
        else if (lm_msgtype msg =? LDAP_RES_SEARCH_RESULT)%Z then
          L2 ← ldap_msgfree (res reply) (search_close sp s L1);
          Ok (Returns [], L2)
        else
          L2 ← ldap_msgfree (res reply) L1;
          Ok (Raises (Error (LUALDAP_PREFIX +:+ "error on search result chain")), L2)).
Proof.
  intros Hsp (Hs & Hopen & p & Hp & Hc).
  unfold next_message, getsearch. rewrite Hsp. simpl. rewrite Hs. simpl.
  destruct (Z.eqb_spec (conn s) LUA_NOREF) as [?|_]; [done|]. simpl.
  rewrite Hp. simpl. rewrite Hc. reflexivity.
Qed.

(** A closed cursor refuses [next] with the named error, whatever the library
    would answer. *)
Lemma next_message_closed upvalues args reply L sp s :
  lua_touserdata (index2value upvalues 1) = Some sp ->
  searches L !! sp = Some s -> conn s = LUA_NOREF ->
  next_message upvalues args reply L =
    (Raises (ArgError 1 "LuaLDAP: LDAP search is closed"), L).
Proof.
  intros Hsp Hs Hclosed.
  unfold next_message, getsearch. rewrite Hsp. simpl. rewrite Hs. simpl.
  rewrite Hclosed. reflexivity.
Qed.

(** Closing a closed cursor returns nothing and changes nothing. *)
Lemma lualdap_search_close_closed L sp s :
  searches L !! sp = Some s -> conn s = LUA_NOREF ->
  lualdap_search_close [LUserdata LUALDAP_SEARCH_METATABLE sp] L = (Returns [], L).
Proof.
  intros Hs Hclosed. unfold lualdap_search_close. simpl. rewrite Hs. simpl.
  rewrite Hclosed. reflexivity.
Qed.

Lemma searches_search_close sp s L :
  searches (search_close sp s L) !! sp = Some {| conn := LUA_NOREF; msgid := msgid s |}.
Proof.
  unfold search_close, luaL_unref. destruct (conn s <? 0)%Z; simpl; apply lookup_insert_eq.
Qed.

Lemma registry_search_close sp s L :
  registry_get (search_close sp s L) (conn s) = LNil.
Proof.
  unfold registry_get, search_close, luaL_unref.
  destruct (conn s <? 0)%Z eqn:E; [done|]. simpl. by rewrite lookup_delete_eq.
Qed.

(** C7. On an open cursor, the [next] call that receives the terminal
    search-result message returns no value and leaves the cursor closed, its
    registry reference to the connection released. In any state in which the
    cursor is closed, every [next] call raises the "LDAP search is closed"
    error, and an explicit close returns nothing and leaves the state as it
    is. *)
Theorem C7_cursor_termination upvalues args reply L sp s c :
  lua_touserdata (index2value upvalues 1) = Some sp ->
  open_cursor L sp s c ->
  terminal reply ->
  let L' := snd (next_message upvalues args reply L) in
  fst (next_message upvalues args reply L) = Returns [] /\
  searches L' !! sp = Some {| conn := LUA_NOREF; msgid := msgid s |} /\
  registry_get L' (conn s) = LNil /\
  (forall args' reply',
     next_message upvalues args' reply' L' =
       (Raises (ArgError 1 "LuaLDAP: LDAP search is closed"), L')) /\
  lualdap_search_close [LUserdata LUALDAP_SEARCH_METATABLE sp] L' = (Returns [], L').
Proof.
  intros Hsp Hopen Hterm L'.
  assert (Hrun : next_message upvalues args reply L =
                 (Returns [], call (Call_msgfree (stored_message reply))
                                (search_close sp s
                                   (call (Call_result (ld c) (msgid s) LDAP_MSG_ONE None) L)))).
  { rewrite (next_message_open _ _ _ _ _ _ _ Hsp Hopen). simpl. unfold stored_message.
    destruct Hterm as [[-> Hres] | (Hn0 & Hn1 & m & Hm & Hty)].
    - by destruct (res reply).
    - destruct (Z.eqb_spec (rc reply) 0) as [?|_]; [done|].
      destruct (Z.eqb_spec (rc reply) (-1)) as [?|_]; [done|].
      rewrite Hm.
      destruct (Z.eqb_spec (rc reply) LDAP_RES_SEARCH_RESULT) as [?|_]; [reflexivity|].
      simpl. rewrite Hty. reflexivity. }
  subst L'. rewrite Hrun. simpl.
  assert (Hs' : searches (call (Call_msgfree (stored_message reply))
                   (search_close sp s (call (Call_result (ld c) (msgid s) LDAP_MSG_ONE None) L)))
                !! sp = Some {| conn := LUA_NOREF; msgid := msgid s |}).
  { apply searches_search_close. }
  repeat split.
  - exact Hs'.
  - apply registry_search_close.
  - intros args' reply'. by apply (next_message_closed _ _ _ _ sp _ Hsp Hs').
  - by apply (lualdap_search_close_closed _ sp _ Hs').
Qed.

(** C5. A poll that fails: [ldap_result] returns -1. The search stream
    reports [nil], "result error" (not the timeout text) and calls nothing
    but the poll. The future hands its [res] to [ldap_msgfree] before it
    reports the same failure: what the library stored there, a message or
    NULL, is released; but when the library has returned without storing
    anything, [res] is the automatic variable as it was allocated, and the
    call goes wrong instead of reporting the failure. *)
Theorem C5_poll_error fut cur args reply L p c h sp s c' :
  lua_touserdata (index2value fut 1) = Some p ->
  conns L !! p = Some c -> ld c = Some h ->
  lua_touserdata (index2value cur 1) = Some sp ->
  open_cursor L sp s c' ->
  rc reply = (-1)%Z ->
  let poll := Call_result (Some h) (lua_tonumber (index2value fut 2)) LDAP_MSG_ONE None in
  (res reply = MsgWild -> fst (result_message fut args reply L) = Undefined) /\
  (res reply <> MsgWild ->
   result_message fut args reply L =
     (Returns [LNil; LString "LuaLDAP: result error"],
      call (Call_msgfree (stored_message reply)) (call poll L))) /\
  next_message cur args reply L =
    (Returns [LNil; LString "LuaLDAP: result error"],
     call (Call_result (ld c') (msgid s) LDAP_MSG_ONE None) L) /\
  fst (next_message cur args reply L)
    <> Returns [LNil; LString "LuaLDAP: result timeout expired"].
Proof.
  intros Hp Hc Hh Hsp Hopen Hrc poll. subst poll.
  rewrite (result_message_poll_error fut args reply L p c h Hp Hc Hh) by lia.
  rewrite (next_message_open _ _ _ _ _ _ _ Hsp Hopen). cbn zeta. rewrite Hrc.
  unfold stored_message. cbn [Z.eqb Pos.eqb run faildirect fst].
  repeat split.
  - by intros ->.
  - intros Hres. by destruct (res reply).
  - discriminate.
Qed.

(** C6. [next_message] on an open cursor whose connection has been closed:
    no "LDAP connection is closed" error is raised, whatever the library
    answers; the NULL handle is handed to [ldap_result]. *)
Theorem C6_next_message_stale_connection upvalues args reply L sp s c :
  lua_touserdata (index2value upvalues 1) = Some sp ->
  open_cursor L sp s c ->
  ld c = None ->
  fst (next_message upvalues args reply L)
    <> Raises (ArgError 1 "LuaLDAP: LDAP connection is closed") /\
  (fst (next_message upvalues args reply L) <> Undefined ->
   Call_result None (msgid s) LDAP_MSG_ONE None ∈ calls (snd (next_message upvalues args reply L))).
Proof.
  intros Hsp Hopen Hld.
  rewrite (next_message_open _ _ _ _ _ _ _ Hsp Hopen). simpl. rewrite Hld.
  destruct (rc reply =? 0)%Z; simpl.
  { split; [discriminate|]. intros _. set_solver. }
  destruct (rc reply =? -1)%Z; simpl.
  { split; [discriminate|]. intros _. set_solver. }
  destruct (res reply) as [|m|] eqn:Hres;
    destruct (rc reply =? LDAP_RES_SEARCH_RESULT)%Z; simpl;
    try (by split);
    try (split; [discriminate|]; intros _; unfold search_close, luaL_unref;
         destruct (conn s <? 0)%Z; simpl; set_solver).
  destruct (lm_msgtype m =? LDAP_RES_SEARCH_ENTRY)%Z; simpl.
  { split; [discriminate|]. intros _. set_solver. }
  destruct (lm_msgtype m =? LDAP_RES_SEARCH_REFERENCE)%Z; simpl.
  { split; [discriminate|]. intros _. set_solver. }
  destruct (lm_msgtype m =? LDAP_RES_SEARCH_RESULT)%Z; simpl.
  { split; [discriminate|]. intros _. unfold search_close, luaL_unref.
    destruct (conn s <? 0)%Z; simpl; set_solver. }
  split; [discriminate|]. intros _. set_solver.
Qed.

End Stream.

Lemma C5_poll_error_witness :
  fst (@result_message Sample.conv Sample.lib
         [Sample.conn_ud; LNumber 4; LNumber LDAP_RES_ADD] []
         {| rc := -1; res := MsgWild |} Sample.searching_state)
  = Undefined.
Proof.
  refine (proj1 (@C5_poll_error Sample.conv Sample.lib
    [Sample.conn_ud; LNumber 4; LNumber LDAP_RES_ADD] [Sample.search_ud] []
    {| rc := -1; res := MsgWild |} Sample.searching_state
    0%nat {| version := 3; ld := Some 7%nat |} 7%nat
    0%nat {| conn := 0; msgid := 4 |} {| version := 3; ld := Some 7%nat |}
    eq_refl eq_refl eq_refl eq_refl _ eq_refl) eq_refl).
  split; [reflexivity|]. split; [discriminate|]. exists 0%nat. split; reflexivity.
Defined.

Lemma C6_next_message_stale_connection_witness :
  fst (next_message [Sample.search_ud] []
         {| rc := -1; res := MsgNull |} Sample.stale_state)
  <> Raises (ArgError 1 "LuaLDAP: LDAP connection is closed").
Proof.
  refine (proj1 (C6_next_message_stale_connection [Sample.search_ud] []
    {| rc := -1; res := MsgNull |} Sample.stale_state 0%nat {| conn := 0; msgid := 4 |}
    {| version := 3; ld := None |} eq_refl _ eq_refl)).
  split; [reflexivity|]. split; [discriminate|]. exists 0%nat. split; reflexivity.
Defined.

Lemma C7_cursor_termination_witness :
  fst (next_message [Sample.search_ud] []
         {| rc := LDAP_RES_SEARCH_RESULT;
            res := Msg (Sample.message LDAP_RES_SEARCH_RESULT 0 None) |}
         Sample.searching_state)
  = Returns [].
Proof.
  refine (proj1 (C7_cursor_termination [Sample.search_ud] []
    {| rc := LDAP_RES_SEARCH_RESULT;
       res := Msg (Sample.message LDAP_RES_SEARCH_RESULT 0 None) |}
    Sample.searching_state 0%nat {| conn := 0; msgid := 4 |}
    {| version := 3; ld := Some 7%nat |} eq_refl _ _)).
  - split; [reflexivity|]. split; [discriminate|]. exists 0%nat. split; reflexivity.
  - left. split; [reflexivity | discriminate].
Defined.

(** ** Operation dispatcher *)

Section Dispatcher.
Context `{LuaConv} `{LdapLib} `{Indeterminate}.

Lemma getconnection_open L args p c h :
  index2value args 1 = LUserdata LUALDAP_CONNECTION_METATABLE p ->
  conns L !! p = Some c -> ld c = Some h ->
  getconnection L args = Ok c.
Proof.
  intros Ha Hc Hh. unfold getconnection, luaL_checkudata. rewrite Ha. simpl.
  rewrite Hc. simpl. rewrite Hh. reflexivity.
Qed.

Lemma getconnection_closed L args p c :
  index2value args 1 = LUserdata LUALDAP_CONNECTION_METATABLE p ->
  conns L !! p = Some c -> ld c = None ->
  getconnection L args = Throw (ArgError 1 "LuaLDAP: LDAP connection is closed").
Proof.
  intros Ha Hc Hh. unfold getconnection, luaL_checkudata. rewrite Ha. simpl.
  rewrite Hc. simpl. rewrite Hh. reflexivity.
Qed.

(** Every operation submitted on a closed connection is refused with the
    named error, before anything is handed to the library. *)
Lemma closed_connection_rejected L args p c :
  index2value args 1 = LUserdata LUALDAP_CONNECTION_METATABLE p ->
  conns L !! p = Some c -> ld c = None ->
  let refused := (Raises (ArgError 1 "LuaLDAP: LDAP connection is closed"), L) in
  (forall err, lualdap_bind_simple args err L = refused) /\
  (forall reply, lualdap_add args reply L = refused) /\
  (forall reply, lualdap_compare args reply L = refused) /\
  (forall reply, lualdap_delete args reply L = refused) /\
  (forall reply, lualdap_modify args reply L = refused) /\
  (forall reply, lualdap_rename args reply L = refused) /\
  (forall reply, lualdap_search args reply L = refused).
Proof.
  intros Ha Hc Hh refused. subst refused.
  pose proof (getconnection_closed L args p c Ha Hc Hh) as Hg.
  unfold lualdap_bind_simple, lualdap_add, lualdap_compare, lualdap_delete,
    lualdap_modify, lualdap_rename, lualdap_search.
  rewrite Hg. repeat split.
Qed.

(** [close] on a closed connection returns nothing and changes nothing. *)
Lemma lualdap_close_closed L p c :
  conns L !! p = Some c -> ld c = None ->
  lualdap_close [LUserdata LUALDAP_CONNECTION_METATABLE p] L = (Returns [], L).
Proof.
  intros Hc Hh. unfold lualdap_close. simpl. rewrite Hc. simpl. rewrite Hh. reflexivity.
Qed.

(** The structure handed to the library when no modification was stored. *)
Lemma read_mods_empty :
  exists a, A_lastattr (A_init uninitialised) = Ok a /\ read_mods a = Some [].
Proof. eexists. split; [reflexivity|]. vm_compute. reflexivity. Qed.

(** C10. [add] with a third argument that is not a table, or without a third
    argument, behaves as with an empty table; on an open connection it hands
    [ldap_add_ext] an empty modification array and returns the future (or the
    failure of the submission), without raising an error. *)
Theorem C10_add_without_table args reply L :
  lua_istable (index2value args 3) = false ->
  lualdap_add args reply L
    = lualdap_add [index2value args 1; index2value args 2; LTable []] reply L /\
  (forall p c h dn,
     index2value args 1 = LUserdata LUALDAP_CONNECTION_METATABLE p ->
     conns L !! p = Some c -> ld c = Some h ->
     lua_tolstring (index2value args 2) = Some dn ->
     lualdap_add args reply L =
       (create_future (sub_rc reply) (index2value args 1) (sub_msgid reply) LDAP_RES_ADD,
        call (Call_add_ext (Some h) (cstr dn) (Some [])) L)).
Proof.
  intros Htab.
  destruct read_mods_empty as (a & Hlast & Hread).
  assert (Hskip : match index2value args 3 with
                  | LTable t => A_tab2mod t (A_init uninitialised) LUALDAP_MOD_ADD
                  | _ => Ok (A_init uninitialised)
                  end = Ok (A_init uninitialised)).
  { destruct (index2value args 3); try reflexivity. discriminate. }
  split.
  - unfold lualdap_add, getconnection, luaL_checkudata, luaL_checkstring, luaL_checklstring.
    rewrite Hskip.
    change (index2value [index2value args 1; index2value args 2; LTable []] 1)
      with (index2value args 1).
    change (index2value [index2value args 1; index2value args 2; LTable []] 2)
      with (index2value args 2).
    change (index2value [index2value args 1; index2value args 2; LTable []] 3)
      with (LTable []).
    reflexivity.
  - intros p c h dn Ha Hc Hh Hdn.
    unfold lualdap_add. rewrite (getconnection_open L args p c h Ha Hc Hh).
    unfold luaL_checkstring, luaL_checklstring. rewrite Hdn, Hskip.
    change (Ok dn ≫= _) with (Ok (A:=string) (cstr dn)).
    cbn [mbind except_bind]. rewrite Hlast. cbn [mbind except_bind run].
    rewrite Hread, Hh. reflexivity.
Qed.

End Dispatcher.

Lemma C10_add_without_table_witness :
  @lualdap_add Sample.conv Sample.lib Sample.stack [Sample.conn_ud; LString "cn=test,dc=example"]
    Sample.accepted Sample.open_state
  = (Returns [LCClosure Fresult_message [Sample.conn_ud; LNumber 1; LNumber LDAP_RES_ADD]],
     call (Call_add_ext (Some 7%nat) "cn=test,dc=example" (Some [])) Sample.open_state).
Proof.
  exact (proj2 (@C10_add_without_table Sample.conv Sample.lib Sample.stack
                  [Sample.conn_ud; LString "cn=test,dc=example"]
                  Sample.accepted Sample.open_state eq_refl)
           0%nat {| version := 3; ld := Some 7%nat |} 7%nat "cn=test,dc=example"
           eq_refl eq_refl eq_refl eq_refl).
Defined.

(** ** Modification groups ([lualdap_modify]) *)

Section Modify.
Context `{LuaConv} `{LdapLib} `{Indeterminate}.

(** [op2code] recognises exactly the strings that start with a sigil. *)
Lemma op2code_NO_OP s :
  op2code s = LUALDAP_NO_OP <->
  (forall c r, s = Some (String c r) -> c <> "+"%char /\ c <> "-"%char /\ c <> "="%char).
Proof.
  destruct s as [[|c r]|]; simpl.
  - split; [intros _ c r [=] | done].
  - destruct (Ascii.eqb_spec c "+"); [subst; split; [done|] |].
    { intros Hn. by destruct (Hn _ _ eq_refl) as (? & _). }
    destruct (Ascii.eqb_spec c "-"); [subst; split; [done|] |].
    { intros Hn. by destruct (Hn _ _ eq_refl) as (_ & ? & _). }
    destruct (Ascii.eqb_spec c "="); [subst; split; [done|] |].
    { intros Hn. by destruct (Hn _ _ eq_refl) as (_ & _ & ?). }
    split; [|done]. intros _ c' r' [= <- <-]. done.
  - split; [intros _ c r [=] | done].
Qed.

Lemma modify_loop_app pre rest k a :
  Forall (fun v => lua_istable v = true) pre ->
  modify_loop (pre ++ rest) k a =
    a' ← modify_loop pre k a; modify_loop rest (k + Z.of_nat (length pre)) a'.
Proof.
  intros Hpre. revert k a. induction Hpre as [|v pre Hv _ IH]; intros k a.
  - simpl. by rewrite Z.add_0_r.
  - destruct v; try discriminate. cbn [app modify_loop].
    destruct (op2code (lua_tostring (rawgeti t 1)) =? LUALDAP_NO_OP)%Z; [reflexivity|].
    destruct (A_tab2mod t a (op2code (lua_tostring (rawgeti t 1)))) as [a1| |];
      cbn [mbind except_bind]; [|reflexivity..].
    rewrite IH. cbn [length]. by replace (k + 1 + Z.of_nat (length pre))%Z
      with (k + Z.of_nat (S (length pre)))%Z by lia.
Qed.

Lemma modify_loop_no_group args k a :
  lua_istable (index2value args 3) = false ->
  modify_loop (drop 2 args) k a = Ok a.
Proof.
  destruct args as [|x [|y [|z rest]]]; try reflexivity.
  simpl. destruct z; try reflexivity. discriminate.
Qed.

(** C2 (amended). On an open connection and with a DN: a group whose first
    positional element does not start with ['+'], ['-'] or ['='] raises
    "forgotten operation on argument #k", where [k] is the position of the
    group among the arguments of the call (3 for the first group), provided
    the groups before it were stored without error. With no group at all the
    call raises nothing: it hands [ldap_modify_ext] an empty modification
    array. *)
Theorem C2_modify_sigil args reply L p c h dn :
  index2value args 1 = LUserdata LUALDAP_CONNECTION_METATABLE p ->
  conns L !! p = Some c -> ld c = Some h ->
  lua_tolstring (index2value args 2) = Some dn ->
  (forall pre g post a,
     drop 2 args = pre ++ LTable g :: post ->
     Forall (fun v => lua_istable v = true) pre ->
     modify_loop pre 3 (A_init uninitialised) = Ok a ->
     (forall ch r, lua_tostring (rawgeti g 1) = Some (String ch r) ->
                   ch <> "+"%char /\ ch <> "-"%char /\ ch <> "="%char) ->
     lualdap_modify args reply L =
       (Raises (Error ("LuaLDAP: forgotten operation on argument #"
                       +:+ fmt_d (3 + Z.of_nat (length pre)))), L)) /\
  (lua_istable (index2value args 3) = false ->
     lualdap_modify args reply L =
       (create_future (sub_rc reply) (index2value args 1) (sub_msgid reply) LDAP_RES_MODIFY,
        call (Call_modify_ext (Some h) (cstr dn) (Some [])) L)).
Proof.
  intros Ha Hc Hh Hdn.
  split.
  - intros pre g post a Hargs Hpre Hstored Hsigil.
    apply op2code_NO_OP in Hsigil.
    unfold lualdap_modify. rewrite (getconnection_open L args p c h Ha Hc Hh).
    unfold luaL_checkstring, luaL_checklstring. rewrite Hdn. cbn [mbind except_bind].
    rewrite Hargs, (modify_loop_app pre _ 3 _ Hpre), Hstored.
    cbn [mbind except_bind modify_loop]. rewrite Hsigil. reflexivity.
  - intros Hnone.
    destruct read_mods_empty as (a & Hlast & Hread).
    unfold lualdap_modify. rewrite (getconnection_open L args p c h Ha Hc Hh).
    unfold luaL_checkstring, luaL_checklstring. rewrite Hdn. cbn [mbind except_bind].
    rewrite (modify_loop_no_group _ _ _ Hnone). cbn [mbind except_bind].
    rewrite Hlast. cbn [mbind except_bind run]. rewrite Hread, Hh. reflexivity.
Qed.

End Modify.

Lemma C2_modify_sigil_witness :
  @lualdap_modify Sample.conv Sample.lib Sample.stack
    [Sample.conn_ud; LString "cn=test,dc=example";
     LTable [(LNumber 1, LString "+"); (LString "mail", LString "t@example.org")];
     LTable [(LString "sn", LString "Test")]]
    Sample.accepted Sample.open_state
  = (Raises (Error "LuaLDAP: forgotten operation on argument #4"), Sample.open_state).
Proof.
  refine (proj1 (@C2_modify_sigil Sample.conv Sample.lib Sample.stack
                   [Sample.conn_ud; LString "cn=test,dc=example";
                    LTable [(LNumber 1, LString "+"); (LString "mail", LString "t@example.org")];
                    LTable [(LString "sn", LString "Test")]]
                   Sample.accepted Sample.open_state
                   0%nat {| version := 3; ld := Some 7%nat |} 7%nat "cn=test,dc=example"
                   eq_refl eq_refl eq_refl eq_refl)
            [LTable [(LNumber 1, LString "+"); (LString "mail", LString "t@example.org")]]
            [(LString "sn", LString "Test")] [] _ eq_refl _ _ _).
  - repeat constructor.
  - vm_compute. reflexivity.
  - intros ch r [=].
Defined.

(** Counterexample to C2 as stated: with no group nothing is raised, an empty
    modification array is submitted. *)
Lemma C2_modify_without_groups_counterexample :
  @lualdap_modify Sample.conv Sample.lib Sample.stack [Sample.conn_ud; LString "cn=test,dc=example"]
    Sample.accepted Sample.open_state
  = (Returns [LCClosure Fresult_message [Sample.conn_ud; LNumber 1; LNumber LDAP_RES_MODIFY]],
     call (Call_modify_ext (Some 7%nat) "cn=test,dc=example" (Some [])) Sample.open_state)
  /\ fst (@lualdap_modify Sample.conv Sample.lib Sample.stack
            [Sample.conn_ud; LString "cn=test,dc=example"]
            Sample.accepted Sample.open_state)
     <> Raises (Error "LuaLDAP: forgotten operation on argument #3").
Proof. split; [vm_compute; reflexivity | vm_compute; discriminate]. Qed.

(** ** Search options *)

Section SearchOptions.
Context `{LuaConv} `{LdapLib} `{Indeterminate}.

Lemma cstr_idemp s : cstr (cstr s) = cstr s.
Proof.
  induction s as [|ch s IH]; [reflexivity|]. simpl.
  destruct (Ascii.eqb ch Ascii.zero) eqn:E; [reflexivity|].
  simpl. by rewrite E, IH.
Qed.

Lemma cstr_head s ch r : cstr s = String ch r -> Ascii.eqb ch Ascii.zero = false.
Proof.
  destruct s as [|c s]; simpl; [done|].
  destruct (Ascii.eqb c Ascii.zero) eqn:E; [done|]. by intros [= <- _].
Qed.

(** A value that [lua_tostring] converts is returned by [strtabparam]. *)
Lemma strtabparam_string crit name def s :
  lua_tostring (lua_getfield crit name) = Some s ->
  strtabparam crit name def = Ok (Some s).
Proof.
  unfold strtabparam. intros Hs.
  destruct (lua_getfield crit name); try discriminate; simpl; by rewrite <- Hs.
Qed.

(** C8. The [scope] option of the search criteria, read as a C string: absent
    or empty gives the default scope; a string starting with ['b'], ['o'] or
    ['s'] gives base, one-level or subtree; any other leading character raises
    "invalid search scope". *)
Theorem C8_scope_option (crit : lua_value) :
  let scope := (s ← strtabparam crit "scope" None; string2scope s) in
  (lua_getfield crit "scope" = LNil -> scope = Ok LDAP_SCOPE_DEFAULT) /\
  (lua_tostring (lua_getfield crit "scope") = Some "" -> scope = Ok LDAP_SCOPE_DEFAULT) /\
  (forall r, lua_tostring (lua_getfield crit "scope") = Some (String "b" r) ->
             scope = Ok LDAP_SCOPE_BASE) /\
  (forall r, lua_tostring (lua_getfield crit "scope") = Some (String "o" r) ->
             scope = Ok LDAP_SCOPE_ONELEVEL) /\
  (forall r, lua_tostring (lua_getfield crit "scope") = Some (String "s" r) ->
             scope = Ok LDAP_SCOPE_SUBTREE) /\
  (forall ch r, lua_tostring (lua_getfield crit "scope") = Some (String ch r) ->
     ch <> "b"%char -> ch <> "o"%char -> ch <> "s"%char ->
     scope = Throw (Error ("LuaLDAP: invalid search scope `" +:+ String ch r +:+ "'"))).
Proof.
  cbv zeta. split; [|split; [|split; [|split; [|split]]]].
  - unfold strtabparam. intros ->. reflexivity.
  - intros Hs. by rewrite (strtabparam_string _ _ _ _ Hs).
  - intros r Hs. by rewrite (strtabparam_string _ _ _ _ Hs).
  - intros r Hs. by rewrite (strtabparam_string _ _ _ _ Hs).
  - intros r Hs. by rewrite (strtabparam_string _ _ _ _ Hs).
  - intros ch r Hs Hb Ho Hs'.
    rewrite (strtabparam_string _ _ _ _ Hs). cbn [mbind except_bind string2scope].
    assert (Hc : exists s0, cstr s0 = String ch r).
    { unfold lua_tostring in Hs. destruct (lua_tolstring _) as [s0|]; [|done].
      exists s0. by injection Hs. }
    destruct Hc as [s0 Hc].
    rewrite (cstr_head _ _ _ Hc).
    apply Ascii.eqb_neq in Hb, Ho, Hs'. rewrite Hb, Ho, Hs'.
    by rewrite <- Hc, cstr_idemp.
Qed.

End SearchOptions.

Lemma C8_scope_option_witness :
  (s ← @strtabparam Sample.conv (LTable [(LString "scope", LString "x")]) "scope" None;
   string2scope s)
  = Throw (Error "LuaLDAP: invalid search scope `x'").
Proof.
  destruct (@C8_scope_option Sample.conv (LTable [(LString "scope", LString "x")]))
    as (_ & _ & _ & _ & _ & Hother).
  apply (Hother "x"%char ""); [reflexivity | discriminate..].
Defined.

(** The scope reaches the library: a one-level search. *)
Example search_onelevel :
  calls (snd (@lualdap_search Sample.conv Sample.lib
                [Sample.conn_ud; LTable [(LString "base", LString "dc=example");
                                         (LString "scope", LString "onelevel")]]
                Sample.accepted Sample.open_state))
  = [Call_search_ext (Some 7%nat) (Some "dc=example") LDAP_SCOPE_ONELEVEL None (Some [])
       0 None LDAP_NO_LIMIT].
Proof. vm_compute. reflexivity. Qed.

(** ** Lua sequences *)

Lemma length_seq_table_from i elems : length (seq_table_from i elems) = length elems.
Proof. revert i. induction elems as [|v elems IH]; intros i; simpl; [done|]. by rewrite IH. Qed.

Lemma rawgeti_seq_table_from_lt i elems k :
  (k < i)%Z -> rawgeti (seq_table_from i elems) k = LNil.
Proof.
  revert i. induction elems as [|v elems IH]; intros i Hk; simpl; [done|].
  destruct (Z.eqb_spec i k); [lia|]. apply IH. lia.
Qed.

Lemma rawgeti_seq_table_from i elems (j : nat) :
  rawgeti (seq_table_from i elems) (i + Z.of_nat j) = default LNil (elems !! j).
Proof.
  revert i j. induction elems as [|v elems IH]; intros i j; simpl; [done|].
  destruct j as [|j]; simpl.
  - destruct (Z.eqb_spec i (i + Z.of_nat 0)); [done|lia].
  - destruct (Z.eqb_spec i (i + Z.of_nat (S j))); [lia|].
    replace (i + Z.of_nat (S j))%Z with ((i + 1) + Z.of_nat j)%Z by lia. apply IH.
Qed.

Lemma rawgeti_seq_table elems (j : nat) :
  rawgeti (seq_table elems) (Z.of_nat (S j)) = default LNil (elems !! j).
Proof.
  unfold seq_table. replace (Z.of_nat (S j)) with (1 + Z.of_nat j)%Z by lia.
  apply rawgeti_seq_table_from.
Qed.

Lemma border_seq_table elems fuel j :
  Forall (fun v => lua_isnil v = false) elems ->
  (j <= length elems)%nat -> (length elems - j <= fuel)%nat ->
  border (seq_table elems) fuel j = length elems.
Proof.
  intros Hnn. revert j. induction fuel as [|fuel IH]; intros j Hj Hfuel; simpl.
  - lia.
  - rewrite rawgeti_seq_table.
    destruct (elems !! j) as [v|] eqn:E; simpl.
    + rewrite (proj1 (Forall_lookup _ _) Hnn _ _ E).
      apply lookup_lt_Some in E. apply IH; lia.
    + apply lookup_ge_None in E. lia.
Qed.

(** The raw length of a sequence is its number of elements. *)
Lemma lua_rawlen_seq_table elems :
  Forall (fun v => lua_isnil v = false) elems ->
  lua_rawlen (LTable (seq_table elems)) = length elems.
Proof.
  intros Hnn. simpl. apply border_seq_table; [done|lia|].
  unfold seq_table. rewrite length_seq_table_from. lia.
Qed.

(** ** The [attrs] option of a search ([get_attrs_param]) *)

Section AttrsParam.
Context `{LuaConv} `{LdapLib} `{Indeterminate}.





End AttrsParam.



(** ** The change-set builder *)

Section BuilderFacts.
Context `{LuaConv}.

(** *** The stores, as equations *)

Lemma A_setval_eq top a n :
  A_setval top a n =
    if (LUALDAP_ARRAY_VALUES_SIZE <=? vi a)%nat then Throw too_many_values
    else if (LUALDAP_MAX_VALUES <=? bi a)%nat then Throw too_many_values
    else match lua_tolstring top with
         | Some s => Ok (Ptr (vi a), push_value s a)
         | None => value_error top n
         end.
Proof.
  unfold A_setval, A_setbval.
  destruct (LUALDAP_ARRAY_VALUES_SIZE <=? vi a)%nat; [reflexivity|].
  destruct (LUALDAP_MAX_VALUES <=? bi a)%nat; [reflexivity|].
  destruct (lua_tolstring top); reflexivity.
Qed.

Lemma A_nullval_eq a :
  A_nullval a =
    if (LUALDAP_ARRAY_VALUES_SIZE <=? vi a)%nat then Throw too_many_values
    else Ok (Ptr (vi a), push_null a).
Proof. reflexivity. Qed.

Lemma A_setmod_eq top a op name :
  A_setmod top a op name =
    if (LUALDAP_MAX_ATTRS <=? ai a)%nat then Throw too_many_attributes
    else '(p, a1) ← A_tab2val top a name; Ok (push_mod op name p a1).
Proof.
  unfold A_setmod. destruct (LUALDAP_MAX_ATTRS <=? ai a)%nat; [reflexivity|].
  destruct (A_tab2val top a name) as [[p a1]| |]; reflexivity.
Qed.

Lemma A_lastattr_eq a :
  A_lastattr a =
    if (LUALDAP_MAX_ATTRS <=? ai a)%nat then Throw too_many_attributes
    else Ok {| attrs := <[ai a := NULL]> (attrs a); ai := S (ai a);
               mods := mods a; values := values a; vi := vi a;
               bvals := bvals a; bi := bi a |}.
Proof. reflexivity. Qed.

(** *** The builder never dereferences a missing block *)

Lemma A_setval_no_fault top a n : A_setval top a n <> Fault.
Proof.
  rewrite A_setval_eq.
  destruct (_ <=? vi a)%nat; [done|]. destruct (_ <=? bi a)%nat; [done|].
  destruct (lua_tolstring top); done.
Qed.

Lemma A_tab2val_loop_no_fault tab name count i a :
  A_tab2val_loop tab name count i a <> Fault.
Proof.
  revert i a. induction count as [|count IH]; intros i a; simpl; [done|].
  pose proof (A_setval_no_fault (lua_rawgeti tab (Z.of_nat i)) a name) as Hnf.
  destruct (A_setval _ a name) as [[p a1]| |]; simpl; [apply IH|done|done].
Qed.

Lemma A_tab2val_no_fault tab a name : A_tab2val tab a name <> Fault.
Proof.
  unfold A_tab2val.
  destruct (lua_isboolean tab && lua_toboolean tab); [done|].
  destruct (lua_isstring tab).
  - pose proof (A_setval_no_fault tab a name) as Hnf.
    destruct (A_setval tab a name) as [[p a1]| |]; simpl; [|done|done].
    rewrite A_nullval_eq. destruct (_ <=? vi a1)%nat; done.
  - destruct (lua_istable tab); [|done].
    pose proof (A_tab2val_loop_no_fault tab name (lua_rawlen tab) 1 a) as Hnf.
    destruct (A_tab2val_loop _ _ _ _ a) as [a1| |]; simpl; [|done|done].
    rewrite A_nullval_eq. destruct (_ <=? vi a1)%nat; done.
Qed.

Lemma A_setmod_no_fault top a op name : A_setmod top a op name <> Fault.
Proof.
  rewrite A_setmod_eq. destruct (_ <=? ai a)%nat; [done|].
  pose proof (A_tab2val_no_fault top a name) as Hnf.
  destruct (A_tab2val top a name) as [[p a1]| |]; done.
Qed.

Lemma A_tab2mod_no_fault tab a op : A_tab2mod tab a op <> Fault.
Proof.
  revert a. induction tab as [|[k v] tab IH]; intros a; simpl; [done|].
  destruct (negb (lua_isnumber k) && lua_isstring k); simpl; [|apply IH].
  pose proof (A_setmod_no_fault v a op (default "" (lua_tostring k))) as Hnf.
  destruct (A_setmod v a op _) as [a1| |]; simpl; [apply IH|done|done].
Qed.

Lemma modify_loop_no_fault rest k a : modify_loop rest k a <> Fault.
Proof.
  revert k a. induction rest as [|v rest IH]; intros k a; simpl; [done|].
  destruct v; try done.
  destruct (_ =? LUALDAP_NO_OP)%Z; [done|].
  pose proof (A_tab2mod_no_fault t a (op2code (lua_tostring (rawgeti t 1)))) as Hnf.
  destruct (A_tab2mod t a _) as [a1| |]; simpl; [apply IH|done|done].
Qed.

(** *** Counting the stored modifications *)

Lemma A_setval_ai top a n p a' : A_setval top a n = Ok (p, a') -> ai a' = ai a.
Proof.
  rewrite A_setval_eq.
  destruct (_ <=? vi a)%nat; [done|]. destruct (_ <=? bi a)%nat; [done|].
  destruct (lua_tolstring top); [|done]. by intros [= _ <-].
Qed.

Lemma A_tab2val_loop_ai tab name count i a a' :
  A_tab2val_loop tab name count i a = Ok a' -> ai a' = ai a.
Proof.
  revert i a. induction count as [|count IH]; intros i a; simpl; [by intros [= <-]|].
  destruct (A_setval _ a name) as [[p a1]| |] eqn:E; simpl; [|done|done].
  intros Hloop. apply IH in Hloop. apply A_setval_ai in E. congruence.
Qed.

Lemma A_tab2val_ai tab a name p a' : A_tab2val tab a name = Ok (p, a') -> ai a' = ai a.
Proof.
  unfold A_tab2val.
  destruct (lua_isboolean tab && lua_toboolean tab); [by intros [= _ <-]|].
  destruct (lua_isstring tab).
  - destruct (A_setval tab a name) as [[q a1]| |] eqn:E; simpl; [|done|done].
    rewrite A_nullval_eq. destruct (_ <=? vi a1)%nat; [done|]. simpl.
    intros [= _ <-]. simpl. by apply A_setval_ai in E.
  - destruct (lua_istable tab); [|done].
    destruct (A_tab2val_loop _ _ _ _ a) as [a1| |] eqn:E; simpl; [|done|done].
    rewrite A_nullval_eq. destruct (_ <=? vi a1)%nat; [done|]. simpl.
    intros [= _ <-]. simpl. by apply A_tab2val_loop_ai in E.
Qed.

(** A stored modification takes one slot, and there was room for it. *)
Lemma A_setmod_ai top a op name a' :
  A_setmod top a op name = Ok a' -> (ai a < LUALDAP_MAX_ATTRS)%nat /\ ai a' = S (ai a).
Proof.
  rewrite A_setmod_eq. destruct (Nat.leb_spec LUALDAP_MAX_ATTRS (ai a)); [done|].
  destruct (A_tab2val top a name) as [[p a1]| |] eqn:E; simpl; [|done|done].
  intros [= <-]. simpl. apply A_tab2val_ai in E. split; [done|congruence].
Qed.

(** With no room left, storing a modification raises "too many attributes". *)
Lemma A_setmod_full top a op name :
  (LUALDAP_MAX_ATTRS <= ai a)%nat -> A_setmod top a op name = Throw too_many_attributes.
Proof.
  intros Hfull. rewrite A_setmod_eq.
  by destruct (Nat.leb_spec LUALDAP_MAX_ATTRS (ai a)); [|lia].
Qed.

Lemma A_tab2mod_ai tab a op a' :
  A_tab2mod tab a op = Ok a' ->
  (ai a <= LUALDAP_MAX_ATTRS)%nat ->
  ai a' = (ai a + length (mod_entries tab))%nat /\ (ai a' <= LUALDAP_MAX_ATTRS)%nat.
Proof.
  revert a. induction tab as [|[k v] tab IH]; intros a; simpl.
  - intros [= <-] Hle. split; [lia|done].
  - fold (is_attr_key k). destruct (is_attr_key k) eqn:Ek; simpl.
    + destruct (A_setmod v a op _) as [a1| |] eqn:E; simpl; [|done|done].
      intros Hrest Hle. apply A_setmod_ai in E as [Hroom Ha1].
      destruct (IH a1 Hrest ltac:(lia)) as [Hcount Hmax].
      split; [lia|done].
    + intros Hrest Hle. destruct (IH a Hrest Hle) as [Hcount Hmax].
      split; [lia|done].
Qed.

Lemma A_tab2mod_app t1 t2 a op :
  A_tab2mod (t1 ++ t2) a op = a1 ← A_tab2mod t1 a op; A_tab2mod t2 a1 op.
Proof.
  revert a. induction t1 as [|[k v] t1 IH]; intros a; simpl; [reflexivity|].
  destruct (negb (lua_isnumber k) && lua_isstring k); simpl; [|apply IH].
  destruct (A_setmod v a op _) as [a1| |]; simpl; [apply IH|done|done].
Qed.

End BuilderFacts.

Section Capacity.
Context `{LuaConv} `{LdapLib} `{Indeterminate}.

Lemma leading_tables_fmap gs : leading_tables (LTable <$> gs) = gs.
Proof. induction gs as [|g gs IH]; simpl; [done|]. f_equal. exact IH. Qed.

Lemma modify_loop_ai rest k a a' :
  modify_loop rest k a = Ok a' ->
  (ai a <= LUALDAP_MAX_ATTRS)%nat ->
  ai a' = (ai a + entry_count (leading_tables rest))%nat /\ (ai a' <= LUALDAP_MAX_ATTRS)%nat.
Proof.
  revert k a. induction rest as [|v rest IH]; intros k a; simpl.
  - intros [= <-] Hle. split; [lia|done].
  - destruct v; try (intros [= <-] Hle; simpl; split; [lia|done]).
    destruct (_ =? LUALDAP_NO_OP)%Z; [done|].
    destruct (A_tab2mod t a _) as [a1| |] eqn:E; simpl; [|done|done].
    intros Hrest Hle. destruct (A_tab2mod_ai _ _ _ _ E Hle) as [Hcount Hmax].
    destruct (IH _ _ Hrest Hmax) as [Hcount' Hmax']. split; [lia|done].
Qed.

Lemma lualdap_add_open args reply L p c h dn :
  index2value args 1 = LUserdata LUALDAP_CONNECTION_METATABLE p ->
  conns L !! p = Some c -> ld c = Some h ->
  lua_tolstring (index2value args 2) = Some dn ->
  lualdap_add args reply L =
    submit_after L
      (match index2value args 3 with
       | LTable t => A_tab2mod t (A_init uninitialised) LUALDAP_MOD_ADD
       | _ => Ok (A_init uninitialised)
       end)
      (fun attrs =>
         (create_future (sub_rc reply) (index2value args 1) (sub_msgid reply) LDAP_RES_ADD,
          call (Call_add_ext (ld c) (cstr dn) (read_mods attrs)) L)).
Proof.
  intros Ha Hc Hh Hdn. unfold lualdap_add, submit_after.
  rewrite (getconnection_open L args p c h Ha Hc Hh).
  unfold luaL_checkstring, luaL_checklstring. rewrite Hdn. reflexivity.
Qed.

Lemma lualdap_modify_open args reply L p c h dn :
  index2value args 1 = LUserdata LUALDAP_CONNECTION_METATABLE p ->
  conns L !! p = Some c -> ld c = Some h ->
  lua_tolstring (index2value args 2) = Some dn ->
  lualdap_modify args reply L =
    submit_after L
      (modify_loop (drop 2 args) 3 (A_init uninitialised))
      (fun attrs =>
         (create_future (sub_rc reply) (index2value args 1) (sub_msgid reply) LDAP_RES_MODIFY,
          call (Call_modify_ext (ld c) (cstr dn) (read_mods attrs)) L)).
Proof.
  intros Ha Hc Hh Hdn. unfold lualdap_modify, submit_after.
  rewrite (getconnection_open L args p c h Ha Hc Hh).
  unfold luaL_checkstring, luaL_checklstring. rewrite Hdn. reflexivity.
Qed.

Lemma submit_after_returns L build submit vals L' :
  submit_after L build submit = (Returns vals, L') ->
  exists a, build = Ok a /\ (ai a < LUALDAP_MAX_ATTRS)%nat.
Proof.
  unfold submit_after. destruct build as [a| |]; simpl; [|done|done].
  rewrite A_lastattr_eq. destruct (Nat.leb_spec LUALDAP_MAX_ATTRS (ai a)); [done|].
  intros _. by exists a.
Qed.

Lemma submit_after_throw L build submit e :
  build = Throw e -> submit_after L build submit = (Raises e, L).
Proof. intros ->. reflexivity. Qed.

Lemma ai_A_init a : ai (A_init a) = 0%nat.
Proof. reflexivity. Qed.

(** C1 (amended). On an open connection and with a DN, for [add] with an
    attribute table and for [modify] with its groups:
    - a request is only submitted when the modification entries of all groups
      number at most [LUALDAP_MAX_ATTRS];
    - with more than [LUALDAP_MAX_ATTRS] entries the call raises an error and
      nothing is handed to the library;
    - that error is "too many attributes", raised on the entry that follows
      [LUALDAP_MAX_ATTRS] stored ones, provided these were stored without
      error (an entry whose values do not fit raises earlier, with its own
      error). *)
Theorem C1_changeset_capacity args reply L p c h dn :
  index2value args 1 = LUserdata LUALDAP_CONNECTION_METATABLE p ->
  conns L !! p = Some c -> ld c = Some h ->
  lua_tolstring (index2value args 2) = Some dn ->
  (forall t, index2value args 3 = LTable t ->
     (forall vals L', lualdap_add args reply L = (Returns vals, L') ->
        (length (mod_entries t) <= LUALDAP_MAX_ATTRS)%nat) /\
     ((LUALDAP_MAX_ATTRS < length (mod_entries t))%nat ->
        exists e, lualdap_add args reply L = (Raises e, L)) /\
     (forall t1 k v t2 a1,
        t = t1 ++ (k, v) :: t2 -> is_attr_key k = true ->
        A_tab2mod t1 (A_init uninitialised) LUALDAP_MOD_ADD = Ok a1 ->
        length (mod_entries t1) = LUALDAP_MAX_ATTRS ->
        lualdap_add args reply L = (Raises (Error "LuaLDAP: too many attributes"), L))) /\
  ((forall vals L', lualdap_modify args reply L = (Returns vals, L') ->
      (entry_count (leading_tables (drop 2 args)) <= LUALDAP_MAX_ATTRS)%nat) /\
   ((LUALDAP_MAX_ATTRS < entry_count (leading_tables (drop 2 args)))%nat ->
      exists e, lualdap_modify args reply L = (Raises e, L)) /\
   (forall pre t1 k v t2 post a1 a2,
      drop 2 args = (LTable <$> pre) ++ LTable (t1 ++ (k, v) :: t2) :: post ->
      is_attr_key k = true ->
      modify_loop (LTable <$> pre) 3 (A_init uninitialised) = Ok a1 ->
      op2code (lua_tostring (rawgeti (t1 ++ (k, v) :: t2) 1)) <> LUALDAP_NO_OP ->
      A_tab2mod t1 a1 (op2code (lua_tostring (rawgeti (t1 ++ (k, v) :: t2) 1))) = Ok a2 ->
      (entry_count pre + length (mod_entries t1))%nat = LUALDAP_MAX_ATTRS ->
      lualdap_modify args reply L = (Raises (Error "LuaLDAP: too many attributes"), L))).
Proof.
  intros Ha Hc Hh Hdn.
  assert (Hinit : (ai (A_init uninitialised) <= LUALDAP_MAX_ATTRS)%nat)
    by (rewrite ai_A_init; lia).
  split.
  - intros t Ht. rewrite (lualdap_add_open args reply L p c h dn Ha Hc Hh Hdn), Ht.
    repeat split.
    + intros vals L' Hret. apply submit_after_returns in Hret as (a & Hbuild & _).
      destruct (A_tab2mod_ai _ _ _ _ Hbuild Hinit) as [Hcount Hmax].
      rewrite ai_A_init in Hcount. lia.
    + intros Hmany.
      destruct (A_tab2mod t (A_init uninitialised) LUALDAP_MOD_ADD) as [a|e|] eqn:E.
      * destruct (A_tab2mod_ai _ _ _ _ E Hinit) as [Hcount Hmax].
        rewrite ai_A_init in Hcount. lia.
      * exists e. reflexivity.
      * by apply A_tab2mod_no_fault in E.
    + intros t1 k v t2 a1 -> Hk Ht1 Hfull.
      apply submit_after_throw. rewrite A_tab2mod_app, Ht1. cbn [mbind except_bind A_tab2mod].
      fold (is_attr_key k). rewrite Hk.
      destruct (A_tab2mod_ai _ _ _ _ Ht1 Hinit) as [Hcount _]. rewrite ai_A_init in Hcount.
      rewrite A_setmod_full by lia. reflexivity.
  - rewrite (lualdap_modify_open args reply L p c h dn Ha Hc Hh Hdn).
    repeat split.
    + intros vals L' Hret. apply submit_after_returns in Hret as (a & Hbuild & _).
      destruct (modify_loop_ai _ _ _ _ Hbuild Hinit) as [Hcount Hmax].
      rewrite ai_A_init in Hcount. lia.
    + intros Hmany.
      destruct (modify_loop (drop 2 args) 3 (A_init uninitialised)) as [a|e|] eqn:E.
      * destruct (modify_loop_ai _ _ _ _ E Hinit) as [Hcount Hmax].
        rewrite ai_A_init in Hcount. lia.
      * exists e. reflexivity.
      * by apply modify_loop_no_fault in E.
    + intros pre t1 k v t2 post a1 a2 Hargs Hk Hpre Hop Ht1 Hfull.
      apply submit_after_throw. rewrite Hargs, modify_loop_app, Hpre.
      2:{ apply Forall_fmap, Forall_forall. done. }
      cbn [mbind except_bind modify_loop].
      destruct (Z.eqb_spec (op2code (lua_tostring (rawgeti (t1 ++ (k, v) :: t2) 1)))
                  LUALDAP_NO_OP) as [?|_]; [done|].
      rewrite A_tab2mod_app, Ht1. cbn [mbind except_bind A_tab2mod].
      fold (is_attr_key k). rewrite Hk.
      destruct (modify_loop_ai _ _ _ _ Hpre Hinit) as [Hc1 Hm1].
      rewrite ai_A_init, leading_tables_fmap in Hc1.
      destruct (A_tab2mod_ai _ _ _ _ Ht1 Hm1) as [Hc2 _].
      rewrite A_setmod_full by lia. reflexivity.
Qed.

End Capacity.

Lemma C1_changeset_capacity_witness :
  exists e,
    @lualdap_add Sample.conv Sample.lib Sample.stack
      [Sample.conn_ud; LString "cn=test,dc=example";
       LTable (Capacity_examples.attributes 101 (LBoolean true))]
      Sample.accepted Sample.open_state
    = (Raises e, Sample.open_state).
Proof.
  refine (proj1 (proj2 (proj1 (@C1_changeset_capacity Sample.conv Sample.lib Sample.stack
      [Sample.conn_ud; LString "cn=test,dc=example";
       LTable (Capacity_examples.attributes 101 (LBoolean true))]
      Sample.accepted Sample.open_state 0%nat {| version := 3; ld := Some 7%nat |} 7%nat
      "cn=test,dc=example" eq_refl eq_refl eq_refl eq_refl)
      (Capacity_examples.attributes 101 (LBoolean true)) eq_refl)) _).
  vm_compute. lia.
Defined.

(** Counterexample to C1 as stated: with 101 attributes of two values each
    the error raised is "too many values". *)
Lemma C1_too_many_values_counterexample :
  length (@mod_entries Sample.conv
            (Capacity_examples.attributes 101 Capacity_examples.two_values))
    = (LUALDAP_MAX_ATTRS + 1)%nat /\
  @lualdap_add Sample.conv Sample.lib Sample.stack
    [Sample.conn_ud; LString "cn=test,dc=example";
     LTable (Capacity_examples.attributes 101 Capacity_examples.two_values)]
    Sample.accepted Sample.open_state
  = (Raises (Error "LuaLDAP: too many values"), Sample.open_state) /\
  fst (@lualdap_add Sample.conv Sample.lib Sample.stack
    [Sample.conn_ud; LString "cn=test,dc=example";
     LTable (Capacity_examples.attributes 101 Capacity_examples.two_values)]
    Sample.accepted Sample.open_state)
  <> Raises (Error "LuaLDAP: too many attributes").
Proof.
  split; [vm_compute; reflexivity|].
  split; [vm_compute; reflexivity|].
  vm_compute. discriminate.
Qed.

(** ** Encoding attribute maps *)

Section Encoding.
Context `{LuaConv}.

Lemma vi_push_all ss a : vi (push_all ss a) = (vi a + length ss)%nat.
Proof.
  revert a. induction ss as [|s ss IH]; intros a; simpl; [lia|].
  rewrite IH. simpl. lia.
Qed.

Lemma bi_push_all ss a : bi (push_all ss a) = (bi a + length ss)%nat.
Proof.
  revert a. induction ss as [|s ss IH]; intros a; simpl; [lia|].
  rewrite IH. simpl. lia.
Qed.

Lemma ai_push_all ss a : ai (push_all ss a) = ai a.
Proof.
  revert a. induction ss as [|s ss IH]; intros a; simpl; [done|].
  by rewrite IH.
Qed.

Lemma A_tab2val_loop_strings tab name (ss : list string) i a :
  (forall j s, ss !! j = Some s ->
     lua_tolstring (lua_rawgeti tab (Z.of_nat (i + j))) = Some s) ->
  (vi a + length ss <= LUALDAP_ARRAY_VALUES_SIZE)%nat ->
  (bi a + length ss <= LUALDAP_MAX_VALUES)%nat ->
  A_tab2val_loop tab name (length ss) i a = Ok (push_all ss a).
Proof.
  revert i a. induction ss as [|s ss IH]; intros i a Hss Hv Hb; simpl; [done|].
  simpl in Hv, Hb. rewrite A_setval_eq.
  destruct (Nat.leb_spec LUALDAP_ARRAY_VALUES_SIZE (vi a)); [lia|].
  destruct (Nat.leb_spec LUALDAP_MAX_VALUES (bi a)); [lia|].
  pose proof (Hss 0%nat s eq_refl) as Hfirst. rewrite Nat.add_0_r in Hfirst.
  rewrite Hfirst. cbn [mbind except_bind].
  apply IH; simpl; [|lia..].
  intros j s' Hj. rewrite <- (Hss (S j) s' Hj). do 3 f_equal. lia.
Qed.

(** Storing the value of one attribute of the data model. *)
Lemma A_tab2val_value (v : AttributeValue) a name :
  (vi a + length (values_of v) < LUALDAP_ARRAY_VALUES_SIZE)%nat ->
  (bi a + length (values_of v) <= LUALDAP_MAX_VALUES)%nat ->
  A_tab2val (lua_of_value v) a name =
    match v with
    | Absent => Ok (NULL, a)
    | _ => Ok (Ptr (vi a), push_null (push_all (values_of v) a))
    end.
Proof.
  intros Hv Hb. destruct v as [|s|ss]; simpl in *.
  - reflexivity.
  - unfold A_tab2val. cbn [lua_of_value lua_isboolean lua_toboolean andb lua_isstring].
    rewrite A_setval_eq.
    destruct (Nat.leb_spec LUALDAP_ARRAY_VALUES_SIZE (vi a)); [lia|].
    destruct (Nat.leb_spec LUALDAP_MAX_VALUES (bi a)); [lia|].
    cbn [lua_tolstring mbind except_bind]. rewrite A_nullval_eq.
    destruct (Nat.leb_spec LUALDAP_ARRAY_VALUES_SIZE (vi (push_value s a))); [simpl in *; lia|].
    reflexivity.
  - unfold A_tab2val. cbn [lua_isboolean lua_toboolean andb lua_isstring lua_istable].
    rewrite lua_rawlen_seq_table by (apply Forall_fmap, Forall_forall; done).
    rewrite length_fmap.
    rewrite (A_tab2val_loop_strings _ name ss 1 a); [|..|lia|lia].
    + cbn [mbind except_bind]. rewrite A_nullval_eq, vi_push_all.
      destruct (Nat.leb_spec LUALDAP_ARRAY_VALUES_SIZE (vi a + length ss)); [lia|].
      reflexivity.
    + intros j s Hj. cbn [lua_rawgeti].
      replace (Z.of_nat (1 + j)) with (Z.of_nat (S j)) by lia.
      rewrite rawgeti_seq_table, list_lookup_fmap, Hj. reflexivity.
Qed.

Lemma capacities :
  LUALDAP_MAX_ATTRS = 100%nat /\ LUALDAP_ARRAY_VALUES_SIZE = 200%nat /\
  LUALDAP_MAX_VALUES = 100%nat.
Proof. repeat split. Qed.

Lemma store_one_counters op kv a :
  ai (store_one op kv a) = S (ai a) /\
  bi (store_one op kv a) = (bi a + length (values_of kv.2))%nat /\
  (vi (store_one op kv a) <= vi a + length (values_of kv.2) + 1)%nat.
Proof.
  unfold store_one. destruct kv as [k [|s|ss]]; simpl.
  - repeat split; lia.
  - repeat split; lia.
  - rewrite ai_push_all, bi_push_all, vi_push_all. repeat split; lia.
Qed.

(** The builder stores an attribute map entry by entry, as long as there is
    room for the attributes and for their values. *)
Lemma A_tab2mod_map op (m : attribute_map) a :
  Forall plain_name m.*1 ->
  (vi a <= bi a + ai a)%nat ->
  (ai a + length m <= LUALDAP_MAX_ATTRS)%nat ->
  (bi a + value_count m <= LUALDAP_MAX_VALUES)%nat ->
  A_tab2mod (lua_of_map m) a op = Ok (store_all op m a).
Proof.
  destruct capacities as (Ca & Cv & Cb).
  revert a. induction m as [|[k v] m IH]; intros a Hnames Hvi Hai Hbi; [reflexivity|].
  apply Forall_cons in Hnames as [[Hnum Hcstr] Hnames]. simpl in Hnum, Hcstr.
  cbn [lua_of_map fmap list_fmap A_tab2mod fst snd].
  cbn [length value_count foldr snd] in Hai, Hbi. fold (value_count m) in Hbi.
  cbn [lua_isnumber lua_isstring lua_tostring lua_tolstring fmap option_fmap option_map].
  rewrite Hnum, Hcstr.
  rewrite bool_decide_eq_false_2 by (intros [? [=]]).
  cbn [negb andb default]. rewrite A_setmod_eq.
  destruct (Nat.leb_spec LUALDAP_MAX_ATTRS (ai a)); [lia|].
  rewrite A_tab2val_value by lia.
  destruct (store_one_counters op (k, v) a) as (Ha1 & Hb1 & Hv1). cbn [snd] in Hb1, Hv1.
  destruct v as [|s|ss]; cbn [mbind except_bind].
  - exact (IH (store_one op (k, Absent) a) Hnames ltac:(lia) ltac:(lia) ltac:(lia)).
  - exact (IH (store_one op (k, Single s) a) Hnames ltac:(lia) ltac:(lia) ltac:(lia)).
  - exact (IH (store_one op (k, Multi ss) a) Hnames ltac:(lia) ltac:(lia) ltac:(lia)).
Qed.

End Encoding.

(** ** What the library reads from a built structure *)

Section Reading.

Lemma extends_refl a : extends a a.
Proof. by constructor. Qed.

Lemma extends_trans a b c : extends a b -> extends b c -> extends a c.
Proof.
  intros [] []. constructor; try lia.
  - intros j Hj. rewrite ext_values1 by lia. auto.
  - intros j Hj. rewrite ext_bvals1 by lia. auto.
  - intros j Hj. rewrite ext_mods1 by lia. auto.
  - intros j Hj. rewrite ext_attrs1 by lia. auto.
Qed.

Lemma extends_push_value s a : extends a (push_value s a).
Proof.
  constructor; simpl; try lia; try done.
  - intros j Hj. apply list_lookup_insert_ne. lia.
  - intros j Hj. apply list_lookup_insert_ne. lia.
Qed.

Lemma extends_push_null a : extends a (push_null a).
Proof.
  constructor; simpl; try lia; try done.
  intros j Hj. apply list_lookup_insert_ne. lia.
Qed.

Lemma extends_push_mod op name p a : extends a (push_mod op name p a).
Proof.
  constructor; simpl; try lia; try done.
  - intros j Hj. apply list_lookup_insert_ne. lia.
  - intros j Hj. apply list_lookup_insert_ne. lia.
Qed.

Lemma lengths_push_value s a : lengths_ok a -> lengths_ok (push_value s a).
Proof. intros []. constructor; simpl; by rewrite ?length_insert. Qed.

Lemma lengths_push_null a : lengths_ok a -> lengths_ok (push_null a).
Proof. intros []. constructor; simpl; by rewrite ?length_insert. Qed.

Lemma lengths_push_mod op name p a : lengths_ok a -> lengths_ok (push_mod op name p a).
Proof. intros []. constructor; simpl; by rewrite ?length_insert. Qed.

Lemma extends_push_all ss a : extends a (push_all ss a).
Proof.
  revert a. induction ss as [|s ss IH]; intros a; simpl; [apply extends_refl|].
  eapply extends_trans; [apply extends_push_value | apply IH].
Qed.

Lemma lengths_push_all ss a : lengths_ok a -> lengths_ok (push_all ss a).
Proof.
  revert a. induction ss as [|s ss IH]; intros a Hl; simpl; [done|].
  by apply IH, lengths_push_value.
Qed.

(** After [push_all], the slots from [vi a] on point to the values stored
    from [bi a] on. *)
Lemma lookup_push_all ss a j s :
  lengths_ok a ->
  (vi a + length ss <= LUALDAP_ARRAY_VALUES_SIZE)%nat ->
  (bi a + length ss <= LUALDAP_MAX_VALUES)%nat ->
  ss !! j = Some s ->
  values (push_all ss a) !! (vi a + j)%nat = Some (Ptr (bi a + j)) /\
  bvals (push_all ss a) !! (bi a + j)%nat = Some (berval s).
Proof.
  revert a j. induction ss as [|s0 ss IH]; intros a j Hl Hv Hb Hj; [done|].
  simpl in Hv, Hb. destruct j as [|j]; simpl in Hj.
  - injection Hj as ->. rewrite !Nat.add_0_r. simpl.
    pose proof (extends_push_all ss (push_value s a)) as [].
    rewrite ext_values0, ext_bvals0 by (simpl; lia). simpl.
    destruct Hl. split; apply list_lookup_insert_eq; lia.
  - simpl.
    destruct (IH (push_value s0 a) j (lengths_push_value _ _ Hl)
                ltac:(simpl; lia) ltac:(simpl; lia) Hj) as [Hval Hbv].
    simpl in Hval, Hbv.
    replace (vi a + S j)%nat with (S (vi a + j)) by lia.
    replace (bi a + S j)%nat with (S (bi a + j)) by lia. done.
Qed.

Lemma values_at_extends a a' k bs : extends a a' -> values_at a k bs -> values_at a' k bs.
Proof.
  intros [] (Hbs & Hnull & Hlt). split; [|split].
  - intros j b Hj. destruct (Hbs j b Hj) as (q & Hq & Hv & Hb).
    apply lookup_lt_Some in Hj.
    exists q. rewrite ext_values0, ext_bvals0 by lia. split; [lia|done].
  - by rewrite ext_values0 by lia.
  - lia.
Qed.

Lemma read_values_at a k bs fuel :
  values_at a k bs -> (length bs < fuel)%nat -> read_values a fuel k = Some bs.
Proof.
  revert k fuel. induction bs as [|b bs IH]; intros k fuel (Hbs & Hnull & Hlt) Hfuel;
    (destruct fuel as [|fuel]; [simpl in Hfuel; lia|]); simpl.
  - simpl in Hnull. rewrite Nat.add_0_r in Hnull. by rewrite Hnull.
  - destruct (Hbs 0%nat b eq_refl) as (q & Hq & Hv & Hb).
    rewrite Nat.add_0_r in Hv. rewrite Hv. simpl. rewrite Hb. simpl.
    rewrite (IH (S k) fuel); [done| |simpl in Hfuel; lia].
    split; [|split].
    + intros j b' Hj. destruct (Hbs (S j) b' Hj) as (q' & Hq' & Hv' & Hb').
      exists q'. by replace (S k + j)%nat with (k + S j)%nat by lia.
    + simpl in Hnull. by replace (S k + length bs)%nat with (k + S (length bs))%nat by lia.
    + simpl in Hlt. lia.
Qed.

Lemma mod_at_extends a a' i e : extends a a' -> mod_at a i e -> mod_at a' i e.
Proof.
  intros Hext (Hi & Hattr & m & Hm & Hop & Hty & Hvals).
  pose proof Hext as [].
  split; [lia|]. split; [by rewrite ext_attrs0|].
  exists m. rewrite ext_mods0 by done. repeat split; try done.
  destruct (mod_bvalues m), (e.2); try done. by eapply values_at_extends.
Qed.

Lemma read_mod_at a i e :
  lengths_ok a -> (vi a <= LUALDAP_ARRAY_VALUES_SIZE)%nat ->
  mod_at a i e ->
  exists m, mods a !! i = Some m /\ read_mod a m = Some e.
Proof.
  intros Hl Hvi (Hi & Hattr & m & Hm & Hop & Hty & Hvals).
  exists m. split; [done|]. unfold read_mod.
  destruct e as [[op ty] vals]. cbn [fst snd] in *. subst.
  destruct (mod_bvalues m) as [|k|], vals as [bs|]; try done.
  rewrite (read_values_at a k bs); [done|done|].
  destruct Hvals as (_ & _ & Hlt). destruct Hl. lia.
Qed.

Lemma read_attrs_stored a es fuel i :
  lengths_ok a -> (vi a <= LUALDAP_ARRAY_VALUES_SIZE)%nat ->
  (forall j e, es !! j = Some e -> mod_at a j e) ->
  attrs a !! length es = Some NULL ->
  (i <= length es)%nat -> (length es - i < fuel)%nat ->
  read_attrs a fuel i = Some (drop i es).
Proof.
  intros Hl Hvi Hes Hnull. revert i. induction fuel as [|fuel IH]; intros i Hi Hfuel; [lia|].
  simpl. destruct (es !! i) as [e|] eqn:E.
  - destruct (Hes i e E) as (_ & Hattr & _). rewrite Hattr.
    destruct (read_mod_at a i e Hl Hvi (Hes i e E)) as (m & Hm & Hread).
    rewrite Hm. simpl. rewrite Hread. simpl.
    apply lookup_lt_Some in E as Hlt.
    rewrite IH by lia. simpl. by rewrite (drop_S _ _ _ E).
  - apply lookup_ge_None in E. replace i with (length es) by lia.
    rewrite Hnull. by rewrite drop_all.
Qed.

End Reading.

(** ** Round trip between the builder and the entry decoder *)

Section RoundTrip.
Context `{LuaConv} `{Indeterminate}.

Lemma stored_push_mod op name p vals a a1 es :
  lengths_ok a1 -> stored a es -> extends a a1 -> ai a1 = ai a ->
  (ai a1 < LUALDAP_MAX_ATTRS)%nat ->
  match p, vals with
  | NULL, None => True
  | Ptr k, Some bs => values_at a1 k bs
  | _, _ => False
  end ->
  stored (push_mod op name p a1) (es ++ [(op, name, vals)]).
Proof.
  intros Hl [Hlen Hes] Hext Hai Hroom Hp. split.
  - rewrite length_app. simpl. lia.
  - intros i e Hi.
    destruct (decide (i < length es)%nat) as [Hlt|Hge].
    + rewrite lookup_app_l in Hi by done.
      eapply mod_at_extends; [|by apply Hes].
      eapply extends_trans; [exact Hext | apply extends_push_mod].
    + assert (i = length es) as ->.
      { apply lookup_lt_Some in Hi. rewrite length_app in Hi. simpl in Hi. lia. }
      rewrite list_lookup_middle in Hi by done. injection Hi as <-.
      rewrite Hlen, <- Hai. destruct Hl.
      split; [simpl; lia|]. split.
      { simpl. apply list_lookup_insert_eq. lia. }
      eexists. split; [simpl; apply list_lookup_insert_eq; lia|].
      cbn [mod_op mod_type mod_bvalues fst snd]. split; [done|]. split; [done|].
      destruct p as [|k|], vals as [bs|]; done.
Qed.

Lemma store_one_stored op kv a es :
  lengths_ok a -> stored a es ->
  (ai a < LUALDAP_MAX_ATTRS)%nat ->
  (vi a + length (values_of kv.2) < LUALDAP_ARRAY_VALUES_SIZE)%nat ->
  (bi a + length (values_of kv.2) <= LUALDAP_MAX_VALUES)%nat ->
  stored (store_one op kv a) (es ++ [(op, kv.1, encoded_values kv.2)]) /\
  lengths_ok (store_one op kv a).
Proof.
  intros Hl Hst Hai Hvi Hbi. destruct kv as [k v]. cbn [fst snd] in *.
  assert (Hgen : forall vs, values_of v = vs -> v <> Absent ->
            stored (push_mod op k (Ptr (vi a)) (push_null (push_all vs a)))
                   (es ++ [(op, k, Some (berval <$> vs))]) /\
            lengths_ok (push_mod op k (Ptr (vi a)) (push_null (push_all vs a)))).
  { intros vs Hvs _. rewrite Hvs in Hvi, Hbi.
    pose proof (lengths_push_null _ (lengths_push_all vs a Hl)) as Hl1.
    split; [|by apply lengths_push_mod].
    apply (stored_push_mod op k _ _ a); try done.
    - eapply extends_trans; [apply extends_push_all | apply extends_push_null].
    - simpl. apply ai_push_all.
    - simpl. by rewrite ai_push_all.
    - split; [|split].
      + intros j b Hj. rewrite list_lookup_fmap in Hj.
        destruct (vs !! j) as [s|] eqn:E; [|done]. injection Hj as <-.
        apply lookup_lt_Some in E as Hlt.
        destruct (lookup_push_all vs a j s Hl ltac:(lia) ltac:(lia) E) as [Hval Hbv].
        exists (bi a + j)%nat. simpl. rewrite bi_push_all, vi_push_all.
        split; [lia|]. split; [|done].
        rewrite list_lookup_insert_ne by lia. done.
      + simpl. rewrite length_fmap, vi_push_all.
        apply list_lookup_insert_eq.
        destruct (lengths_push_all vs a Hl). lia.
      + simpl. rewrite length_fmap, vi_push_all. lia. }
  destruct v as [|s|ss].
  - unfold store_one. cbn [snd fst encoded_values].
    split; [|by apply lengths_push_mod].
    apply (stored_push_mod op k NULL None a); done || apply extends_refl.
  - apply (Hgen [s]); done.
  - apply (Hgen ss); done.
Qed.

Lemma store_all_stored op m a es :
  lengths_ok a -> stored a es ->
  (vi a <= bi a + ai a)%nat ->
  (ai a + length m <= LUALDAP_MAX_ATTRS)%nat ->
  (bi a + value_count m <= LUALDAP_MAX_VALUES)%nat ->
  stored (store_all op m a) (es ++ encoded op m) /\
  lengths_ok (store_all op m a) /\
  (vi (store_all op m a) <= bi (store_all op m a) + ai (store_all op m a))%nat /\
  (bi (store_all op m a) <= LUALDAP_MAX_VALUES)%nat.
Proof.
  destruct capacities as (Ca & Cv & Cb).
  revert a es. induction m as [|kv m IH]; intros a es Hl Hst Hvi Hai Hbi.
  - cbn [value_count foldr length] in Hai, Hbi. cbn [store_all encoded fmap list_fmap].
    rewrite app_nil_r. split; [done|]. split; [done|]. split; lia.
  - cbn [length value_count foldr] in Hai, Hbi. fold (value_count m) in Hbi.
    destruct (store_one_stored op kv a es Hl Hst ltac:(lia) ltac:(lia) ltac:(lia))
      as [Hst1 Hl1].
    destruct (store_one_counters op kv a) as (Ha1 & Hb1 & Hv1).
    destruct (IH (store_one op kv a) _ Hl1 Hst1 ltac:(lia) ltac:(lia) ltac:(lia))
      as (Hst2 & Hl2 & Hv2 & Hb2).
    cbn [store_all encoded fmap list_fmap].
    rewrite <- app_assoc in Hst2. done.
Qed.

Lemma lengths_A_init : lengths_ok (A_init uninitialised).
Proof. constructor; reflexivity. Qed.

(** With room for the attributes and their values, the builder stores the
    whole map and the library reads it back entry by entry. *)
Lemma read_mods_map op (m : attribute_map) :
  Forall plain_name m.*1 ->
  (length m < LUALDAP_MAX_ATTRS)%nat ->
  (value_count m <= LUALDAP_MAX_VALUES)%nat ->
  exists a,
    (a0 ← A_tab2mod (lua_of_map m) (A_init uninitialised) op; A_lastattr a0) = Ok a /\
    read_mods a = Some (encoded op m).
Proof.
  destruct capacities as (Ca & Cv & Cb).
  intros Hnames Hlen Hvals.
  rewrite A_tab2mod_map by (simpl; (done || lia)).
  cbn [mbind except_bind]. rewrite A_lastattr_eq.
  destruct (store_all_stored op m (A_init uninitialised) [] lengths_A_init)
    as ([Hn Hst] & Hl & Hv & Hb); try (simpl; lia).
  { split; [done|]. intros i e [=]. }
  change ([] ++ encoded op m) with (encoded op m) in Hn, Hst.
  unfold encoded in Hn. rewrite length_fmap in Hn.
  destruct (Nat.leb_spec LUALDAP_MAX_ATTRS (ai (store_all op m (A_init uninitialised))));
    [lia|].
  eexists. split; [reflexivity|].
  set (a1 := store_all op m (A_init uninitialised)) in *.
  set (a2 := {| attrs := <[ai a1 := NULL]> (attrs a1); ai := S (ai a1); mods := mods a1;
                values := values a1; vi := vi a1; bvals := bvals a1; bi := bi a1 |}).
  assert (Hext : extends a1 a2).
  { constructor; simpl; try lia; try done.
    intros j Hj. apply list_lookup_insert_ne. lia. }
  assert (Hl2 : lengths_ok a2).
  { destruct Hl. constructor; simpl; by rewrite ?length_insert. }
  unfold read_mods.
  rewrite (read_attrs_stored a2 (encoded op m)); [by rewrite drop_0|done| | | |lia|].
  - cbn [vi a2]. lia.
  - intros j e Hj. eapply mod_at_extends; [exact Hext | by apply Hst].
  - unfold encoded. rewrite length_fmap, Hn. cbn [attrs].
    apply list_lookup_insert_eq. destruct Hl. lia.
  - unfold encoded. rewrite length_fmap. destruct Hl2. lia.
Qed.

End RoundTrip.

Section Decoding.
Context `{LuaConv} `{Indeterminate}.

Lemma substring_full s : String.substring 0 (String.length s) s = s.
Proof. induction s as [|c s IH]; simpl; [done|]. by rewrite IH. Qed.

Lemma lua_pushlstring_berval s : lua_pushlstring (berval s) = LString s.
Proof. unfold lua_pushlstring. simpl. by rewrite substring_full. Qed.

Lemma rawseti_seq_table_from i l v :
  rawseti (seq_table_from i l) (i + Z.of_nat (length l)) v = seq_table_from i (l ++ [v]).
Proof.
  revert i. induction l as [|x l IH]; intros i; cbn [seq_table_from rawseti length app].
  - by rewrite Z.add_0_r.
  - destruct (Z.eqb_spec i (i + Z.of_nat (S (length l)))); [lia|].
    f_equal. rewrite <- IH. f_equal. lia.
Qed.

Lemma push_values_loop_seq (ss done_ : list string) :
  push_values_loop (berval <$> ss) (Z.of_nat (length done_)) (seq_table (LString <$> done_))
  = seq_table (LString <$> (done_ ++ ss)).
Proof.
  revert done_. induction ss as [|s ss IH]; intros done_.
  - by rewrite app_nil_r.
  - cbn [fmap list_fmap push_values_loop]. rewrite lua_pushlstring_berval.
    replace (Z.of_nat (length done_) + 1)%Z
      with (1 + Z.of_nat (length (LString <$> done_)))%Z by (rewrite length_fmap; lia).
    unfold seq_table at 1. rewrite rawseti_seq_table_from.
    replace (1 + Z.of_nat (length (LString <$> done_)))%Z
      with (Z.of_nat (length (done_ ++ [s]))) by (rewrite length_fmap, length_app; simpl; lia).
    replace (seq_table_from 1 ((LString <$> done_) ++ [LString s]))
      with (seq_table (LString <$> (done_ ++ [s]))) by (by rewrite fmap_app).
    change (list_fmap string BerValue berval ss) with (berval <$> ss).
    rewrite IH. by rewrite <- app_assoc.
Qed.

(** The decoder's value for an attribute holding the values [vs]. *)
Lemma push_values_shape dn es name (v : AttributeValue) :
  ldap_get_values_len (lm_attrs (entry_of_mods dn es)) name = berval <$> values_of v ->
  push_values (entry_of_mods dn es) name = lua_of_value (decoded_shape v).
Proof.
  intros Hvals. unfold push_values, decoded_shape. rewrite Hvals.
  destruct (values_of v) as [|s1 [|s2 ss]]; cbn [fmap list_fmap lua_of_value].
  - reflexivity.
  - apply lua_pushlstring_berval.
  - f_equal. apply (push_values_loop_seq (s1 :: s2 :: ss) []).
Qed.

Lemma ldap_get_values_len_encoded op (m : attribute_map) k v :
  NoDup (lowercase <$> m.*1) -> (k, v) ∈ m ->
  ldap_get_values_len ((fun e : mod_entry => (e.1.2, default [] e.2)) <$> encoded op m) k
  = berval <$> values_of v.
Proof.
  induction m as [|[k0 v0] m IH]; intros Hnd Hin; [by apply elem_of_nil in Hin|].
  cbn [fmap list_fmap encoded ldap_get_values_len fst snd] in Hnd |- *.
  apply NoDup_cons in Hnd as [Hk0 Hnd]. apply elem_of_cons in Hin as [[= -> ->]|Hin].
  - unfold strcasecmp_eq. rewrite String.eqb_refl. by destruct v0.
  - unfold strcasecmp_eq. destruct (String.eqb_spec (lowercase k) (lowercase k0)) as [Heq|_].
    + exfalso. apply Hk0. rewrite <- Heq. apply list_elem_of_fmap. exists k.
      split; [done|]. apply list_elem_of_fmap. by exists (k, v).
    + by apply IH.
Qed.

Lemma rawset_str_fresh (m : attribute_map) k v :
  k ∉ m.*1 -> rawset_str (lua_of_map m) k v = lua_of_map m ++ [(LString k, v)].
Proof.
  induction m as [|[k0 v0] m IH]; intros Hk; [reflexivity|].
  cbn [lua_of_map fmap list_fmap rawset_str fst snd].
  apply not_elem_of_cons in Hk as [Hne Hk].
  destruct (String.eqb_spec k0 k) as [->|_]; [done|].
  cbn [app]. f_equal. by apply IH.
Qed.

Lemma set_attribs_loop_map entry (m1 m2 : attribute_map) :
  NoDup (m1 ++ m2).*1 ->
  (forall k v, (k, v) ∈ m2 -> push_values entry k = lua_of_value (decoded_shape v)) ->
  set_attribs_loop entry m2.*1 (lua_of_map (decoded_map m1))
  = lua_of_map (decoded_map (m1 ++ m2)).
Proof.
  revert m1. induction m2 as [|[k v] m2 IH]; intros m1 Hnd Hpush.
  - by rewrite app_nil_r.
  - cbn [fmap list_fmap set_attribs_loop fst].
    rewrite rawset_str_fresh.
    + rewrite (Hpush k v) by (apply elem_of_cons; by left).
      replace (lua_of_map (decoded_map m1) ++ [(LString k, lua_of_value (decoded_shape v))])
        with (lua_of_map (decoded_map (m1 ++ [(k, v)])))
        by (unfold lua_of_map, decoded_map; by rewrite !fmap_app).
      change (list_fmap (string * AttributeValue)%type string fst m2) with (m2.*1).
      rewrite IH.
      * by rewrite <- app_assoc.
      * by rewrite <- app_assoc.
      * intros k' v' Hin. apply Hpush. apply elem_of_cons. by right.
    + rewrite fmap_app in Hnd. apply NoDup_app in Hnd as (_ & Hdisj & _).
      intros Hin. unfold decoded_map in Hin. rewrite <- list_fmap_compose in Hin.
      apply (Hdisj k); [exact Hin|]. apply elem_of_cons. by left.
Qed.

(** Decoding the entry equivalent to the change set of [m]. *)
Lemma set_attribs_encoded dn op (m : attribute_map) :
  NoDup (lowercase <$> m.*1) ->
  set_attribs (entry_of_mods dn (encoded op m)) [] = lua_of_map (decoded_map m).
Proof.
  intros Hcase. pose proof (NoDup_fmap_1 _ _ Hcase) as Hnd. unfold set_attribs.
  assert (Hnames : (entry_of_mods dn (encoded op m)).(lm_attrs).*1 = m.*1).
  { cbn [lm_attrs entry_of_mods]. unfold encoded.
    rewrite <- !list_fmap_compose. by apply list_fmap_ext. }
  rewrite Hnames.
  apply (set_attribs_loop_map _ [] m); [done|].
  intros k v Hin. apply push_values_shape.
  by apply ldap_get_values_len_encoded.
Qed.

(** A sequence of two values or more keeps its shape; so do a lone value
    and the absence of value. *)
Lemma decoded_shape_id v :
  (forall ss, v = Multi ss -> (2 <= length ss)%nat) -> decoded_shape v = v.
Proof.
  intros Hmulti. destruct v as [|s|ss]; try reflexivity.
  specialize (Hmulti ss eq_refl). unfold decoded_shape. simpl.
  destruct ss as [|s1 [|s2 ss]]; simpl in Hmulti; try lia. reflexivity.
Qed.

Lemma decoded_map_id (m : attribute_map) :
  (forall k ss, (k, Multi ss) ∈ m -> (2 <= length ss)%nat) -> decoded_map m = m.
Proof.
  induction m as [|[k v] m IH]; intros Hmulti; [reflexivity|].
  cbn [decoded_map fmap list_fmap fst snd]. f_equal.
  - f_equal. apply decoded_shape_id. intros ss ->. apply (Hmulti k). apply elem_of_cons. by left.
  - apply IH. intros k' ss Hin. apply (Hmulti k'). apply elem_of_cons. by right.
Qed.

(** C3 (amended). For an attribute map with plain names that differ in more
    than the case of letters, that fits the capacities (fewer than
    [LUALDAP_MAX_ATTRS] attributes, at most [LUALDAP_MAX_VALUES] values),
    building its change set and decoding the equivalent entry yields the map
    in which every attribute has the shape of its number of values: [true]
    for none, the string for one, the ordered sequence for two or more. The
    result is the map itself when every sequence in it has at least two
    values. *)
Theorem C3_round_trip (m : attribute_map) :
  NoDup (lowercase <$> m.*1) ->
  Forall plain_name m.*1 ->
  (length m < LUALDAP_MAX_ATTRS)%nat ->
  (value_count m <= LUALDAP_MAX_VALUES)%nat ->
  round_trip m = Some (lua_of_map (decoded_map m)) /\
  ((forall k ss, (k, Multi ss) ∈ m -> (2 <= length ss)%nat) ->
   round_trip m = Some (lua_of_map m)).
Proof.
  intros Hnd Hnames Hlen Hvals.
  assert (Hrt : round_trip m = Some (lua_of_map (decoded_map m))).
  { unfold round_trip.
    destruct (read_mods_map LUALDAP_MOD_ADD m Hnames Hlen Hvals) as (a & Hbuild & Hread).
    rewrite Hbuild, Hread. simpl. f_equal. by apply set_attribs_encoded. }
  split; [exact Hrt|].
  intros Hmulti. rewrite Hrt. by rewrite decoded_map_id.
Qed.

(** [add] hands the library the encoded map. *)
Lemma lualdap_add_encoded `{LdapLib} args reply L p c h dn (m : attribute_map) :
  index2value args 1 = LUserdata LUALDAP_CONNECTION_METATABLE p ->
  conns L !! p = Some c -> ld c = Some h ->
  lua_tolstring (index2value args 2) = Some dn ->
  index2value args 3 = LTable (lua_of_map m) ->
  Forall plain_name m.*1 ->
  (length m < LUALDAP_MAX_ATTRS)%nat ->
  (value_count m <= LUALDAP_MAX_VALUES)%nat ->
  lualdap_add args reply L =
    (create_future (sub_rc reply) (index2value args 1) (sub_msgid reply) LDAP_RES_ADD,
     call (Call_add_ext (Some h) (cstr dn) (Some (encoded LUALDAP_MOD_ADD m))) L).
Proof.
  intros Ha Hc Hh Hdn Ht Hnames Hlen Hvals.
  rewrite (lualdap_add_open args reply L p c h dn Ha Hc Hh Hdn), Ht.
  destruct (read_mods_map LUALDAP_MOD_ADD m Hnames Hlen Hvals) as (a & Hbuild & Hread).
  unfold submit_after.
  destruct (A_tab2mod (lua_of_map m) (A_init uninitialised) LUALDAP_MOD_ADD) as [a0| |];
    cbn [mbind except_bind] in Hbuild |- *; [|done|done].
  rewrite Hbuild. cbn [mbind except_bind run]. by rewrite Hread, Hh.
Qed.

(** [next] returns the DN of a search entry and its decoded attributes. *)
Lemma next_message_entry upvalues args reply L sp s c msg :
  lua_touserdata (index2value upvalues 1) = Some sp ->
  open_cursor L sp s c ->
  rc reply = LDAP_RES_SEARCH_ENTRY -> res reply = Msg msg ->
  lm_msgtype msg = LDAP_RES_SEARCH_ENTRY ->
  fst (next_message upvalues args reply L)
    = Returns [LString (lm_dn msg); LTable (set_attribs msg [])].
Proof.
  intros Hsp Hopen Hrc Hres Hty.
  rewrite (next_message_open _ _ _ _ _ _ _ Hsp Hopen). simpl.
  rewrite Hrc, Hres. simpl. rewrite Hty. reflexivity.
Qed.

End Decoding.

Lemma C3_round_trip_witness :
  @round_trip Sample.conv Sample.stack
    [("cn", Single "test"); ("objectClass", Multi ["top"; "person"]); ("seeAlso", Absent)]
  = Some [(LString "cn", LString "test");
          (LString "objectClass", LTable [(LNumber 1, LString "top");
                                          (LNumber 2, LString "person")]);
          (LString "seeAlso", LBoolean true)].
Proof.
  refine (proj2 (@C3_round_trip Sample.conv Sample.stack
    [("cn", Single "test"); ("objectClass", Multi ["top"; "person"]); ("seeAlso", Absent)]
    _ _ _ _) _).
  - apply (bool_decide_unpack (NoDup _)). vm_compute. exact I.
  - repeat (constructor; [split; reflexivity|]). constructor.
  - vm_compute. lia.
  - vm_compute. lia.
  - intros k ss Hin. apply list_elem_of_In in Hin. simpl in Hin.
    destruct Hin as [[=]|[[= _ <-]|[[=]|[]]]]. simpl. lia.
Defined.

(** Counterexample to C3 as stated: a sequence of one value comes back as a
    plain string. *)
Lemma C3_singleton_sequence_counterexample :
  @round_trip Sample.conv Sample.stack [("cn", Multi ["test"])]
    = Some [(LString "cn", LString "test")] /\
  @round_trip Sample.conv Sample.stack [("cn", Multi ["test"])]
    <> Some (lua_of_map [("cn", Multi ["test"])]).
Proof. split; [vm_compute; reflexivity | vm_compute; discriminate]. Qed.

(** Names that differ only in the case of letters are one attribute to the
    library: the second comes back with the values of the first. *)
Example round_trip_case_clash :
  @round_trip Sample.conv Sample.stack [("cn", Single "a"); ("CN", Single "b")]
  = Some [(LString "cn", LString "a"); (LString "CN", LString "a")].
Proof. vm_compute. reflexivity. Qed.

(** ** Worked examples *)

(** The end-to-end scenario: the change set submitted by [add], and what a
    search returns for the entry so created. *)
Example add_then_search :
  let args := [Sample.conn_ud; LString "cn=test,dc=example";
               LTable (lua_of_map [("cn", Single "test");
                                   ("objectClass", Multi ["top"; "person"])])] in
  let es := [(LUALDAP_MOD_ADD, "cn", Some [berval "test"]);
             (LUALDAP_MOD_ADD, "objectClass", Some [berval "top"; berval "person"])] in
  calls (snd (@lualdap_add Sample.conv Sample.lib Sample.stack args Sample.accepted
                Sample.open_state))
    = [Call_add_ext (Some 7%nat) "cn=test,dc=example" (Some es)] /\
  fst (next_message [Sample.search_ud] []
         {| rc := LDAP_RES_SEARCH_ENTRY;
            res := Msg (entry_of_mods "cn=test,dc=example" es) |}
         Sample.searching_state)
    = Returns [LString "cn=test,dc=example";
               LTable (lua_of_map [("cn", Single "test");
                                   ("objectClass", Multi ["top"; "person"])])].
Proof. split; vm_compute; reflexivity. Qed.

(** [A_lastattr] needs a free slot below [LUALDAP_MAX_ATTRS] for the
    terminator: with exactly [LUALDAP_MAX_ATTRS] attributes stored, [add]
    raises "too many attributes" as well. *)
Example add_max_attrs :
  length (@mod_entries Sample.conv (Capacity_examples.attributes 100 (LBoolean true)))
    = LUALDAP_MAX_ATTRS /\
  @lualdap_add Sample.conv Sample.lib Sample.stack
    [Sample.conn_ud; LString "cn=test,dc=example";
     LTable (Capacity_examples.attributes 100 (LBoolean true))]
    Sample.accepted Sample.open_state
  = (Raises (Error "LuaLDAP: too many attributes"), Sample.open_state).
Proof. split; vm_compute; reflexivity. Qed.

(** Operations on a closed connection. *)
Example add_on_closed_connection :
  @lualdap_add Sample.conv Sample.lib Sample.stack [Sample.conn_ud; LString "cn=test,dc=example"]
    Sample.accepted Sample.closed_state
  = (Raises (ArgError 1 "LuaLDAP: LDAP connection is closed"), Sample.closed_state) /\
  lualdap_close [Sample.conn_ud] Sample.closed_state
  = (Returns [], Sample.closed_state).
Proof. split; vm_compute; reflexivity. Qed.

(** A future made by [add] resolves to [true] when the server accepts. *)
Example add_then_fetch :
  forall f L1,
    @lualdap_add Sample.conv Sample.lib Sample.stack [Sample.conn_ud; LString "cn=test,dc=example"]
      Sample.accepted Sample.open_state = (Returns [f], L1) ->
    fst (@call_closure Sample.conv Sample.lib f []
           {| rc := LDAP_RES_ADD; res := Msg (Sample.message LDAP_RES_ADD 0 None) |} L1)
    = Returns [LBoolean true].
Proof. intros f L1 [= <- <-]. vm_compute. reflexivity. Qed.

(** * Further properties *)

(** ** The life cycle of a connection ([lualdap_close]) *)

Section Lifecycle.
Context `{LuaConv} `{LdapLib} `{Indeterminate}.

Lemma getconnection_inv L args c :
  getconnection L args = Ok c ->
  exists p h, index2value args 1 = LUserdata LUALDAP_CONNECTION_METATABLE p /\
              conns L !! p = Some c /\ ld c = Some h.
Proof.
  unfold getconnection, luaL_checkudata.
  destruct (index2value args 1) as [| | | | | |mt p|]; try done.
  destruct (String.eqb_spec mt LUALDAP_CONNECTION_METATABLE) as [->|]; [|done].
  simpl. destruct (conns L !! p) as [c'|] eqn:Ec; simpl; [|done].
  destruct (ld c') as [h|] eqn:E; simpl; [|done].
  intros [= <-]. by exists p, h.
Qed.

(** What [lualdap_close] does to an open connection. *)
Lemma lualdap_close_open L p c h :
  conns L !! p = Some c -> ld c = Some h ->
  lualdap_close [LUserdata LUALDAP_CONNECTION_METATABLE p] L =
    (Returns [LNumber 1],
     set_conns <[p := {| version := version c; ld := None |}]>
       (call (Call_unbind_ext (Some h)) L)).
Proof.
  intros Hc Hh. unfold lualdap_close. simpl. rewrite Hc. simpl. rewrite Hh. reflexivity.
Qed.

(** X1. Closing an open connection returns 1, hands its handle to
    [ldap_unbind_ext] once and marks the block closed, leaving the other
    connections, the cursors and the registry as they were. Closing it again
    returns nothing and calls nothing: a connection is unbound at most once. *)
Theorem close_unbinds_once L p c h :
  conns L !! p = Some c -> ld c = Some h ->
  let ud := LUserdata LUALDAP_CONNECTION_METATABLE p in
  let L' := snd (lualdap_close [ud] L) in
  fst (lualdap_close [ud] L) = Returns [LNumber 1] /\
  calls L' = calls L ++ [Call_unbind_ext (Some h)] /\
  conns L' !! p = Some {| version := version c; ld := None |} /\
  (forall q, q <> p -> conns L' !! q = conns L !! q) /\
  searches L' = searches L /\ registry L' = registry L /\
  lualdap_close [ud] L' = (Returns [], L').
Proof.
  intros Hc Hh ud L'. subst ud L'. rewrite (lualdap_close_open L p c h Hc Hh). simpl.
  split; [done|]. split; [done|].
  split; [apply lookup_insert_eq|].
  split; [intros q Hq; by apply lookup_insert_ne|].
  split; [done|]. split; [done|].
  apply (lualdap_close_closed _ p {| version := version c; ld := None |}); [|done].
  simpl. apply lookup_insert_eq.
Qed.

(** X2. Once a connection is closed, every operation on it (bind, add,
    compare, delete, modify, rename, search) and every future created on it
    beforehand raises "LDAP connection is closed", whatever its other
    arguments; nothing is handed to the library and the state is unchanged. *)
Theorem use_after_close L p c h :
  conns L !! p = Some c -> ld c = Some h ->
  let ud := LUserdata LUALDAP_CONNECTION_METATABLE p in
  let L' := snd (lualdap_close [ud] L) in
  let refused := (Raises (ArgError 1 "LuaLDAP: LDAP connection is closed"), L') in
  (forall rest err, lualdap_bind_simple (ud :: rest) err L' = refused) /\
  (forall rest reply, lualdap_add (ud :: rest) reply L' = refused) /\
  (forall rest reply, lualdap_compare (ud :: rest) reply L' = refused) /\
  (forall rest reply, lualdap_delete (ud :: rest) reply L' = refused) /\
  (forall rest reply, lualdap_modify (ud :: rest) reply L' = refused) /\
  (forall rest reply, lualdap_rename (ud :: rest) reply L' = refused) /\
  (forall rest reply, lualdap_search (ud :: rest) reply L' = refused) /\
  (forall upvalues args reply,
     result_message (ud :: upvalues) args reply L' = refused).
Proof.
  intros Hc Hh ud L' refused. subst ud L' refused.
  rewrite (lualdap_close_open L p c h Hc Hh). cbn [snd].
  set (L' := set_conns _ _).
  assert (Hc' : conns L' !! p = Some {| version := version c; ld := None |})
    by (simpl; apply lookup_insert_eq).
  assert (Hrej := fun rest =>
    closed_connection_rejected L' (LUserdata LUALDAP_CONNECTION_METATABLE p :: rest) p _
      eq_refl Hc' eq_refl).
  cbn zeta in Hrej.
  split; [intros rest; apply (Hrej rest)|].
  split; [intros rest; apply (Hrej rest)|].
  split; [intros rest; apply (Hrej rest)|].
  split; [intros rest; apply (Hrej rest)|].
  split; [intros rest; apply (Hrej rest)|].
  split; [intros rest; apply (Hrej rest)|].
  split; [intros rest; apply (Hrej rest)|].
  intros upvalues args reply.
  by apply (result_message_closed _ _ _ _ p {| version := version c; ld := None |}).
Qed.

End Lifecycle.

Lemma close_unbinds_once_witness :
  lualdap_close [Sample.conn_ud] (snd (lualdap_close [Sample.conn_ud] Sample.open_state))
  = (Returns [], snd (lualdap_close [Sample.conn_ud] Sample.open_state)).
Proof.
  exact (proj2 (proj2 (proj2 (proj2 (proj2 (proj2
    (close_unbinds_once Sample.open_state 0%nat {| version := 3; ld := Some 7%nat |} 7%nat
       eq_refl eq_refl))))))).
Defined.

Lemma use_after_close_witness :
  @lualdap_delete Sample.conv Sample.lib [Sample.conn_ud; LString "cn=test,dc=example"]
    Sample.accepted (snd (lualdap_close [Sample.conn_ud] Sample.open_state))
  = (Raises (ArgError 1 "LuaLDAP: LDAP connection is closed"),
     snd (lualdap_close [Sample.conn_ud] Sample.open_state)).
Proof.
  exact (proj1 (proj2 (proj2 (proj2
    (@use_after_close Sample.conv Sample.lib Sample.stack Sample.open_state 0%nat
       {| version := 3; ld := Some 7%nat |} 7%nat eq_refl eq_refl))))
    [LString "cn=test,dc=example"] Sample.accepted).
Defined.

(** ** Submissions and their futures *)

Section Submissions.
Context `{LuaConv} `{LdapLib} `{Indeterminate}.

Lemma submit_after_submission L build code reply conn_v lc :
  build <> Fault ->
  let r := submit_after L build
             (fun attrs => (create_future (sub_rc reply) conn_v (sub_msgid reply) code,
                            call (lc attrs) L)) in
  (exists e, r = (Raises e, L)) \/
  (exists a, r = (create_future (sub_rc reply) conn_v (sub_msgid reply) code, call (lc a) L)).
Proof.
  intros Hnf r. subst r. unfold submit_after.
  destruct build as [a|e|]; [|left; by exists e|done].
  cbn [mbind except_bind]. rewrite A_lastattr_eq.
  destruct (LUALDAP_MAX_ATTRS <=? ai a)%nat; [left; by eexists|].
  right. by eexists.
Qed.

Lemma submission_cases op code args reply L p c h :
  index2value args 1 = LUserdata LUALDAP_CONNECTION_METATABLE p ->
  conns L !! p = Some c -> ld c = Some h ->
  (exists e, op args reply L = (Raises e, L)) \/
  (exists lc, op args reply L =
     (create_future (sub_rc reply) (index2value args 1) (sub_msgid reply) code, call lc L)) ->
  submission op code args reply L.
Proof.
  intros Ha Hc Hh [[e He]|[lc He]].
  - by apply (submission_raises _ _ _ _ _ e).
  - by apply (submission_made _ _ _ _ _ p c h lc).
Qed.

(** Every method that returns a future raises before anything is done, or
    makes one call to the library and ends with [create_future]. *)
Lemma future_methods_submission name op code args reply L :
  (name, op, code) ∈ future_methods -> submission op code args reply L.
Proof.
  intros Hin.
  assert (Hstr : forall n, (exists e, luaL_checkstring args n = Throw e) \/
                           exists s, luaL_checkstring args n = Ok s).
  { intros n. unfold luaL_checkstring, luaL_checklstring.
    destruct (lua_tolstring (index2value args n)); [right|left]; by eexists. }
  destruct (getconnection L args) as [c|e|] eqn:Hg.
  2:{ apply (submission_raises _ _ _ _ _ e).
      unfold future_methods in Hin.
      repeat (apply elem_of_cons in Hin as [[= -> -> ->]|Hin]);
        [..|by apply elem_of_nil in Hin];
        unfold lualdap_add, lualdap_compare, lualdap_delete, lualdap_modify, lualdap_rename;
        by rewrite Hg. }
  2:{ apply submission_undefined.
      unfold future_methods in Hin.
      repeat (apply elem_of_cons in Hin as [[= -> -> ->]|Hin]);
        [..|by apply elem_of_nil in Hin];
        unfold lualdap_add, lualdap_compare, lualdap_delete, lualdap_modify, lualdap_rename;
        by rewrite Hg. }
  pose proof Hg as Hinv. apply getconnection_inv in Hinv as (p & h & Ha & Hc & Hh).
  apply (submission_cases _ _ _ _ _ p c h Ha Hc Hh).
  unfold future_methods in Hin.
  repeat (apply elem_of_cons in Hin as [[= -> -> ->]|Hin]); [..|by apply elem_of_nil in Hin].
  - (* add *)
    destruct (lua_tolstring (index2value args 2)) as [dn|] eqn:Hdn.
    2:{ left. unfold lualdap_add, luaL_checkstring, luaL_checklstring.
        rewrite Hg, Hdn. by eexists. }
    rewrite (lualdap_add_open args reply L p c h dn Ha Hc Hh Hdn).
    destruct (submit_after_submission L
                 (match index2value args 3 with
                  | LTable t => A_tab2mod t (A_init uninitialised) LUALDAP_MOD_ADD
                  | _ => Ok (A_init uninitialised)
                  end) LDAP_RES_ADD reply (index2value args 1)
                 (fun attrs => Call_add_ext (ld c) (cstr dn) (read_mods attrs)))
      as [[e He]|[a Ha']].
    { destruct (index2value args 3); try done. apply A_tab2mod_no_fault. }
    + left. by exists e.
    + right. by eexists.
  - (* compare *)
    unfold lualdap_compare. rewrite Hg. cbn [mbind except_bind].
    destruct (Hstr 2%nat) as [[e ->]|[dn ->]]; [left; by eexists|].
    cbn [mbind except_bind].
    destruct (Hstr 3%nat) as [[e ->]|[attr ->]]; [left; by eexists|].
    cbn [mbind except_bind]. unfold luaL_checklstring.
    destruct (lua_tolstring (index2value args 4)) as [v|]; [|left; by eexists].
    right. by eexists.
  - (* delete *)
    unfold lualdap_delete. rewrite Hg. cbn [mbind except_bind].
    destruct (Hstr 2%nat) as [[e ->]|[dn ->]]; [left; by eexists|].
    right. by eexists.
  - (* modify *)
    destruct (lua_tolstring (index2value args 2)) as [dn|] eqn:Hdn.
    2:{ left. unfold lualdap_modify, luaL_checkstring, luaL_checklstring.
        rewrite Hg, Hdn. by eexists. }
    rewrite (lualdap_modify_open args reply L p c h dn Ha Hc Hh Hdn).
    destruct (submit_after_submission L
                 (modify_loop (drop 2 args) 3 (A_init uninitialised))
                 LDAP_RES_MODIFY reply (index2value args 1)
                 (fun attrs => Call_modify_ext (ld c) (cstr dn) (read_mods attrs)))
      as [[e He]|[a Ha']].
    { apply modify_loop_no_fault. }
    + left. by exists e.
    + right. by eexists.
  - (* rename *)
    unfold lualdap_rename. rewrite Hg. cbn [mbind except_bind].
    destruct (Hstr 2%nat) as [[e ->]|[dn ->]]; [left; by eexists|].
    cbn [mbind except_bind].
    destruct (Hstr 3%nat) as [[e ->]|[rdn ->]]; [left; by eexists|].
    cbn [mbind except_bind]. unfold luaL_optlstring, luaL_checklstring.
    assert (Hdel : (exists e, luaL_optnumber args 5 0 = Throw e) \/
                   exists d, luaL_optnumber args 5 0 = Ok d).
    { unfold luaL_optnumber, luaL_checknumber.
      destruct (lua_isnoneornil (index2value args 5)); [right; by eexists|].
      destruct (lua_isnumber (index2value args 5)); [right|left]; by eexists. }
    destruct (lua_isnoneornil (index2value args 4)).
    + cbn [mbind except_bind].
      destruct Hdel as [[e ->]|[d ->]]; [left; by eexists|]. right. by eexists.
    + destruct (lua_tolstring (index2value args 4)); [|left; by eexists].
      cbn [mbind except_bind].
      destruct Hdel as [[e ->]|[d ->]]; [left; by eexists|]. right. by eexists.
Qed.

(** X3. The five methods that return a future ([add], [compare], [delete],
    [modify], [rename]) share one contract. A call that returns has made
    exactly one call to the library and changed nothing else; it returns the
    future that carries the connection, the message id given by the library
    and the response type of the method when the library accepted the request,
    and [nil] with the library's text of the return code when it refused. A
    call that does not return has left the state as it was. *)
Theorem future_method_contract name op code args reply L :
  (name, op, code) ∈ future_methods ->
  match op args reply L with
  | (Returns vals, L') =>
      (exists lc, calls L' = calls L ++ [lc]) /\
      conns L' = conns L /\ searches L' = searches L /\ registry L' = registry L /\
      vals = if (sub_rc reply =? LDAP_SUCCESS)%Z
             then [LCClosure Fresult_message
                     [index2value args 1; LNumber (sub_msgid reply); LNumber code]]
             else [LNil; LString (ldap_err2string (sub_rc reply))]
  | (_, L') => L' = L
  end.
Proof.
  intros Hin.
  destruct (future_methods_submission name op code args reply L Hin)
    as [e ->| -> |p c h lc _ _ _ ->]; [done|done|].
  unfold create_future, faildirect.
  destruct (sub_rc reply =? LDAP_SUCCESS)%Z; simpl; (split; [by exists lc|done]).
Qed.

(** X4. The future returned by such a method, when called, polls
    [ldap_result] on the handle of the connection it was created on, for
    the message id the library gave to the submission, for one message
    ([LDAP_MSG_ONE]) and without timeout. The response type stored in the
    future plays no part: the result is the same for any other type. *)
Theorem future_polls_its_submission name op code args reply L f L1 :
  (name, op, code) ∈ future_methods ->
  op args reply L = (Returns [f], L1) ->
  exists p c h,
    index2value args 1 = LUserdata LUALDAP_CONNECTION_METATABLE p /\
    conns L !! p = Some c /\ ld c = Some h /\
    forall args' r,
      (fst (call_closure f args' r L1) <> Undefined ->
       exists rest,
         calls (snd (call_closure f args' r L1)) =
           calls L1 ++ Call_result (Some h) (sub_msgid reply) LDAP_MSG_ONE None :: rest) /\
      (forall code',
         call_closure f args' r L1 =
           result_message [index2value args 1; LNumber (sub_msgid reply); LNumber code']
             args' r L1).
Proof.
  intros Hin Hop.
  destruct (future_methods_submission name op code args reply L Hin)
    as [e He|He|p c h lc Ha Hc Hh He]; rewrite He in Hop; [done|done|].
  unfold create_future, faildirect in Hop.
  destruct (sub_rc reply =? LDAP_SUCCESS)%Z; cbn [negb] in Hop; [|discriminate].
  assert (Hf : f = LCClosure Fresult_message
                     [index2value args 1; LNumber (sub_msgid reply); LNumber code])
    by congruence.
  assert (HL1 : L1 = call lc L) by congruence.
  subst f L1. clear Hop.
  exists p, c, h. split; [done|]. split; [done|]. split; [done|].
  intros args' r. cbn [call_closure]. split; [|reflexivity].
  unfold result_message.
  change (index2value [index2value args 1; LNumber (sub_msgid reply); LNumber code] 1)
    with (index2value args 1).
  change (index2value [index2value args 1; LNumber (sub_msgid reply); LNumber code] 2)
    with (LNumber (sub_msgid reply)).
  rewrite Ha. cbn [lua_touserdata deref mbind except_bind conns call lua_tonumber].
  rewrite Hc. cbn [deref mbind except_bind]. rewrite Hh.
  cbn [bool_decide luaL_argcheck mbind except_bind].
  rewrite bool_decide_eq_true_2 by (by eexists). cbn [luaL_argcheck mbind except_bind].
  destruct (rc r =? 0)%Z; [intros _; by eexists|].
  destruct (rc r <? 0)%Z;
    [destruct (res r); [| |done]; intros _; simpl; rewrite <- app_assoc; by eexists|].
  destruct (res r) as [|m|]; [done| |done].
  destruct (negb (lm_parse_rc m =? LDAP_SUCCESS)%Z);
    [intros _; simpl; rewrite <- app_assoc; by eexists|].
  destruct ((lm_err m =? LDAP_SUCCESS)%Z || (lm_err m =? LDAP_COMPARE_TRUE)%Z);
    [intros _; simpl; rewrite <- app_assoc; by eexists|].
  destruct (lm_err m =? LDAP_COMPARE_FALSE)%Z;
    intros _; simpl; rewrite <- app_assoc; by eexists.
Qed.

End Submissions.

Lemma future_method_contract_witness :
  match @lualdap_delete Sample.conv Sample.lib [Sample.conn_ud; LString "cn=test,dc=example"]
          {| sub_rc := 32; sub_msgid := 0 |} Sample.open_state with
  | (Returns vals, L') =>
      (exists lc, calls L' = calls Sample.open_state ++ [lc]) /\
      conns L' = conns Sample.open_state /\ searches L' = searches Sample.open_state /\
      registry L' = registry Sample.open_state /\
      vals = if (32 =? LDAP_SUCCESS)%Z
             then [LCClosure Fresult_message
                     [Sample.conn_ud; LNumber 0; LNumber LDAP_RES_DELETE]]
             else [LNil; LString "No such object"]
  | (_, L') => L' = Sample.open_state
  end.
Proof.
  apply (@future_method_contract Sample.conv Sample.lib Sample.stack "delete"
           (@lualdap_delete Sample.conv Sample.lib) LDAP_RES_DELETE
           [Sample.conn_ud; LString "cn=test,dc=example"]
           {| sub_rc := 32; sub_msgid := 0 |} Sample.open_state).
  unfold future_methods. apply list_elem_of_In; simpl; right; right; left; reflexivity.
Defined.

Lemma future_polls_its_submission_witness :
  exists p c h,
    index2value [Sample.conn_ud; LString "cn=test,dc=example"] 1
      = LUserdata LUALDAP_CONNECTION_METATABLE p /\
    conns Sample.open_state !! p = Some c /\ ld c = Some h.
Proof.
  assert (Hin : ("delete", @lualdap_delete Sample.conv Sample.lib, LDAP_RES_DELETE)
                ∈ @future_methods Sample.conv Sample.lib Sample.stack).
  { unfold future_methods. apply list_elem_of_In; simpl; right; right; left; reflexivity. }
  destruct (@future_polls_its_submission Sample.conv Sample.lib Sample.stack "delete"
              (@lualdap_delete Sample.conv Sample.lib) LDAP_RES_DELETE
              [Sample.conn_ud; LString "cn=test,dc=example"]
              Sample.accepted Sample.open_state _ _ Hin eq_refl)
    as (p & c & h & Ha & Hc & Hh & _).
  by exists p, c, h.
Defined.

(** ** Search cursors ([lualdap_search], [create_search], [next_message]) *)

Section Cursors.
Context `{LuaConv} `{LdapLib} `{Indeterminate}.

Lemma fresh_lookup_None {A} (m : gmap nat A) : m !! fresh (dom m) = None.
Proof. apply not_elem_of_dom. apply is_fresh. Qed.

(** What [create_search] does to the state. *)
Lemma create_search_spec conn_v id L :
  let sp := fresh (dom (searches L)) in
  let ref := fresh (dom (registry L)) in
  create_search conn_v id L =
    (LUserdata LUALDAP_SEARCH_METATABLE sp,
     set_searches <[sp := {| conn := Z.of_nat ref; msgid := id |}]>
       (set_registry <[ref := conn_v]> L)).
Proof. reflexivity. Qed.

Lemma get_attrs_loop_no_fault tab count i arr : get_attrs_loop tab count i arr <> Fault.
Proof.
  revert i arr. induction count as [|n IH]; intros i arr; simpl; [done|].
  destruct (lua_tostring (lua_rawgeti tab (Z.of_nat (i + 1)))); [apply IH|done].
Qed.

Lemma get_attrs_param_no_fault crit arr : get_attrs_param crit arr <> Fault.
Proof.
  unfold get_attrs_param.
  destruct (lua_tostring (lua_getfield crit "attrs")); [done|].
  destruct (negb (lua_istable (lua_getfield crit "attrs"))); [done|].
  destruct (LUALDAP_MAX_ATTRS <? lua_rawlen (lua_getfield crit "attrs") + 1)%nat; [done|].
  pose proof (get_attrs_loop_no_fault (lua_getfield crit "attrs")
                (lua_rawlen (lua_getfield crit "attrs")) 0 arr) as Hnf.
  destruct (get_attrs_loop _ _ _ arr); done.
Qed.

(** How [lualdap_search] ends. *)
Lemma lualdap_search_cases args reply L :
  (exists e, lualdap_search args reply L = (Raises e, L)) \/
  lualdap_search args reply L = (Undefined, L) \/
  exists p c h lc,
    index2value args 1 = LUserdata LUALDAP_CONNECTION_METATABLE p /\
    conns L !! p = Some c /\ ld c = Some h /\
    lualdap_search args reply L =
      if negb (sub_rc reply =? LDAP_SUCCESS)%Z then
        (Raises (Error (LUALDAP_PREFIX +:+ ldap_err2string (sub_rc reply))), call lc L)
      else
        (Returns [LCClosure Fnext_message [(create_search (index2value args 1)
                                              (sub_msgid reply) (call lc L)).1];
                  index2value args 2],
         (create_search (index2value args 1) (sub_msgid reply) (call lc L)).2).
Proof.
  unfold lualdap_search.
  destruct (getconnection L args) as [c|e|] eqn:Hg; [|left; by eexists|right; by left].
  apply getconnection_inv in Hg as (p & h & Ha & Hc & Hh).
  cbn [mbind except_bind].
  destruct (negb (lua_istable (index2value args 2))); [left; by eexists|].
  destruct (get_attrs_param (index2value args 2) (replicate LUALDAP_MAX_ATTRS CWild)) as [attrs|e|] eqn:Hattrs; [|left; by eexists|].
  2:{ by apply get_attrs_param_no_fault in Hattrs. }
  cbn [mbind except_bind].
  assert (Hbool : forall name d, booltabparam (index2value args 2) name d <> Fault).
  { intros name d. unfold booltabparam.
    destruct (lua_isnil _); [done|]. destruct (lua_isboolean _); done. }
  assert (Hstr : forall name d, strtabparam (index2value args 2) name d <> Fault).
  { intros name d. unfold strtabparam.
    destruct (lua_isnil _); [done|]. destruct (lua_isstring _); done. }
  assert (Hlong : forall name d, longtabparam (index2value args 2) name d <> Fault).
  { intros name d. unfold longtabparam.
    destruct (lua_isnil _); [done|]. destruct (lua_isnumber _); done. }
  assert (Hnum : forall name d, numbertabparam (index2value args 2) name d <> Fault).
  { intros name d. unfold numbertabparam.
    destruct (lua_isnil _); [done|]. destruct (lua_isnumber _); done. }
  pose proof (Hbool "attrsonly" 0%Z) as Hb.
  destruct (booltabparam (index2value args 2) "attrsonly" 0) as [attrsonly|e|]; [|left; by eexists|done].
  cbn [mbind except_bind].
  pose proof (Hstr "base" None) as Hs1.
  destruct (strtabparam (index2value args 2) "base" None) as [base|e|]; [|left; by eexists|done].
  cbn [mbind except_bind].
  pose proof (Hstr "filter" None) as Hs2.
  destruct (strtabparam (index2value args 2) "filter" None) as [filter|e|]; [|left; by eexists|done].
  cbn [mbind except_bind].
  pose proof (Hstr "scope" None) as Hs3.
  destruct (strtabparam (index2value args 2) "scope" None) as [scope|e|]; [|left; by eexists|done].
  cbn [mbind except_bind].
  assert (Hsc : string2scope scope <> Fault).
  { unfold string2scope. destruct scope as [[|ch r]|]; try done.
    repeat (destruct (Ascii.eqb _ _); [done|]). done. }
  destruct (string2scope scope) as [sc|e|]; [|left; by eexists|done].
  cbn [mbind except_bind].
  pose proof (Hlong "sizelimit" LDAP_NO_LIMIT) as Hl.
  destruct (longtabparam (index2value args 2) "sizelimit" LDAP_NO_LIMIT) as [sizelimit|e|]; [|left; by eexists|done].
  cbn [mbind except_bind].
  unfold get_timeout_param.
  pose proof (Hnum "timeout" 0%Z) as Hn.
  destruct (numbertabparam (index2value args 2) "timeout" 0) as [t|e|]; [|left; by eexists|done].
  cbn [mbind except_bind].
  right; right. exists p, c, h.
  destruct (t <=? 0)%Z; cbn [mbind except_bind]; eexists;
    (split; [done|]); (split; [done|]); (split; [done|]);
    destruct (negb (sub_rc reply =? LDAP_SUCCESS)%Z); reflexivity.
Qed.

(** X5. A search that returns has created a cursor at a fresh address, open,
    holding the message id given by the library and a fresh registry
    reference to the connection it was started on. It returns the iterator
    closed over that cursor and the criteria table; it has made one call to
    the library, and the connections, the other cursors and the other
    registry slots are as before. *)
Theorem search_opens_fresh_cursor args reply L vals L' :
  lualdap_search args reply L = (Returns vals, L') ->
  exists sp ref p c,
    vals = [LCClosure Fnext_message [LUserdata LUALDAP_SEARCH_METATABLE sp];
            index2value args 2] /\
    index2value args 1 = LUserdata LUALDAP_CONNECTION_METATABLE p /\
    conns L !! p = Some c /\ is_Some (ld c) /\
    searches L !! sp = None /\ registry L !! ref = None /\
    open_cursor L' sp {| conn := Z.of_nat ref; msgid := sub_msgid reply |} c /\
    (forall sp', sp' <> sp -> searches L' !! sp' = searches L !! sp') /\
    (forall r, r <> ref -> registry L' !! r = registry L !! r) /\
    conns L' = conns L /\
    (exists lc, calls L' = calls L ++ [lc]) /\
    sub_rc reply = LDAP_SUCCESS.
Proof.
  intros Hret.
  destruct (lualdap_search_cases args reply L)
    as [[e He]|[He|(p & c & h & lc & Ha & Hc & Hh & He)]]; rewrite He in Hret; [done|done|].
  destruct (Z.eqb_spec (sub_rc reply) LDAP_SUCCESS) as [Hrc|]; cbn [negb] in Hret; [|done].
  unfold create_search, luaL_ref in Hret. cbn [fst snd] in Hret.
  change (searches (call lc L)) with (searches L) in Hret.
  change (registry (call lc L)) with (registry L) in Hret.
  assert (Hv : vals = [LCClosure Fnext_message
                         [LUserdata LUALDAP_SEARCH_METATABLE (fresh (dom (searches L)))];
                      index2value args 2]) by congruence.
  assert (HL : L' = set_searches
                      <[fresh (dom (searches L)) :=
                          {| conn := Z.of_nat (fresh (dom (registry L)));
                             msgid := sub_msgid reply |}]>
                      (set_registry <[fresh (dom (registry L)) := index2value args 1]>
                         (call lc L))) by congruence.
  clear Hret. subst vals L'.
  exists (fresh (dom (searches L))), (fresh (dom (registry L))), p, c.
  split; [done|]. split; [done|]. split; [done|]. split; [by eexists|].
  split; [apply fresh_lookup_None|]. split; [apply fresh_lookup_None|].
  split.
  { split; [simpl; apply lookup_insert_eq|]. split.
    - simpl. unfold LUA_NOREF. lia.
    - exists p. unfold registry_get. cbn [conn registry set_searches set_registry].
      destruct (Z.ltb_spec (Z.of_nat (fresh (dom (registry L)))) 0); [lia|].
      rewrite Nat2Z.id, lookup_insert_eq. cbn [default]. rewrite Ha. done. }
  split; [intros sp' Hne; simpl; by apply lookup_insert_ne|].
  split; [intros r Hne; simpl; by apply lookup_insert_ne|].
  split; [done|]. split; [by exists lc|done].
Qed.

(** X6. Unlike the other operations, [search] never returns [nil] and a
    message: a call returns only when the library accepted the request.
    Otherwise no cursor and no registry reference is created; either nothing
    was handed to the library, or the library refused the one request it was
    handed and its text for the return code is raised as an error. *)
Theorem search_failure_leaves_no_cursor args reply L :
  match lualdap_search args reply L with
  | (Returns vals, _) => sub_rc reply = LDAP_SUCCESS /\ length vals = 2%nat
  | (o, L') =>
      conns L' = conns L /\ searches L' = searches L /\ registry L' = registry L /\
      (calls L' = calls L \/
       (sub_rc reply <> LDAP_SUCCESS /\
        o = Raises (Error ("LuaLDAP: " +:+ ldap_err2string (sub_rc reply))) /\
        exists lc, calls L' = calls L ++ [lc]))
  end.
Proof.
  destruct (lualdap_search_cases args reply L)
    as [[e ->]|[->|(p & c & h & lc & Ha & Hc & Hh & ->)]].
  - repeat split; by left.
  - repeat split; by left.
  - destruct (Z.eqb_spec (sub_rc reply) LDAP_SUCCESS) as [Hrc|Hrc]; cbn [negb].
    + done.
    + split; [done|]. split; [done|]. split; [done|]. right.
      split; [done|]. split; [done|]. by exists lc.
Qed.

(** X7. Closing an open cursor before the end of the search returns 1,
    marks the cursor closed and releases its registry reference; the
    library is not called (the search is not abandoned) and the connection
    is untouched. From then on [next] raises "LDAP search is closed" and a
    second close returns nothing. *)
Theorem cursor_close_releases L sp s c :
  open_cursor L sp s c ->
  let ud := LUserdata LUALDAP_SEARCH_METATABLE sp in
  let L' := snd (lualdap_search_close [ud] L) in
  fst (lualdap_search_close [ud] L) = Returns [LNumber 1] /\
  calls L' = calls L /\ conns L' = conns L /\
  searches L' !! sp = Some {| conn := LUA_NOREF; msgid := msgid s |} /\
  (forall sp', sp' <> sp -> searches L' !! sp' = searches L !! sp') /\
  registry_get L' (conn s) = LNil /\
  (forall upvalues args reply,
     next_message (ud :: upvalues) args reply L' =
       (Raises (ArgError 1 "LuaLDAP: LDAP search is closed"), L')) /\
  lualdap_search_close [ud] L' = (Returns [], L').
Proof.
  intros (Hs & Hopen & _) ud L'. subst ud L'.
  assert (Hrun : lualdap_search_close [LUserdata LUALDAP_SEARCH_METATABLE sp] L =
                 (Returns [LNumber 1], search_close sp s L)).
  { unfold lualdap_search_close. simpl. rewrite Hs. simpl.
    by destruct (Z.eqb_spec (conn s) LUA_NOREF). }
  rewrite Hrun. cbn [fst snd].
  pose proof (searches_search_close sp s L) as Hs'.
  split; [done|].
  split; [unfold search_close, luaL_unref; by destruct (conn s <? 0)%Z|].
  split; [unfold search_close, luaL_unref; by destruct (conn s <? 0)%Z|].
  split; [done|].
  split.
  { intros sp' Hne. unfold search_close, luaL_unref.
    destruct (conn s <? 0)%Z; simpl; by apply lookup_insert_ne. }
  split; [apply registry_search_close|].
  split.
  - intros upvalues args reply.
    by apply (next_message_closed (LUserdata LUALDAP_SEARCH_METATABLE sp :: upvalues)
                args reply _ sp _ eq_refl Hs').
  - by apply (lualdap_search_close_closed _ sp _ Hs').
Qed.

(** X8. A [next] call that does not receive the terminal message (a timeout,
    a poll error, an entry, a referral, a message of another type) leaves
    the cursor open: the connections, the cursors and the registry are as
    before. With C7, a cursor is closed by [next] exactly on the terminal
    message. *)
Theorem cursor_stays_open upvalues args reply L sp s c :
  lua_touserdata (index2value upvalues 1) = Some sp ->
  open_cursor L sp s c ->
  ~ terminal reply ->
  let L' := snd (next_message upvalues args reply L) in
  conns L' = conns L /\ searches L' = searches L /\ registry L' = registry L /\
  open_cursor L' sp s c.
Proof.
  intros Hsp Hopen Hnt L'.
  assert (Hsame : conns L' = conns L /\ searches L' = searches L /\ registry L' = registry L).
  { subst L'. rewrite (next_message_open _ _ _ _ _ _ _ Hsp Hopen). cbn zeta.
    destruct (Z.eqb_spec (rc reply) 0); [done|].
    destruct (Z.eqb_spec (rc reply) (-1)); [done|].
    destruct (Z.eqb_spec (rc reply) LDAP_RES_SEARCH_RESULT) as [Hr|].
    { destruct (res reply) eqn:Hres; [| |done];
        exfalso; apply Hnt; left; (split; [done|]); rewrite Hres; discriminate. }
    destruct (res reply) as [|m|] eqn:Hres; [done| |done].
    cbn [deref_msg ldap_msgfree mbind except_bind].
    destruct (lm_msgtype m =? LDAP_RES_SEARCH_ENTRY)%Z; [done|].
    destruct (lm_msgtype m =? LDAP_RES_SEARCH_REFERENCE)%Z; [done|].
    destruct (Z.eqb_spec (lm_msgtype m) LDAP_RES_SEARCH_RESULT) as [Hty|]; [|done].
    destruct Hnt. right. split; [done|]. split; [done|]. by exists m. }
  destruct Hsame as (Hc & Hs & Hr). split; [done|]. split; [done|]. split; [done|].
  destruct Hopen as (Hs0 & Hopen & p & Hp & Hcp).
  split; [by rewrite Hs|]. split; [done|].
  exists p. unfold registry_get in *. by rewrite Hr, Hc.
Qed.

(** X9. Whenever the poll of [next] hands out a message (a return code other
    than 0 and -1), that message is passed to [ldap_msgfree] exactly once,
    right after the poll, whatever its type: also when it closes the
    cursor, and also when its type is unexpected and the call raises "error
    on search result chain". A referral yields its DN and [nil]. *)
Theorem search_message_released upvalues args reply L sp s c m :
  lua_touserdata (index2value upvalues 1) = Some sp ->
  open_cursor L sp s c ->
  rc reply <> 0%Z -> rc reply <> (-1)%Z -> res reply = Msg m ->
  let r := next_message upvalues args reply L in
  calls (snd r) =
    calls L ++ [Call_result (ld c) (msgid s) LDAP_MSG_ONE None; Call_msgfree (Some m)] /\
  (rc reply <> LDAP_RES_SEARCH_RESULT ->
   (lm_msgtype m = LDAP_RES_SEARCH_REFERENCE -> fst r = Returns [LString (lm_dn m); LNil]) /\
   (lm_msgtype m <> LDAP_RES_SEARCH_ENTRY -> lm_msgtype m <> LDAP_RES_SEARCH_REFERENCE ->
    lm_msgtype m <> LDAP_RES_SEARCH_RESULT ->
    fst r = Raises (Error "LuaLDAP: error on search result chain"))).
Proof.
  intros Hsp Hopen Hn0 Hn1 Hres r. subst r.
  rewrite (next_message_open _ _ _ _ _ _ _ Hsp Hopen). cbn zeta.
  destruct (Z.eqb_spec (rc reply) 0) as [?|_]; [done|].
  destruct (Z.eqb_spec (rc reply) (-1)) as [?|_]; [done|].
  rewrite Hres. cbn [deref_msg ldap_msgfree mbind except_bind].
  assert (Hclose : forall L0, calls (search_close sp s L0) = calls L0).
  { intros L0. unfold search_close, luaL_unref. by destruct (conn s <? 0)%Z. }
  destruct (Z.eqb_spec (rc reply) LDAP_RES_SEARCH_RESULT) as [Hr|Hr].
  { cbn [run fst snd call calls]. rewrite Hclose. cbn [call calls].
    rewrite <- app_assoc. done. }
  destruct (Z.eqb_spec (lm_msgtype m) LDAP_RES_SEARCH_ENTRY) as [He|He].
  { cbn [run fst snd call calls]. rewrite <- app_assoc. split; [done|].
    intros _. split; [|done]. intros Href. rewrite Href in He. done. }
  destruct (Z.eqb_spec (lm_msgtype m) LDAP_RES_SEARCH_REFERENCE) as [Href|Href].
  { cbn [run fst snd call calls]. rewrite <- app_assoc. split; [done|].
    intros _. split; done. }
  destruct (Z.eqb_spec (lm_msgtype m) LDAP_RES_SEARCH_RESULT) as [Hres'|Hres'].
  { cbn [run fst snd call calls]. rewrite Hclose. cbn [call calls].
    rewrite <- app_assoc. split; [done|]. intros _. split; done. }
  cbn [run fst snd call calls]. rewrite <- app_assoc. split; [done|].
  intros _. split; done.
Qed.

(** X10. What a future does with the message of its poll. A message
    received (a positive return code) is handed to [ldap_parse_result] with
    [freeit] set, which releases it, and never to [ldap_msgfree]. On a poll
    error the future hands [res] to [ldap_msgfree]: what the library stored
    there, a message or NULL, is released; when the library stored nothing,
    [res] is indeterminate and the call goes wrong. On a timeout no further
    call is made. Whenever the call does not go wrong, the connections, the
    cursors and the registry are untouched. *)
Theorem future_message_released upvalues args reply L p c h :
  lua_touserdata (index2value upvalues 1) = Some p ->
  conns L !! p = Some c -> ld c = Some h ->
  let r := result_message upvalues args reply L in
  let poll := Call_result (Some h) (lua_tonumber (index2value upvalues 2)) LDAP_MSG_ONE None in
  ((0 < rc reply)%Z -> forall m, res reply = Msg m ->
     calls (snd r) = calls L ++ [poll; Call_parse_result (Some h) (Some m) 1]) /\
  ((rc reply < 0)%Z ->
     (res reply = MsgWild -> fst r = Undefined) /\
     (res reply <> MsgWild ->
      calls (snd r) = calls L ++ [poll; Call_msgfree (stored_message reply)])) /\
  (rc reply = 0%Z -> calls (snd r) = calls L ++ [poll]) /\
  (fst r <> Undefined ->
   conns (snd r) = conns L /\ searches (snd r) = searches L /\ registry (snd r) = registry L).
Proof.
  intros Hp Hc Hh r poll. subst r poll.
  unfold result_message. rewrite Hp. cbn [deref mbind except_bind]. rewrite Hc.
  cbn [deref mbind except_bind]. rewrite Hh.
  rewrite bool_decide_eq_true_2 by (by eexists). cbn [luaL_argcheck mbind except_bind].
  destruct (Z.eqb_spec (rc reply) 0) as [Hz|Hz].
  { cbn [run fst snd call calls conns searches registry].
    split; [intros; lia|]. split; [intros; lia|]. done. }
  destruct (Z.ltb_spec (rc reply) 0) as [Hneg|Hpos].
  { unfold stored_message.
    destruct (res reply) as [|m|] eqn:Hres;
      cbn [ldap_msgfree mbind except_bind run fst snd call calls conns searches registry];
      rewrite <- ?app_assoc; (split; [intros; lia|]); (split; [|split; [intros; lia|done]]);
      intros _; (split; [done|]); done. }
  destruct (res reply) as [|m|] eqn:Hres.
  1,3: cbn [run fst snd]; (split; [by intros _ m [=]|]); (split; [intros; lia|]);
       (split; [intros; lia|done]).
  assert (Hcalls : forall o1 o2 o3 o4 : outcome,
    let L2 := call (Call_parse_result (Some h) (Some m) 1)
                (call (Call_result (Some h) (lua_tonumber (index2value upvalues 2))
                         LDAP_MSG_ONE None) L) in
    forall b1 b2 b3 : bool,
    snd (run L (if b1 then Ok (o1, L2) else if b2 then Ok (o2, L2)
                else if b3 then Ok (o3, L2) else Ok (o4, L2))) = L2).
  { intros o1 o2 o3 o4 L2 [] [] []; reflexivity. }
  rewrite Hcalls. cbn [call calls conns searches registry]. rewrite <- app_assoc.
  split; [by intros _ m' [= <-]|]. split; [intros; lia|]. done.
Qed.

End Cursors.

Lemma search_opens_fresh_cursor_witness :
  exists sp ref p c,
    index2value [Sample.conn_ud; LTable []] 1 = LUserdata LUALDAP_CONNECTION_METATABLE p /\
    conns Sample.searching_state !! p = Some c /\
    searches Sample.searching_state !! sp = None /\
    registry Sample.searching_state !! ref = None.
Proof.
  destruct (@search_opens_fresh_cursor Sample.conv Sample.lib [Sample.conn_ud; LTable []]
              Sample.accepted Sample.searching_state _ _ eq_refl)
    as (sp & ref & p & c & _ & Ha & Hc & _ & Hs & Hr & _).
  by exists sp, ref, p, c.
Defined.

Lemma cursor_close_releases_witness :
  fst (lualdap_search_close [Sample.search_ud] Sample.searching_state) = Returns [LNumber 1] /\
  calls (snd (lualdap_search_close [Sample.search_ud] Sample.searching_state)) = [].
Proof.
  destruct (cursor_close_releases Sample.searching_state 0%nat {| conn := 0; msgid := 4 |}
              {| version := 3; ld := Some 7%nat |}) as (Hret & Hcalls & _).
  - split; [reflexivity|]. split; [discriminate|]. exists 0%nat. split; reflexivity.
  - split; [exact Hret | exact Hcalls].
Defined.

Lemma cursor_stays_open_witness :
  @open_cursor
    (snd (next_message [Sample.search_ud] []
            {| rc := LDAP_RES_SEARCH_ENTRY;
               res := Msg (Sample.message LDAP_RES_SEARCH_ENTRY 0 None) |}
            Sample.searching_state))
    0%nat {| conn := 0; msgid := 4 |} {| version := 3; ld := Some 7%nat |}.
Proof.
  refine (proj2 (proj2 (proj2 (cursor_stays_open [Sample.search_ud] []
            {| rc := LDAP_RES_SEARCH_ENTRY;
               res := Msg (Sample.message LDAP_RES_SEARCH_ENTRY 0 None) |}
            Sample.searching_state 0%nat {| conn := 0; msgid := 4 |}
            {| version := 3; ld := Some 7%nat |} eq_refl _ _)))).
  - split; [reflexivity|]. split; [discriminate|]. exists 0%nat. split; reflexivity.
  - intros [[Hrc _] | (_ & _ & m & Hm & Hty)]; [discriminate|].
    injection Hm as <-. discriminate.
Defined.

Lemma search_message_released_witness :
  fst (next_message [Sample.search_ud] []
         {| rc := LDAP_RES_SEARCH_ENTRY; res := Msg (Sample.message LDAP_RES_ADD 0 None) |}
         Sample.searching_state)
  = Raises (Error "LuaLDAP: error on search result chain") /\
  calls (snd (next_message [Sample.search_ud] []
         {| rc := LDAP_RES_SEARCH_ENTRY; res := Msg (Sample.message LDAP_RES_ADD 0 None) |}
         Sample.searching_state))
  = [Call_result (Some 7%nat) 4 LDAP_MSG_ONE None;
     Call_msgfree (Some (Sample.message LDAP_RES_ADD 0 None))].
Proof.
  destruct (search_message_released [Sample.search_ud] []
              {| rc := LDAP_RES_SEARCH_ENTRY; res := Msg (Sample.message LDAP_RES_ADD 0 None) |}
              Sample.searching_state 0%nat {| conn := 0; msgid := 4 |}
              {| version := 3; ld := Some 7%nat |} (Sample.message LDAP_RES_ADD 0 None)
              eq_refl) as (Hcalls & Hout); try discriminate; try reflexivity.
  - split; [reflexivity|]. split; [discriminate|]. exists 0%nat. split; reflexivity.
  - split; [|exact Hcalls].
    destruct Hout as (_ & Hraise); [discriminate|]. apply Hraise; discriminate.
Defined.

Lemma future_message_released_witness :
  calls (snd (@result_message Sample.conv Sample.lib
                [Sample.conn_ud; LNumber 1; LNumber LDAP_RES_ADD] []
                {| rc := LDAP_RES_ADD; res := Msg (Sample.message LDAP_RES_ADD 0 None) |}
                Sample.open_state))
  = [Call_result (Some 7%nat) 1 LDAP_MSG_ONE None;
     Call_parse_result (Some 7%nat) (Some (Sample.message LDAP_RES_ADD 0 None)) 1].
Proof.
  refine (proj1 (@future_message_released Sample.conv Sample.lib
                   [Sample.conn_ud; LNumber 1; LNumber LDAP_RES_ADD] []
                   {| rc := LDAP_RES_ADD; res := Msg (Sample.message LDAP_RES_ADD 0 None) |}
                   Sample.open_state 0%nat {| version := 3; ld := Some 7%nat |} 7%nat
                   eq_refl eq_refl eq_refl) _ _ eq_refl).
  reflexivity.
Defined.

(** ** The change set of an arbitrary table ([A_tab2mod], [lualdap_add],
       [lualdap_modify]) *)

Section AnyTable.
Context `{LuaConv} `{Indeterminate}.

Lemma A_tab2val_loop_inv tab name count i a a' :
  A_tab2val_loop tab name count i a = Ok a' ->
  (bi a <= LUALDAP_MAX_VALUES)%nat ->
  a' = push_all (element_strings tab i count) a /\
  (bi a + count <= LUALDAP_MAX_VALUES)%nat.
Proof.
  revert i a. induction count as [|count IH]; intros i a.
  - intros [= <-] Hb. split; [done|lia].
  - cbn [A_tab2val_loop]. rewrite A_setval_eq.
    destruct (LUALDAP_ARRAY_VALUES_SIZE <=? vi a)%nat; [done|].
    destruct (Nat.leb_spec LUALDAP_MAX_VALUES (bi a)); [done|].
    destruct (lua_tolstring (lua_rawgeti tab (Z.of_nat i))) as [s|] eqn:Hs; [|done].
    cbn [mbind except_bind]. intros Hloop _.
    apply IH in Hloop as [-> Hb]; [|simpl; lia].
    unfold element_strings. cbn [seq fmap list_fmap push_all]. rewrite Hs.
    split; [done|]. simpl in Hb. lia.
Qed.

(** A stored modification is the one of the attribute value read from the
    Lua value. *)
Lemma A_setmod_inv v a op name a' :
  A_setmod v a op name = Ok a' ->
  (bi a <= LUALDAP_MAX_VALUES)%nat ->
  a' = store_one op (name, attr_value v) a /\
  (ai a < LUALDAP_MAX_ATTRS)%nat /\
  (bi a + length (values_of (attr_value v)) <= LUALDAP_MAX_VALUES)%nat.
Proof.
  rewrite A_setmod_eq. destruct (Nat.leb_spec LUALDAP_MAX_ATTRS (ai a)); [done|].
  unfold A_tab2val, attr_value, store_one. cbn [snd fst].
  destruct (lua_isboolean v && lua_toboolean v).
  { cbn [mbind except_bind values_of length]. intros [= <-] Hb. split; [done|]. split; lia. }
  destruct (lua_isstring v).
  - rewrite A_setval_eq.
    destruct (LUALDAP_ARRAY_VALUES_SIZE <=? vi a)%nat; [done|].
    destruct (Nat.leb_spec LUALDAP_MAX_VALUES (bi a)); [done|].
    destruct (lua_tolstring v) as [s|]; [|done].
    cbn [mbind except_bind]. rewrite A_nullval_eq.
    destruct (LUALDAP_ARRAY_VALUES_SIZE <=? vi (push_value s a))%nat; [done|].
    cbn [mbind except_bind default values_of push_all length].
    intros [= <-] _. split; [done|]. split; lia.
  - destruct (lua_istable v); [|done].
    destruct (A_tab2val_loop v name (lua_rawlen v) 1 a) as [a1| |] eqn:Hloop; [|done|done].
    cbn [mbind except_bind]. rewrite A_nullval_eq.
    destruct (LUALDAP_ARRAY_VALUES_SIZE <=? vi a1)%nat; [done|].
    cbn [mbind except_bind values_of].
    intros [= <-] Hb. apply A_tab2val_loop_inv in Hloop as [-> Hb']; [|done].
    split; [done|]. split; [lia|].
    unfold element_strings. rewrite length_fmap, length_seq. lia.
Qed.

Lemma attr_map_of_cons k v t :
  attr_map_of ((k, v) :: t) =
    if is_attr_key k then (default "" (lua_tostring k), attr_value v) :: attr_map_of t
    else attr_map_of t.
Proof. unfold attr_map_of. cbn [mod_entries]. by destruct (is_attr_key k). Qed.

(** Whatever the table, a successful [A_tab2mod] has stored the encoded
    attribute map read from it, after what was stored before. *)
Lemma A_tab2mod_stored t a op a' es :
  A_tab2mod t a op = Ok a' ->
  lengths_ok a -> stored a es ->
  (vi a <= bi a + ai a)%nat -> (bi a <= LUALDAP_MAX_VALUES)%nat ->
  stored a' (es ++ encoded op (attr_map_of t)) /\ lengths_ok a' /\
  (vi a' <= bi a' + ai a')%nat /\ (bi a' <= LUALDAP_MAX_VALUES)%nat /\
  bi a' = (bi a + value_count (attr_map_of t))%nat.
Proof.
  destruct capacities as (Ca & Cv & Cb).
  revert a es. induction t as [|[k v] t IH]; intros a es.
  - intros [= <-] Hl Hst Hvi Hbi.
    change (attr_map_of []) with ([] : attribute_map).
    change (encoded op []) with ([] : list mod_entry).
    change (value_count []) with 0%nat.
    rewrite app_nil_r. split; [done|]. split; [done|]. split; [done|]. split; [done|]. lia.
  - cbn [A_tab2mod]. fold (is_attr_key k). rewrite attr_map_of_cons.
    destruct (is_attr_key k); [|apply IH].
    destruct (A_setmod v a op (default "" (lua_tostring k))) as [a1| |] eqn:Hset; [|done|done].
    cbn [mbind except_bind]. intros Hrest Hl Hst Hvi Hbi.
    apply A_setmod_inv in Hset as (-> & Hai & Hb); [|done].
    pose proof (store_one_stored op (default "" (lua_tostring k), attr_value v) a es
                  Hl Hst Hai) as Hone.
    pose proof (store_one_counters op (default "" (lua_tostring k), attr_value v) a)
      as (Ha1 & Hb1 & Hv1).
    cbn [fst snd] in Hone, Hb1, Hv1.
    destruct Hone as [Hst1 Hl1]; [lia|lia|].
    destruct (IH _ _ Hrest Hl1 Hst1 ltac:(lia) ltac:(lia)) as (Hst2 & Hl2 & Hv2 & Hb2 & Hc2).
    unfold encoded. cbn [fmap list_fmap fst snd value_count foldr].
    fold (encoded op (attr_map_of t)). fold (value_count (attr_map_of t)).
    rewrite <- app_assoc in Hst2.
    split; [done|]. split; [done|]. split; [done|]. split; [done|]. lia.
Qed.

(** The same for the groups of [modify]. *)
Lemma modify_loop_stored rest k a a' es :
  modify_loop rest k a = Ok a' ->
  lengths_ok a -> stored a es ->
  (vi a <= bi a + ai a)%nat -> (bi a <= LUALDAP_MAX_VALUES)%nat ->
  stored a' (es ++ groups_mods (leading_tables rest)) /\ lengths_ok a' /\
  (vi a' <= bi a' + ai a')%nat /\ (bi a' <= LUALDAP_MAX_VALUES)%nat.
Proof.
  revert k a es. induction rest as [|v rest IH]; intros k a es.
  - intros [= <-] Hl Hst Hvi Hbi. cbn [leading_tables groups_mods fmap list_fmap concat].
    by rewrite app_nil_r.
  - cbn [modify_loop leading_tables].
    destruct v as [| | | | |g| |];
      try (intros [= <-] Hl Hst Hvi Hbi; cbn [groups_mods fmap list_fmap concat];
           by rewrite app_nil_r).
    destruct (op2code (lua_tostring (rawgeti g 1)) =? LUALDAP_NO_OP)%Z; [done|].
    destruct (A_tab2mod g a _) as [a1| |] eqn:Hg; [|done|done].
    cbn [mbind except_bind]. intros Hrest Hl Hst Hvi Hbi.
    destruct (A_tab2mod_stored _ _ _ _ es Hg Hl Hst Hvi Hbi) as (Hst1 & Hl1 & Hv1 & Hb1 & _).
    destruct (IH _ _ _ Hrest Hl1 Hst1 Hv1 Hb1) as (Hst2 & Hl2 & Hv2 & Hb2).
    unfold groups_mods. cbn [fmap list_fmap concat]. fold (groups_mods (leading_tables rest)).
    rewrite <- app_assoc in Hst2. done.
Qed.

(** Once the array is terminated, the library reads the stored
    modifications. *)
Lemma read_mods_lastattr a es :
  lengths_ok a -> stored a es ->
  (vi a <= bi a + ai a)%nat -> (bi a <= LUALDAP_MAX_VALUES)%nat ->
  forall a2, A_lastattr a = Ok a2 -> read_mods a2 = Some es.
Proof.
  destruct capacities as (Ca & Cv & Cb).
  intros Hl [Hn Hst] Hvi Hbi a2. rewrite A_lastattr_eq.
  destruct (Nat.leb_spec LUALDAP_MAX_ATTRS (ai a)); [done|]. intros [= <-].
  set (a2 := {| attrs := <[ai a := NULL]> (attrs a); ai := S (ai a); mods := mods a;
                values := values a; vi := vi a; bvals := bvals a; bi := bi a |}).
  assert (Hext : extends a a2).
  { constructor; simpl; try lia; try done.
    intros j Hj. apply list_lookup_insert_ne. lia. }
  assert (Hl2 : lengths_ok a2).
  { destruct Hl. constructor; simpl; by rewrite ?length_insert. }
  unfold read_mods.
  rewrite (read_attrs_stored a2 es); [by rewrite drop_0|done| | | |lia|].
  - cbn [vi a2]. lia.
  - intros j e Hj. eapply mod_at_extends; [exact Hext | by apply Hst].
  - rewrite Hn. cbn [attrs a2]. apply list_lookup_insert_eq. destruct Hl. lia.
  - destruct Hl2. lia.
Qed.

Lemma stored_A_init : stored (A_init uninitialised) [].
Proof. split; [done|]. intros i e [=]. Qed.

(** [A_tab2mod] passes over the pairs whose key is not an attribute name. *)
Lemma A_tab2mod_mod_entries t a op : A_tab2mod t a op = A_tab2mod (mod_entries t) a op.
Proof.
  revert a. induction t as [|[k v] t IH]; intros a; [reflexivity|].
  cbn [A_tab2mod mod_entries]. fold (is_attr_key k).
  destruct (is_attr_key k) eqn:Hk; [|apply IH].
  cbn [A_tab2mod]. fold (is_attr_key k). rewrite Hk.
  destruct (A_setmod v a op _) as [a1| |]; cbn [mbind except_bind]; [apply IH|done|done].
Qed.

End AnyTable.

Section AnyRequest.
Context `{LuaConv} `{LdapLib} `{Indeterminate}.

(** X11. Whatever table [add] is given, when the call returns the library
    was handed a well-formed, NULL-terminated modification array and nothing
    indeterminate: one [LDAP_MOD_ADD | LDAP_MOD_BVALUES] entry per attribute
    key of the table, in traversal order, named by the key read as a C
    string, with no value array for [true], the one value for a string or a
    number, and the elements 1..n in order for a table of n elements, each
    value with its full length. *)
Theorem add_submits_the_table args reply L t vals L' :
  index2value args 3 = LTable t ->
  lualdap_add args reply L = (Returns vals, L') ->
  exists p c h dn,
    index2value args 1 = LUserdata LUALDAP_CONNECTION_METATABLE p /\
    conns L !! p = Some c /\ ld c = Some h /\
    lua_tolstring (index2value args 2) = Some dn /\
    L' = call (Call_add_ext (Some h) (cstr dn)
                 (Some (encoded LUALDAP_MOD_ADD (attr_map_of t)))) L /\
    (length (attr_map_of t) < LUALDAP_MAX_ATTRS)%nat /\
    (value_count (attr_map_of t) <= LUALDAP_MAX_VALUES)%nat.
Proof.
  destruct capacities as (Ca & Cv & Cb).
  intros Ht Hret. unfold lualdap_add in Hret.
  destruct (getconnection L args) as [c| |] eqn:Hg; [|done|done].
  apply getconnection_inv in Hg as (p & h & Ha & Hc & Hh).
  cbn [mbind except_bind] in Hret. unfold luaL_checkstring, luaL_checklstring in Hret.
  destruct (lua_tolstring (index2value args 2)) as [dn|] eqn:Hdn; [|done].
  cbn [mbind except_bind] in Hret. rewrite Ht in Hret.
  destruct (A_tab2mod t (A_init uninitialised) LUALDAP_MOD_ADD) as [a1| |] eqn:Hbuild;
    [|done|done].
  cbn [mbind except_bind] in Hret.
  destruct (A_lastattr a1) as [a2| |] eqn:Hlast; [|done|done].
  cbn [mbind except_bind run] in Hret.
  destruct (A_tab2mod_stored _ _ _ _ [] Hbuild lengths_A_init stored_A_init)
    as (Hst & Hl & Hv & Hb & Hcount); [simpl; lia..|].
  cbn [app] in Hst.
  rewrite (read_mods_lastattr a1 _ Hl Hst Hv Hb a2 Hlast), Hh in Hret.
  exists p, c, h, dn. split; [done|]. split; [done|]. split; [done|]. split; [done|].
  split; [congruence|].
  destruct Hst as [Hn _]. unfold encoded in Hn. rewrite length_fmap in Hn.
  rewrite A_lastattr_eq in Hlast.
  destruct (Nat.leb_spec LUALDAP_MAX_ATTRS (ai a1)); [done|].
  split; [lia|]. simpl in Hcount. lia.
Qed.

Lemma modify_loop_ops rest k a a' :
  modify_loop rest k a = Ok a' ->
  Forall (fun g => op2code (lua_tostring (rawgeti g 1)) <> LUALDAP_NO_OP) (leading_tables rest).
Proof.
  revert k a. induction rest as [|v rest IH]; intros k a Hloop; [constructor|].
  cbn [modify_loop leading_tables] in *. destruct v as [| | | | |g| |]; try constructor.
  - by destruct (Z.eqb_spec (op2code (lua_tostring (rawgeti g 1))) LUALDAP_NO_OP).
  - destruct (op2code (lua_tostring (rawgeti g 1)) =? LUALDAP_NO_OP)%Z; [done|].
    destruct (A_tab2mod g a _) as [a1| |]; [|done|done].
    cbn [mbind except_bind] in Hloop. by apply IH in Hloop.
Qed.

(** X12. Whatever groups [modify] is given, when the call returns the
    library was handed a well-formed, NULL-terminated modification array:
    the entries of the table arguments that follow the DN, up to the first
    argument that is not a table, group after group in argument order, each
    entry under the operation of its group ([LDAP_MOD_ADD], [_DELETE] or
    [_REPLACE], with [LDAP_MOD_BVALUES]) and with the values read as for
    [add]. Every group had a recognised operation. *)
Theorem modify_submits_the_groups args reply L vals L' :
  lualdap_modify args reply L = (Returns vals, L') ->
  exists p c h dn,
    index2value args 1 = LUserdata LUALDAP_CONNECTION_METATABLE p /\
    conns L !! p = Some c /\ ld c = Some h /\
    lua_tolstring (index2value args 2) = Some dn /\
    L' = call (Call_modify_ext (Some h) (cstr dn)
                 (Some (groups_mods (leading_tables (drop 2 args))))) L /\
    Forall (fun g => op2code (lua_tostring (rawgeti g 1)) ∈
                       [LUALDAP_MOD_ADD; LUALDAP_MOD_DEL; LUALDAP_MOD_REP])
           (leading_tables (drop 2 args)) /\
    (length (groups_mods (leading_tables (drop 2 args))) < LUALDAP_MAX_ATTRS)%nat.
Proof.
  destruct capacities as (Ca & Cv & Cb).
  intros Hret. unfold lualdap_modify in Hret.
  destruct (getconnection L args) as [c| |] eqn:Hg; [|done|done].
  apply getconnection_inv in Hg as (p & h & Ha & Hc & Hh).
  cbn [mbind except_bind] in Hret. unfold luaL_checkstring, luaL_checklstring in Hret.
  destruct (lua_tolstring (index2value args 2)) as [dn|] eqn:Hdn; [|done].
  cbn [mbind except_bind] in Hret.
  destruct (modify_loop (drop 2 args) 3 (A_init uninitialised)) as [a1| |] eqn:Hbuild;
    [|done|done].
  cbn [mbind except_bind] in Hret.
  destruct (A_lastattr a1) as [a2| |] eqn:Hlast; [|done|done].
  cbn [mbind except_bind run] in Hret.
  destruct (modify_loop_stored _ _ _ _ [] Hbuild lengths_A_init stored_A_init)
    as (Hst & Hl & Hv & Hb); [simpl; lia..|].
  cbn [app] in Hst.
  rewrite (read_mods_lastattr a1 _ Hl Hst Hv Hb a2 Hlast), Hh in Hret.
  exists p, c, h, dn. split; [done|]. split; [done|]. split; [done|]. split; [done|].
  split; [congruence|]. split.
  - eapply Forall_impl; [exact (modify_loop_ops _ _ _ _ Hbuild)|].
    intros g Hop. cbn beta in Hop. unfold op2code in *.
    destruct (lua_tostring (rawgeti g 1)) as [[|ch r]|]; try done.
    destruct (Ascii.eqb ch "+"); [set_solver|].
    destruct (Ascii.eqb ch "-"); [set_solver|].
    destruct (Ascii.eqb ch "="); [set_solver|done].
  - destruct Hst as [Hn _]. rewrite A_lastattr_eq in Hlast.
    destruct (Nat.leb_spec LUALDAP_MAX_ATTRS (ai a1)); [done|]. lia.
Qed.

(** X13. Only the pairs of the attribute table whose key is a string that
    does not convert to a number count for [add]: two tables with the same
    such pairs, in the same order, give the same result (the same request or
    the same error). Positional elements, other non-string keys and keys
    such as "10" are passed over. *)
Theorem add_ignores_other_keys args args' reply L t t' :
  index2value args 3 = LTable t -> index2value args' 3 = LTable t' ->
  index2value args' 1 = index2value args 1 ->
  index2value args' 2 = index2value args 2 ->
  mod_entries t = mod_entries t' ->
  lualdap_add args reply L = lualdap_add args' reply L.
Proof.
  intros Ht Ht' Hk1 Hk2 Hm.
  unfold lualdap_add, getconnection, luaL_checkudata, luaL_checkstring, luaL_checklstring.
  rewrite Ht, Ht', Hk1, Hk2.
  by rewrite (A_tab2mod_mod_entries t), (A_tab2mod_mod_entries t'), Hm.
Qed.

(** X14. An attribute whose value is neither [true], nor a string or a
    number, nor a table (for instance [false]) makes [add] raise "invalid
    value of attribute `name' (type)", naming the attribute and the type of
    the value, provided the attributes before it were stored; nothing is
    handed to the library. *)
Theorem add_invalid_value args reply L p c h dn t1 k v t2 a1 :
  index2value args 1 = LUserdata LUALDAP_CONNECTION_METATABLE p ->
  conns L !! p = Some c -> ld c = Some h ->
  lua_tolstring (index2value args 2) = Some dn ->
  index2value args 3 = LTable (t1 ++ (k, v) :: t2) ->
  is_attr_key k = true ->
  A_tab2mod t1 (A_init uninitialised) LUALDAP_MOD_ADD = Ok a1 ->
  (length (mod_entries t1) < LUALDAP_MAX_ATTRS)%nat ->
  v <> LBoolean true -> lua_isstring v = false -> lua_istable v = false ->
  lualdap_add args reply L =
    (Raises (Error ("LuaLDAP: invalid value of attribute `" +:+ default "" (lua_tostring k)
                    +:+ "' (" +:+ lua_typename v +:+ ")")), L).
Proof.
  intros Ha Hc Hh Hdn Ht Hk Ht1 Hroom Hv Hs Htab.
  rewrite (lualdap_add_open args reply L p c h dn Ha Hc Hh Hdn), Ht.
  apply submit_after_throw. rewrite A_tab2mod_app, Ht1. cbn [mbind except_bind A_tab2mod].
  fold (is_attr_key k). rewrite Hk.
  destruct (A_tab2mod_ai _ _ _ _ Ht1 ltac:(rewrite ai_A_init; lia)) as [Hcount _].
  rewrite ai_A_init in Hcount.
  rewrite A_setmod_eq. destruct (Nat.leb_spec LUALDAP_MAX_ATTRS (ai a1)); [lia|].
  unfold A_tab2val. rewrite Hs, Htab.
  replace (lua_isboolean v && lua_toboolean v) with false
    by (destruct v as [| |[]| | | | |]; done).
  reflexivity.
Qed.

End AnyRequest.

Lemma add_submits_the_table_witness :
  let t := [(LNumber 1, LString "x"); (LString "cn", LNumber 7);
            (LString "10", LString "y");
            (LString "mail", LTable [(LNumber 1, LString "a"); (LNumber 2, LString "b")])] in
  let args := [Sample.conn_ud; LString "cn=test,dc=example"; LTable t] in
  exists p c h dn,
    index2value args 1 = LUserdata LUALDAP_CONNECTION_METATABLE p /\
    conns Sample.open_state !! p = Some c /\ ld c = Some h /\
    @lua_tolstring Sample.conv (index2value args 2) = Some dn /\
    call (Call_add_ext (Some 7%nat) "cn=test,dc=example"
            (Some [(LUALDAP_MOD_ADD, "cn", Some [berval "7"]);
                   (LUALDAP_MOD_ADD, "mail", Some [berval "a"; berval "b"])]))
         Sample.open_state
    = call (Call_add_ext (Some h) (cstr dn)
              (Some (encoded LUALDAP_MOD_ADD (@attr_map_of Sample.conv t))))
           Sample.open_state /\
    (length (@attr_map_of Sample.conv t) < LUALDAP_MAX_ATTRS)%nat /\
    (value_count (@attr_map_of Sample.conv t) <= LUALDAP_MAX_VALUES)%nat.
Proof.
  intros t args.
  apply (@add_submits_the_table Sample.conv Sample.lib Sample.stack args Sample.accepted
           Sample.open_state t
           [LCClosure Fresult_message [Sample.conn_ud; LNumber 1; LNumber LDAP_RES_ADD]]).
  - reflexivity.
  - vm_compute. reflexivity.
Defined.

Lemma modify_submits_the_groups_witness :
  let g1 := [(LNumber 1, LString "="); (LString "sn", LString "Test")] in
  let g2 := [(LNumber 1, LString "-"); (LString "mail", LBoolean true)] in
  let g3 := [(LNumber 1, LString "+"); (LString "cn", LString "ignored")] in
  let args := [Sample.conn_ud; LString "cn=test,dc=example"; LTable g1; LTable g2; LNil;
               LTable g3] in
  exists p c h dn,
    index2value args 1 = LUserdata LUALDAP_CONNECTION_METATABLE p /\
    conns Sample.open_state !! p = Some c /\ ld c = Some h /\
    @lua_tolstring Sample.conv (index2value args 2) = Some dn /\
    call (Call_modify_ext (Some 7%nat) "cn=test,dc=example"
            (Some [(LUALDAP_MOD_REP, "sn", Some [berval "Test"]);
                   (LUALDAP_MOD_DEL, "mail", None)]))
         Sample.open_state
    = call (Call_modify_ext (Some h) (cstr dn)
              (Some (@groups_mods Sample.conv (leading_tables (drop 2 args)))))
           Sample.open_state /\
    Forall (fun g => op2code (@lua_tostring Sample.conv (rawgeti g 1)) ∈
                       [LUALDAP_MOD_ADD; LUALDAP_MOD_DEL; LUALDAP_MOD_REP])
           (leading_tables (drop 2 args)) /\
    (length (@groups_mods Sample.conv (leading_tables (drop 2 args))) < LUALDAP_MAX_ATTRS)%nat.
Proof.
  intros g1 g2 g3 args.
  apply (@modify_submits_the_groups Sample.conv Sample.lib Sample.stack args Sample.accepted
           Sample.open_state
           [LCClosure Fresult_message [Sample.conn_ud; LNumber 1; LNumber LDAP_RES_MODIFY]]).
  vm_compute. reflexivity.
Defined.

Lemma add_ignores_other_keys_witness :
  @lualdap_add Sample.conv Sample.lib Sample.stack
    [Sample.conn_ud; LString "cn=test,dc=example";
     LTable [(LNumber 1, LString "x"); (LString "cn", LString "test");
             (LString "10", LString "y")]]
    Sample.accepted Sample.open_state
  = @lualdap_add Sample.conv Sample.lib Sample.stack
      [Sample.conn_ud; LString "cn=test,dc=example"; LTable [(LString "cn", LString "test")]]
      Sample.accepted Sample.open_state.
Proof.
  apply (@add_ignores_other_keys Sample.conv Sample.lib Sample.stack _ _ _ _
           [(LNumber 1, LString "x"); (LString "cn", LString "test");
            (LString "10", LString "y")]
           [(LString "cn", LString "test")]); reflexivity.
Defined.

Lemma add_invalid_value_witness :
  @lualdap_add Sample.conv Sample.lib Sample.stack
    [Sample.conn_ud; LString "cn=test,dc=example";
     LTable [(LString "cn", LString "test"); (LString "seeAlso", LBoolean false)]]
    Sample.accepted Sample.open_state
  = (Raises (Error "LuaLDAP: invalid value of attribute `seeAlso' (boolean)"),
     Sample.open_state).
Proof.
  refine (@add_invalid_value Sample.conv Sample.lib Sample.stack
            [Sample.conn_ud; LString "cn=test,dc=example";
             LTable [(LString "cn", LString "test"); (LString "seeAlso", LBoolean false)]]
            Sample.accepted Sample.open_state 0%nat {| version := 3; ld := Some 7%nat |}
            7%nat "cn=test,dc=example" [(LString "cn", LString "test")]
            (LString "seeAlso") (LBoolean false) [] _
            eq_refl eq_refl eq_refl eq_refl eq_refl eq_refl eq_refl _ _ eq_refl eq_refl).
  - vm_compute. lia.
  - discriminate.
Defined.

(** ** Decoding an entry ([push_values], [set_attribs]) *)

Section Decoder.

Lemma push_values_loop_table (vals : list BerValue) (done_ : list lua_value) :
  push_values_loop vals (Z.of_nat (length done_)) (seq_table done_)
  = seq_table (done_ ++ (lua_pushlstring <$> vals)).
Proof.
  revert done_. induction vals as [|v vals IH]; intros done_.
  - cbn [fmap list_fmap push_values_loop]. by rewrite app_nil_r.
  - cbn [fmap list_fmap push_values_loop].
    replace (Z.of_nat (length done_) + 1)%Z with (1 + Z.of_nat (length done_))%Z by lia.
    unfold seq_table at 1. rewrite rawseti_seq_table_from.
    replace (1 + Z.of_nat (length done_))%Z
      with (Z.of_nat (length (done_ ++ [lua_pushlstring v])))
      by (rewrite length_app; simpl; lia).
    fold (seq_table (done_ ++ [lua_pushlstring v])).
    change (list_fmap BerValue lua_value lua_pushlstring vals) with (lua_pushlstring <$> vals).
    rewrite IH. by rewrite <- app_assoc.
Qed.

Lemma getfield_rawset_str t k v k' :
  getfield (rawset_str t k v) k' = if String.eqb k k' then v else getfield t k'.
Proof.
  induction t as [|[j w] t IH]; [reflexivity|].
  destruct j as [| | | |j| | |]; cbn [rawset_str getfield]; try exact IH.
  destruct (String.eqb_spec j k) as [->|Hjk]; cbn [getfield].
  - by destruct (String.eqb k k').
  - rewrite IH. destruct (String.eqb_spec j k') as [->|]; [|done].
    by destruct (String.eqb_spec k k').
Qed.

Lemma getfield_set_attribs_loop entry names tab k :
  getfield (set_attribs_loop entry names tab) k =
    if bool_decide (k ∈ names) then push_values entry k else getfield tab k.
Proof.
  revert tab. induction names as [|n names IH]; intros tab; [reflexivity|].
  cbn [set_attribs_loop]. rewrite IH, getfield_rawset_str.
  destruct (decide (k ∈ names)) as [Hin|Hnin].
  - rewrite !bool_decide_eq_true_2; [done| |done]. by apply elem_of_cons; right.
  - rewrite (bool_decide_eq_false_2 (k ∈ names)) by done.
    destruct (String.eqb_spec n k) as [->|Hne].
    + rewrite bool_decide_eq_true_2; [done|]. by apply elem_of_cons; left.
    + rewrite bool_decide_eq_false_2; [done|].
      intros [->|?]%elem_of_cons; done.
Qed.

(** X15. In the table [next] builds for an entry, the field of an attribute
    name the entry carries holds the decoded values the library returns for
    that name (those of the first listed name that matches it, up to the
    case of letters, when several do), and every other string key is absent.
    A field that is present is never [nil] nor [false]. *)
Theorem decoded_attribute_lookup entry name :
  lua_getfield (LTable (set_attribs entry [])) name =
    (if bool_decide (name ∈ (lm_attrs entry).*1) then push_values entry name else LNil) /\
  lua_toboolean (push_values entry name) = true.
Proof.
  split.
  - unfold set_attribs. cbn [lua_getfield]. by rewrite getfield_set_attribs_loop.
  - unfold push_values. by destruct (ldap_get_values_len _ _) as [|v [|v' vals]].
Qed.

(** X16. The decoded value of an attribute has the shape of its number of
    values: [true] for none, the string for one, and for n >= 2 values a
    sequence of length n whose element i is the i-th value in the order of
    the library. Each string holds exactly the [bv_len] bytes of its value. *)
Theorem decoded_value_shape entry attr vals :
  ldap_get_values_len (lm_attrs entry) attr = vals ->
  (vals = [] -> push_values entry attr = LBoolean true) /\
  (forall b, vals = [b] ->
     push_values entry attr = LString (String.substring 0 (bv_len b) (bv_val b))) /\
  ((2 <= length vals)%nat ->
     lua_rawlen (push_values entry attr) = length vals /\
     forall i b, vals !! i = Some b ->
       lua_rawgeti (push_values entry attr) (Z.of_nat (S i))
       = LString (String.substring 0 (bv_len b) (bv_val b))).
Proof.
  intros Hvals. unfold push_values. rewrite Hvals.
  split; [by intros ->|]. split; [by intros b ->|].
  intros Hlen. destruct vals as [|v1 [|v2 vals]]; [simpl in Hlen; lia..|].
  pose proof (push_values_loop_table (v1 :: v2 :: vals) []) as Hloop.
  cbn [length app] in Hloop. change (Z.of_nat 0) with 0%Z in Hloop.
  change (seq_table []) with ([] : lua_table) in Hloop. rewrite Hloop.
  split.
  - rewrite lua_rawlen_seq_table; [by rewrite length_fmap|].
    apply Forall_fmap, Forall_forall. done.
  - intros i b Hi. cbn [lua_rawgeti]. rewrite rawgeti_seq_table, list_lookup_fmap, Hi.
    reflexivity.
Qed.

End Decoder.

Lemma decoded_value_shape_witness :
  let entry := {| lm_msgtype := LDAP_RES_SEARCH_ENTRY; lm_parse_rc := 0; lm_err := 0;
                  lm_matched := None; lm_errmsg := None; lm_dn := "cn=test";
                  lm_attrs := [("objectClass",
                                [{| bv_len := 3; bv_val := "top" |};
                                 {| bv_len := 6; bv_val := "person" |}])] |} in
  lua_rawlen (push_values entry "objectClass") = 2%nat /\
  lua_rawgeti (push_values entry "objectClass") 2 = LString "person".
Proof.
  intros entry.
  destruct (decoded_value_shape entry "objectClass" _ eq_refl) as (_ & _ & Hseq).
  destruct Hseq as [Hlen Helem]; [simpl; lia|].
  split; [exact Hlen|]. exact (Helem 1%nat _ eq_refl).
Defined.

(** ** The request of a search ([lualdap_search] and its option accessors) *)

Section SearchRequest.
Context `{LuaConv} `{LdapLib} `{Indeterminate}.

Lemma booltabparam_typed crit name :
  lua_isnil (lua_getfield crit name) || lua_isboolean (lua_getfield crit name) ->
  booltabparam crit name 0 = Ok (if lua_toboolean (lua_getfield crit name) then 1 else 0)%Z.
Proof.
  unfold booltabparam. destruct (lua_getfield crit name) as [| |[]| | | | |]; done.
Qed.

Lemma strtabparam_typed crit name :
  lua_isnil (lua_getfield crit name) || lua_isstring (lua_getfield crit name) ->
  strtabparam crit name None = Ok (lua_tostring (lua_getfield crit name)).
Proof.
  unfold strtabparam. destruct (lua_getfield crit name); done.
Qed.

Lemma longtabparam_typed crit name :
  lua_isnil (lua_getfield crit name) || lua_isnumber (lua_getfield crit name) ->
  longtabparam crit name 0 = Ok (lua_tonumber (lua_getfield crit name)).
Proof.
  unfold longtabparam, lua_tointeger.
  destruct (lua_isnil (lua_getfield crit name)) eqn:Hnil.
  - by destruct (lua_getfield crit name).
  - cbn [orb]. by destruct (lua_isnumber (lua_getfield crit name)).
Qed.

Lemma numbertabparam_typed crit name :
  lua_isnil (lua_getfield crit name) || lua_isnumber (lua_getfield crit name) ->
  numbertabparam crit name 0 = Ok (lua_tonumber (lua_getfield crit name)).
Proof.
  unfold numbertabparam.
  destruct (lua_isnil (lua_getfield crit name)) eqn:Hnil.
  - by destruct (lua_getfield crit name).
  - cbn [orb]. by destruct (lua_isnumber (lua_getfield crit name)).
Qed.

Lemma get_attrs_param_single crit :
  lua_istable (lua_getfield crit "attrs") = false ->
  exists arr, get_attrs_param crit (replicate LUALDAP_MAX_ATTRS CWild) = Ok arr /\
              read_strings arr = Some (single_attr (lua_getfield crit "attrs")).
Proof.
  intros Htab. unfold get_attrs_param, single_attr. rewrite Htab.
  destruct (lua_tostring (lua_getfield crit "attrs")) as [s|]; eexists; (split; [done|]);
    reflexivity.
Qed.

(** X17. The request of a search whose options are well typed and whose
    [attrs] option is not a table. The base and the filter are handed to
    [ldap_search_ext] as the C strings that [lua_tostring] gives for them,
    the scope as [string2scope] reads it and the [attrsonly] flag as 0 or 1;
    an absent option is handed as its default: no base and no filter (NULL),
    the default scope, attributes and values ([attrsonly] 0). The size limit,
    a whole number that fits a [long], is stored in an [int]: within the
    range of [int] it is handed as given, otherwise reduced modulo 2^32;
    absent, it is 0, no limit. No time limit is handed (NULL, the library
    then blocks) when the timeout is absent or not positive; one is handed
    when it is positive. [attrs] selects the one attribute named by a string
    and all attributes otherwise; a value that is neither a string nor a
    table is not rejected. *)
Theorem search_request args reply L p c h crit sc :
  index2value args 1 = LUserdata LUALDAP_CONNECTION_METATABLE p ->
  conns L !! p = Some c -> ld c = Some h ->
  index2value args 2 = LTable crit ->
  lua_istable (getfield crit "attrs") = false ->
  well_typed_options (LTable crit) ->
  string2scope (lua_tostring (getfield crit "scope")) = Ok sc ->
  (-9223372036854775808 <= lua_tonumber (getfield crit "sizelimit") < 9223372036854775808)%Z ->
  exists timeout,
    calls (snd (lualdap_search args reply L)) =
      calls L ++
      [Call_search_ext (Some h)
         (lua_tostring (getfield crit "base")) sc (lua_tostring (getfield crit "filter"))
         (Some (single_attr (getfield crit "attrs")))
         (if lua_toboolean (getfield crit "attrsonly") then 1 else 0)
         timeout
         (int_of_long (lua_tonumber (getfield crit "sizelimit")))] /\
    ((lua_tonumber (getfield crit "timeout") <= 0)%Z -> timeout = None) /\
    ((0 < lua_tonumber (getfield crit "timeout"))%Z -> is_Some timeout) /\
    ((-2147483648 <= lua_tonumber (getfield crit "sizelimit") < 2147483648)%Z ->
     int_of_long (lua_tonumber (getfield crit "sizelimit"))
     = lua_tonumber (getfield crit "sizelimit")).
Proof.
  intros Ha Hc Hh Hcrit Htab (Hao & Hbase & Hfilter & Hscope & Hsize & Htime) Hsc Hlong.
  unfold lualdap_search. rewrite (getconnection_open L args p c h Ha Hc Hh).
  cbn [mbind except_bind]. rewrite Hcrit. cbn [lua_istable negb].
  destruct (get_attrs_param_single (LTable crit) Htab) as (arr & -> & Harr).
  cbn [mbind except_bind].
  rewrite (booltabparam_typed _ _ Hao). cbn [mbind except_bind].
  rewrite (strtabparam_typed _ _ Hbase). cbn [mbind except_bind].
  rewrite (strtabparam_typed _ _ Hfilter). cbn [mbind except_bind].
  rewrite (strtabparam_typed _ _ Hscope). cbn [mbind except_bind lua_getfield].
  rewrite Hsc. cbn [mbind except_bind].
  change LDAP_NO_LIMIT with 0%Z.
  rewrite (longtabparam_typed _ _ Hsize). cbn [mbind except_bind].
  unfold get_timeout_param. rewrite (numbertabparam_typed _ _ Htime).
  cbn [mbind except_bind lua_getfield]. rewrite Harr, Hh.
  assert (Hint : (-2147483648 <= lua_tonumber (getfield crit "sizelimit") < 2147483648)%Z ->
                 int_of_long (lua_tonumber (getfield crit "sizelimit"))
                 = lua_tonumber (getfield crit "sizelimit")).
  { intros Hrange. unfold int_of_long. rewrite Z.mod_small by lia. lia. }
  destruct (Z.leb_spec (lua_tonumber (getfield crit "timeout")) 0) as [Hle|Hlt];
    cbn [mbind except_bind]; eexists;
    (split; [destruct (negb (sub_rc reply =? LDAP_SUCCESS)%Z); reflexivity|]);
    (split; [intros; first [reflexivity | lia]|]);
    (split; [intros; first [by eexists | lia]|]); exact Hint.
Qed.

End SearchRequest.

Lemma search_request_witness :
  exists timeout,
    calls (snd (@lualdap_search Sample.conv Sample.lib
                  [Sample.conn_ud;
                   LTable [(LString "base", LString "dc=example");
                           (LString "attrs", LBoolean true);
                           (LString "timeout", LNumber (-5));
                           (LString "sizelimit", LNumber 4294967301)]]
                  Sample.accepted Sample.open_state))
    = calls Sample.open_state ++
      [Call_search_ext (Some 7%nat) (Some "dc=example") LDAP_SCOPE_DEFAULT None (Some [])
         0 timeout 5] /\
    timeout = None.
Proof.
  destruct (@search_request Sample.conv Sample.lib
              [Sample.conn_ud;
               LTable [(LString "base", LString "dc=example");
                       (LString "attrs", LBoolean true);
                       (LString "timeout", LNumber (-5));
                       (LString "sizelimit", LNumber 4294967301)]]
              Sample.accepted Sample.open_state 0%nat {| version := 3; ld := Some 7%nat |} 7%nat
              [(LString "base", LString "dc=example"); (LString "attrs", LBoolean true);
               (LString "timeout", LNumber (-5)); (LString "sizelimit", LNumber 4294967301)]
              LDAP_SCOPE_DEFAULT eq_refl eq_refl eq_refl eq_refl eq_refl)
    as (timeout & Hcalls & Hnone & _).
  - repeat split.
  - reflexivity.
  - vm_compute. split; [discriminate | reflexivity].
  - exists timeout. split; [exact Hcalls|]. apply Hnone. vm_compute. discriminate.
Defined.

(** ** Opening connections ([lualdap_open], [lualdap_initialize],
       [lualdap_open_simple]) *)

Section OpeningFacts.
Context `{LuaConv} `{LdapLib} `{Indeterminate}.

Lemma set_version_returns p use_tls reply L log v L' log' :
  set_version p use_tls reply L log = (Returns [v], L', log') ->
  v = LUserdata LUALDAP_CONNECTION_METATABLE p /\
  L' = set_conns <[p := {| version := LDAP_VERSION3; ld := init_ld reply |}]> L /\
  log' = log ++ [Call_set_option (init_ld reply) LDAP_OPT_PROTOCOL_VERSION
                   (OptInt LDAP_VERSION3)]
             ++ (if use_tls then [Call_start_tls_s (init_ld reply)] else []) /\
  version_rc reply = LDAP_OPT_SUCCESS /\
  (use_tls = true -> tls_rc reply = LDAP_SUCCESS).
Proof.
  unfold set_version, faildirect.
  destruct (Z.eqb_spec (version_rc reply) LDAP_OPT_SUCCESS) as [Hv|]; cbn [negb]; [|done].
  destruct use_tls.
  - destruct (Z.eqb_spec (tls_rc reply) LDAP_SUCCESS) as [Ht|]; cbn [negb]; [|done].
    intros [= <- <- <-]. rewrite <- app_assoc. done.
  - intros [= <- <- <-]. rewrite app_nil_r. done.
Qed.

Lemma connect_returns p use_tls timeout reply L uri v L' log :
  connect p use_tls timeout reply L uri = (Returns [v], L', log) ->
  v = LUserdata LUALDAP_CONNECTION_METATABLE p /\
  L' = set_conns <[p := {| version := LDAP_VERSION3; ld := init_ld reply |}]> L /\
  (exists tv,
     log = Call_initialize uri :: setup_options (init_ld reply) tv use_tls /\
     ((timeout <= 0)%Z -> tv = None) /\ ((0 < timeout)%Z -> is_Some tv)) /\
  init_err reply = LDAP_SUCCESS.
Proof.
  assert (Hover : forall L0 : lua_State,
            set_conns <[p := {| version := LDAP_VERSION3; ld := init_ld reply |}]>
              (set_conns <[p := {| version := 0; ld := init_ld reply |}]> L0)
            = set_conns <[p := {| version := LDAP_VERSION3; ld := init_ld reply |}]> L0).
  { intros L0. unfold set_conns. cbn [conns searches registry calls]. f_equal.
    apply insert_insert_eq. }
  unfold connect, setup_options, faildirect. cbn zeta.
  destruct (Z.eqb_spec (init_err reply) LDAP_SUCCESS) as [Hi|]; cbn [negb]; [|done].
  destruct (Z.ltb_spec 0 timeout) as [Hpos|Hnpos].
  - destruct (Z.eqb_spec (timeout_rc reply) LDAP_OPT_SUCCESS); cbn [negb]; [|done].
    destruct (Z.eqb_spec (network_timeout_rc reply) LDAP_OPT_SUCCESS); cbn [negb]; [|done].
    intros Hret. apply set_version_returns in Hret as (-> & -> & -> & _).
    rewrite Hover. split; [done|]. split; [done|]. split; [|done].
    eexists (Some _). split; [reflexivity|]. split; [intros; lia|]. by eexists.
  - intros Hret. apply set_version_returns in Hret as (-> & -> & -> & _).
    rewrite Hover. split; [done|]. split; [done|]. split; [|done].
    exists None. split; [reflexivity|]. split; [done|]. intros; lia.
Qed.

(** A successful [lualdap_open]. *)
Lemma lualdap_open_returns gsub args reply L v L' log :
  lualdap_open gsub args reply L = (Returns [v], L', log) ->
  exists host uri,
    lua_tolstring (index2value args 1) = Some host /\
    (if strstr (cstr host) "://" then uri = Some (cstr host)
     else exists f r, gsub = GsubFunction f /\ f host = Ok r /\ uri = lua_tostring r) /\
    v = LUserdata LUALDAP_CONNECTION_METATABLE (fresh (dom (conns L))) /\
    L' = set_conns <[fresh (dom (conns L)) :=
                       {| version := LDAP_VERSION3; ld := init_ld reply |}]> L /\
    (exists tv,
       log = Call_initialize uri ::
             setup_options (init_ld reply) tv (lua_toboolean (index2value args 2)) /\
       ((lua_tonumber (index2value args 3) <= 0)%Z -> tv = None) /\
       ((0 < lua_tonumber (index2value args 3))%Z -> is_Some tv)) /\
    init_err reply = LDAP_SUCCESS.
Proof.
  unfold lualdap_open, luaL_checklstring.
  destruct (lua_tolstring (index2value args 1)) as [host|]; [|done]. cbn zeta.
  destruct (strstr (cstr host) "://") eqn:Hscheme.
  - intros Hret. apply connect_returns in Hret as (-> & -> & Hlog & Hi).
    exists host, (Some (cstr host)). rewrite Hscheme. done.
  - destruct gsub as [e| |f]; [done|done|].
    destruct (f host) as [r| |] eqn:Hf; [|done|done].
    intros Hret. apply connect_returns in Hret as (-> & -> & Hlog & Hi).
    exists host, (lua_tostring r). rewrite Hscheme.
    split; [done|]. split; [by exists f, r|]. done.
Qed.

(** X18. A successful [open] returns a connection at a fresh address, so
    that it aliases no connection made before, holding the handle stored by
    [ldap_initialize] and protocol version 3; the other connections, the
    cursors and the registry are as before. The library was initialised with
    the host itself when it names a scheme ("://" occurs in it) and with the
    result of [string.gsub] on it otherwise; then, for a positive timeout
    only, the timeout and the network timeout were set, both to the same
    value; then the protocol version was set, and TLS was started last, only
    when asked for. *)
Theorem open_returns_fresh_connection gsub args reply L v L' log :
  lualdap_open gsub args reply L = (Returns [v], L', log) ->
  exists p host uri tv,
    v = LUserdata LUALDAP_CONNECTION_METATABLE p /\
    conns L !! p = None /\
    conns L' = <[p := {| version := LDAP_VERSION3; ld := init_ld reply |}]> (conns L) /\
    searches L' = searches L /\ registry L' = registry L /\ calls L' = calls L /\
    lua_tolstring (index2value args 1) = Some host /\
    (if strstr (cstr host) "://" then uri = Some (cstr host)
     else exists f r, gsub = GsubFunction f /\ f host = Ok r /\ uri = lua_tostring r) /\
    log = Call_initialize uri ::
          setup_options (init_ld reply) tv (lua_toboolean (index2value args 2)) /\
    ((lua_tonumber (index2value args 3) <= 0)%Z -> tv = None) /\
    ((0 < lua_tonumber (index2value args 3))%Z -> is_Some tv).
Proof.
  intros Hret.
  apply lualdap_open_returns in Hret
    as (host & uri & Hhost & Huri & -> & -> & (tv & -> & Hnone & Hsome) & _).
  exists (fresh (dom (conns L))), host, uri, tv.
  split; [done|]. split; [apply fresh_lookup_None|]. done.
Qed.

(** X19. A successful [initialize] returns a connection at a fresh address
    holding the handle stored by [ldap_initialize] and protocol version 3.
    The library was initialised with the URI as given, the protocol version
    was set, and the debug level of the handle was set to 7. *)
Theorem initialize_returns_fresh_connection args reply L v L' log :
  lualdap_initialize args reply L = (Returns [v], L', log) ->
  exists p uri,
    v = LUserdata LUALDAP_CONNECTION_METATABLE p /\
    conns L !! p = None /\
    conns L' = <[p := {| version := LDAP_VERSION3; ld := init_ld reply |}]> (conns L) /\
    searches L' = searches L /\ registry L' = registry L /\ calls L' = calls L /\
    lua_tostring (index2value args 1) = Some uri /\
    log = [Call_initialize (Some uri);
           Call_set_option (init_ld reply) LDAP_OPT_PROTOCOL_VERSION (OptInt LDAP_VERSION3);
           Call_set_option (init_ld reply) LDAP_OPT_DEBUG_LEVEL (OptInt 7)] /\
    init_err reply = LDAP_SUCCESS /\ version_rc reply = LDAP_OPT_SUCCESS.
Proof.
  unfold lualdap_initialize, luaL_checkstring, luaL_checklstring, lua_tostring, faildirect.
  destruct (lua_tolstring (index2value args 1)) as [s|]; [|done].
  cbn [mbind except_bind fmap option_fmap option_map].
  destruct (Z.eqb_spec (init_err reply) LDAP_SUCCESS) as [Hi|]; cbn [negb]; [|done].
  destruct (Z.eqb_spec (version_rc reply) LDAP_OPT_SUCCESS) as [Hv|]; cbn [negb]; [|done].
  intros [= <- <- <-].
  exists (fresh (dom (conns L))), (cstr s).
  split; [done|]. split; [apply fresh_lookup_None|].
  split; [cbn [conns set_conns]; apply insert_insert_eq|]. done.
Qed.

(** X20. [open_simple] binds on the connection it has just opened, with the
    user name and the password cut at their first NUL (empty when absent).
    When the library accepts the bind the call returns that connection;
    when it refuses, the call returns [nil] and the library's text of the
    return code, and the connection is left open: it is not unbound. When
    [open] fails, its [nil] and message are returned and no bind is
    attempted. *)
Theorem open_simple_binds_the_new_connection gsub args reply bind_err L host :
  lua_tolstring (index2value args 1) = Some host ->
  (lua_isnoneornil (index2value args 2) || lua_isstring (index2value args 2)) ->
  (lua_isnoneornil (index2value args 3) || lua_isstring (index2value args 3)) ->
  let inner := lualdap_open gsub [LString (cstr host);
                                  LBoolean (lua_toboolean (index2value args 4));
                                  LNumber (lua_tonumber (index2value args 5))] reply L in
  let who := default "" (lua_tostring (index2value args 2)) in
  let password := default "" (lua_tostring (index2value args 3)) in
  (forall v L1 log h,
     inner = (Returns [v], L1, log) -> init_ld reply = Some h ->
     let L2 := call (Call_sasl_bind_s (Some h) who password) L1 in
     lualdap_open_simple gsub args reply bind_err L =
       (if (bind_err =? LDAP_SUCCESS)%Z then Returns [v]
        else Returns [LNil; LString (ldap_err2string bind_err)], L2, log) /\
     exists p, v = LUserdata LUALDAP_CONNECTION_METATABLE p /\
               conns L2 !! p = Some {| version := LDAP_VERSION3; ld := Some h |}) /\
  (forall msg L1 log,
     inner = (Returns [LNil; msg], L1, log) ->
     lualdap_open_simple gsub args reply bind_err L = (Returns [LNil; msg], L1, log)).
Proof.
  intros Hhost Hwho Hpw inner who password.
  assert (Hopt : forall n, lua_isnoneornil (index2value args n) || lua_isstring (index2value args n) ->
            luaL_optstring args n "" = Ok (default "" (lua_tostring (index2value args n)))).
  { intros n Hn. unfold luaL_optstring, luaL_checkstring, luaL_checklstring, lua_tostring.
    destruct (index2value args n); done. }
  split.
  - intros v L1 log h Hinner Hh L2. subst inner.
    unfold lualdap_open_simple, luaL_checkstring at 1, luaL_checklstring at 1.
    rewrite Hhost. cbn [mbind except_bind].
    rewrite (Hopt 2%nat Hwho), (Hopt 3%nat Hpw). cbn [mbind except_bind]. rewrite Hinner.
    apply lualdap_open_returns in Hinner as (host' & uri & _ & _ & -> & -> & _ & _).
    set (p := fresh (dom (conns L))).
    cbn [results2 lookup list_lookup default from_option id fst snd lua_isnil].
    assert (Hc : conns (set_conns <[p := {| version := LDAP_VERSION3; ld := init_ld reply |}]> L)
                   !! p = Some {| version := LDAP_VERSION3; ld := Some h |}).
    { cbn [conns set_conns]. rewrite lookup_insert_eq, Hh. done. }
    unfold lualdap_bind_simple. fold who password.
    rewrite (getconnection_open _ [LUserdata LUALDAP_CONNECTION_METATABLE p; LString who;
                                   LString password] p _ h eq_refl Hc eq_refl).
    cbn [mbind except_bind]. unfold luaL_checkstring, luaL_checklstring.
    cbn [index2value lookup list_lookup default from_option id lua_tolstring mbind
         except_bind ld].
    assert (Hcw : cstr who = who).
    { subst who. unfold lua_tostring. destruct (lua_tolstring (index2value args 2)); [|done].
      apply cstr_idemp. }
    assert (Hcp : cstr password = password).
    { subst password. unfold lua_tostring.
      destruct (lua_tolstring (index2value args 3)); [|done]. apply cstr_idemp. }
    rewrite Hcw, Hcp. unfold faildirect. fold L2.
    destruct (bind_err =? LDAP_SUCCESS)%Z;
      cbn [negb run results2 lookup list_lookup default from_option id fst snd lua_isnil];
      (split; [reflexivity|]); exists p; (split; [done|]); exact Hc.
  - intros msg L1 log Hinner. subst inner.
    unfold lualdap_open_simple, luaL_checkstring at 1, luaL_checklstring at 1.
    rewrite Hhost. cbn [mbind except_bind].
    rewrite (Hopt 2%nat Hwho), (Hopt 3%nat Hpw). cbn [mbind except_bind]. rewrite Hinner.
    reflexivity.
Qed.

(** X21. Closed objects print as closed: after [close], [tostring] of the
    connection is "LuaLDAP connection (closed)", and after the explicit
    close of an open cursor [tostring] of the cursor is "LuaLDAP search
    (closed)", whereas open ones print their address. *)
Theorem closed_objects_print_closed fmt_p L p c h sp s c' :
  conns L !! p = Some c -> ld c = Some h ->
  open_cursor L sp s c' ->
  let cud := LUserdata LUALDAP_CONNECTION_METATABLE p in
  let sud := LUserdata LUALDAP_SEARCH_METATABLE sp in
  fst (lualdap_conn_tostring fmt_p [cud] L)
    = Returns [LString ("LuaLDAP connection (" +:+ fmt_p p +:+ ")")] /\
  fst (lualdap_conn_tostring fmt_p [cud] (snd (lualdap_close [cud] L)))
    = Returns [LString "LuaLDAP connection (closed)"] /\
  fst (lualdap_search_tostring fmt_p [sud] L)
    = Returns [LString ("LuaLDAP search (" +:+ fmt_p sp +:+ ")")] /\
  fst (lualdap_search_tostring fmt_p [sud] (snd (lualdap_search_close [sud] L)))
    = Returns [LString "LuaLDAP search (closed)"].
Proof.
  intros Hc Hh (Hs & Hopen & _) cud sud. subst cud sud.
  split; [|split; [|split]].
  - unfold lualdap_conn_tostring. simpl. rewrite Hc. simpl. by rewrite Hh.
  - rewrite (lualdap_close_open L p c h Hc Hh). unfold lualdap_conn_tostring. simpl.
    by rewrite lookup_insert_eq.
  - unfold lualdap_search_tostring. simpl. rewrite Hs. simpl.
    by destruct (Z.eqb_spec (conn s) LUA_NOREF).
  - unfold lualdap_search_close. simpl. rewrite Hs. simpl.
    destruct (Z.eqb_spec (conn s) LUA_NOREF); [done|]. cbn [snd run].
    pose proof (searches_search_close sp s L) as Hs'.
    remember (search_close sp s L) as L1 eqn:HL1.
    unfold lualdap_search_tostring. simpl. by rewrite Hs'.
Qed.

End OpeningFacts.

Lemma open_returns_fresh_connection_witness :
  exists p host uri tv,
    LUserdata LUALDAP_CONNECTION_METATABLE 1 = LUserdata LUALDAP_CONNECTION_METATABLE p /\
    conns Sample.open_state !! p = None /\
    @lua_tolstring Sample.conv (index2value [LString "ldaps://ds.example.org"; LBoolean false;
                                             LNumber 5] 1) = Some host /\
    uri = Some "ldaps://ds.example.org" /\
    [Call_initialize (Some "ldaps://ds.example.org");
     Call_set_option (Some 9%nat) LDAP_OPT_TIMEOUT
       (OptTimeval {| tv_sec := 5; tv_usec := 0 |});
     Call_set_option (Some 9%nat) LDAP_OPT_NETWORK_TIMEOUT
       (OptTimeval {| tv_sec := 5; tv_usec := 0 |});
     Call_set_option (Some 9%nat) LDAP_OPT_PROTOCOL_VERSION (OptInt 3)]
    = Call_initialize uri :: setup_options (Some 9%nat) tv false.
Proof.
  destruct (@open_returns_fresh_connection Sample.conv Sample.lib GsubNotFunction
              [LString "ldaps://ds.example.org"; LBoolean false; LNumber 5]
              {| init_err := 0; init_ld := Some 9%nat; timeout_rc := 0;
                 network_timeout_rc := 0; version_rc := 0; tls_rc := 0 |}
              Sample.open_state (LUserdata LUALDAP_CONNECTION_METATABLE 1)
              (set_conns <[1%nat := {| version := 3; ld := Some 9%nat |}]> Sample.open_state)
              [Call_initialize (Some "ldaps://ds.example.org");
               Call_set_option (Some 9%nat) LDAP_OPT_TIMEOUT
                 (OptTimeval {| tv_sec := 5; tv_usec := 0 |});
               Call_set_option (Some 9%nat) LDAP_OPT_NETWORK_TIMEOUT
                 (OptTimeval {| tv_sec := 5; tv_usec := 0 |});
               Call_set_option (Some 9%nat) LDAP_OPT_PROTOCOL_VERSION (OptInt 3)])
    as (p & host & uri & tv & Hv & Hfresh & _ & _ & _ & _ & Hhost & Huri & Hlog & _).
  - vm_compute. reflexivity.
  - exists p, host, uri, tv. split; [exact Hv|]. split; [exact Hfresh|]. split; [exact Hhost|].
    split; [|exact Hlog]. injection Hhost as <-. exact Huri.
Defined.

(** ** The tables [add] accepts *)

Section Acceptance.
Context `{LuaConv} `{LdapLib} `{Indeterminate}.

Lemma lua_isstring_tolstring v :
  lua_isstring v = true -> exists s, lua_tolstring v = Some s.
Proof. destruct v; try done; intros _; by eexists. Qed.

Lemma A_tab2val_valid v a name :
  valid_value v = true ->
  (vi a + length (values_of (attr_value v)) < LUALDAP_ARRAY_VALUES_SIZE)%nat ->
  (bi a + length (values_of (attr_value v)) <= LUALDAP_MAX_VALUES)%nat ->
  A_tab2val v a name =
    match attr_value v with
    | Absent => Ok (NULL, a)
    | V => Ok (Ptr (vi a), push_null (push_all (values_of V) a))
    end.
Proof.
  unfold valid_value, attr_value, A_tab2val.
  destruct (lua_isboolean v && lua_toboolean v); [done|]. cbn [orb].
  destruct (lua_isstring v) eqn:Hs.
  - intros _. destruct (lua_isstring_tolstring v Hs) as [s Hv]. rewrite Hv.
    cbn [default values_of length push_all]. intros Hvi Hbi.
    rewrite A_setval_eq, Hv.
    destruct (Nat.leb_spec LUALDAP_ARRAY_VALUES_SIZE (vi a)); [lia|].
    destruct (Nat.leb_spec LUALDAP_MAX_VALUES (bi a)); [lia|].
    cbn [mbind except_bind]. rewrite A_nullval_eq.
    destruct (Nat.leb_spec LUALDAP_ARRAY_VALUES_SIZE (vi (push_value s a)));
      [simpl in *; lia|].
    reflexivity.
  - cbn [orb]. destruct (lua_istable v); [|done]. cbn [andb values_of].
    intros Helems Hvi Hbi.
    assert (Hlen : length (element_strings v 1 (lua_rawlen v)) = lua_rawlen v).
    { unfold element_strings. by rewrite length_fmap, length_seq. }
    rewrite Hlen in Hvi, Hbi.
    rewrite <- Hlen at 1.
    rewrite (A_tab2val_loop_strings v name (element_strings v 1 (lua_rawlen v)) 1 a);
      [|..|lia|lia].
    + cbn [mbind except_bind]. rewrite A_nullval_eq, vi_push_all, Hlen.
      destruct (Nat.leb_spec LUALDAP_ARRAY_VALUES_SIZE (vi a + lua_rawlen v)); [lia|].
      reflexivity.
    + intros j s Hj. unfold element_strings in Hj. rewrite list_lookup_fmap in Hj.
      destruct (seq 1 (lua_rawlen v) !! j) as [i|] eqn:Hi; [|done].
      apply lookup_seq in Hi as [-> Hlt].
      rewrite forallb_forall in Helems.
      specialize (Helems (1 + j)%nat ltac:(apply in_seq; lia)).
      destruct (lua_isstring_tolstring _ Helems) as [s' Hs'].
      change (1 + j)%nat with (S j) in *.
      cbn [fmap option_fmap option_map] in Hj. rewrite Hs' in Hj |- *.
      cbn [default from_option id] in Hj. congruence.
Qed.

Lemma A_tab2mod_valid t a op :
  Forall (fun kv => valid_value kv.2 = true) (mod_entries t) ->
  (vi a <= bi a + ai a)%nat ->
  (ai a + length (attr_map_of t) <= LUALDAP_MAX_ATTRS)%nat ->
  (bi a + value_count (attr_map_of t) <= LUALDAP_MAX_VALUES)%nat ->
  A_tab2mod t a op = Ok (store_all op (attr_map_of t) a).
Proof.
  destruct capacities as (Ca & Cv & Cb).
  revert a. induction t as [|[k v] t IH]; intros a Hvalid Hvi Hai Hbi; [reflexivity|].
  cbn [A_tab2mod]. fold (is_attr_key k). rewrite attr_map_of_cons in *.
  cbn [mod_entries] in Hvalid.
  destruct (is_attr_key k); [|by apply IH].
  apply Forall_cons in Hvalid as [Hv Hvalid]. cbn [snd] in Hv.
  cbn [length value_count foldr snd] in Hai, Hbi. fold (value_count (attr_map_of t)) in Hbi.
  rewrite A_setmod_eq.
  destruct (Nat.leb_spec LUALDAP_MAX_ATTRS (ai a)); [lia|].
  rewrite (A_tab2val_valid v a _ Hv) by lia.
  pose proof (store_one_counters op (default "" (lua_tostring k), attr_value v) a)
    as (Ha1 & Hb1 & Hv1).
  cbn [snd] in Hb1, Hv1. cbn [store_all].
  unfold store_one in *. cbn [fst snd] in *.
  destruct (attr_value v) as [|s|ss]; cbn [mbind except_bind];
    apply IH; (done || lia).
Qed.

(** X22. [add] accepts every attribute table that fits: when every
    attribute value is [true], a string or a number, or a table whose
    elements 1..n are strings or numbers, and the table has fewer than
    [LUALDAP_MAX_ATTRS] attribute keys and at most [LUALDAP_MAX_VALUES]
    values in all, the request is submitted with the modifications read
    from the table. (X11 is the converse: a call that returns has submitted
    them, within these bounds.) *)
Theorem add_accepts_valid_table args reply L p c h dn t :
  index2value args 1 = LUserdata LUALDAP_CONNECTION_METATABLE p ->
  conns L !! p = Some c -> ld c = Some h ->
  lua_tolstring (index2value args 2) = Some dn ->
  index2value args 3 = LTable t ->
  Forall (fun kv => valid_value kv.2 = true) (mod_entries t) ->
  (length (attr_map_of t) < LUALDAP_MAX_ATTRS)%nat ->
  (value_count (attr_map_of t) <= LUALDAP_MAX_VALUES)%nat ->
  lualdap_add args reply L =
    (create_future (sub_rc reply) (index2value args 1) (sub_msgid reply) LDAP_RES_ADD,
     call (Call_add_ext (Some h) (cstr dn)
             (Some (encoded LUALDAP_MOD_ADD (attr_map_of t)))) L).
Proof.
  destruct capacities as (Ca & Cv & Cb).
  intros Ha Hc Hh Hdn Ht Hvalid Hlen Hvals.
  rewrite (lualdap_add_open args reply L p c h dn Ha Hc Hh Hdn), Ht.
  assert (Hbuild : A_tab2mod t (A_init uninitialised) LUALDAP_MOD_ADD
                   = Ok (store_all LUALDAP_MOD_ADD (attr_map_of t) (A_init uninitialised))).
  { apply A_tab2mod_valid; [done|simpl; lia..]. }
  destruct (A_tab2mod_stored _ _ _ _ [] Hbuild lengths_A_init stored_A_init)
    as (Hst & Hl & Hv & Hb & _); [simpl; lia..|].
  cbn [app] in Hst.
  unfold submit_after. rewrite Hbuild. cbn [mbind except_bind].
  destruct (A_lastattr (store_all LUALDAP_MOD_ADD (attr_map_of t) (A_init uninitialised)))
    as [a2| |] eqn:Hlast.
  - cbn [mbind except_bind run].
    by rewrite (read_mods_lastattr _ _ Hl Hst Hv Hb a2 Hlast), Hh.
  - exfalso. rewrite A_lastattr_eq in Hlast. destruct Hst as [Hn _].
    unfold encoded in Hn. rewrite length_fmap in Hn.
    destruct (Nat.leb_spec LUALDAP_MAX_ATTRS
                (ai (store_all LUALDAP_MOD_ADD (attr_map_of t) (A_init uninitialised))));
      [lia|done].
  - exfalso. rewrite A_lastattr_eq in Hlast.
    by destruct (_ <=? _)%nat.
Qed.

Lemma A_tab2val_loop_overflow tab name count i a :
  (forall j, (j < count)%nat -> lua_isstring (lua_rawgeti tab (Z.of_nat (i + j))) = true) ->
  (bi a <= LUALDAP_MAX_VALUES)%nat ->
  (LUALDAP_MAX_VALUES < bi a + count)%nat ->
  A_tab2val_loop tab name count i a = Throw too_many_values.
Proof.
  revert i a. induction count as [|count IH]; intros i a Helems Hb Hover; [lia|].
  cbn [A_tab2val_loop]. rewrite A_setval_eq.
  destruct (LUALDAP_ARRAY_VALUES_SIZE <=? vi a)%nat; [reflexivity|].
  destruct (Nat.leb_spec LUALDAP_MAX_VALUES (bi a)); [reflexivity|].
  pose proof (Helems 0%nat ltac:(lia)) as Hfirst. rewrite Nat.add_0_r in Hfirst.
  destruct (lua_isstring_tolstring _ Hfirst) as [s ->]. cbn [mbind except_bind].
  apply IH; [|simpl; lia..].
  intros j Hj. rewrite <- (Helems (S j)) by lia. do 3 f_equal. lia.
Qed.

Lemma A_tab2val_overflow v a name :
  valid_value v = true ->
  (bi a <= LUALDAP_MAX_VALUES)%nat ->
  (LUALDAP_MAX_VALUES < bi a + length (values_of (attr_value v)))%nat ->
  A_tab2val v a name = Throw too_many_values.
Proof.
  unfold valid_value, attr_value, A_tab2val.
  destruct (lua_isboolean v && lua_toboolean v); [simpl; lia|]. cbn [orb].
  destruct (lua_isstring v) eqn:Hs.
  - intros _ Hb Hover. cbn [values_of length] in Hover. rewrite A_setval_eq.
    destruct (LUALDAP_ARRAY_VALUES_SIZE <=? vi a)%nat; [reflexivity|].
    destruct (Nat.leb_spec LUALDAP_MAX_VALUES (bi a)); [reflexivity|lia].
  - cbn [orb]. destruct (lua_istable v); [|done]. cbn [andb values_of].
    intros Helems Hb Hover. unfold element_strings in Hover.
    rewrite length_fmap, length_seq in Hover.
    rewrite A_tab2val_loop_overflow; [reflexivity| |done|done].
    intros j Hj. rewrite forallb_forall in Helems.
    apply (Helems (1 + j)%nat). apply in_seq. lia.
Qed.

Lemma A_tab2mod_overflow t a op :
  Forall (fun kv => valid_value kv.2 = true) (mod_entries t) ->
  (vi a <= bi a + ai a)%nat -> (bi a <= LUALDAP_MAX_VALUES)%nat ->
  (ai a + length (attr_map_of t) <= LUALDAP_MAX_ATTRS)%nat ->
  (LUALDAP_MAX_VALUES < bi a + value_count (attr_map_of t))%nat ->
  A_tab2mod t a op = Throw too_many_values.
Proof.
  destruct capacities as (Ca & Cv & Cb).
  revert a. induction t as [|[k v] t IH]; intros a Hvalid Hvi Hbi Hai Hover.
  { change (attr_map_of []) with ([] : attribute_map) in Hover. simpl in Hover. lia. }
  cbn [A_tab2mod]. fold (is_attr_key k). rewrite attr_map_of_cons in *.
  cbn [mod_entries] in Hvalid.
  destruct (is_attr_key k); [|by apply IH].
  apply Forall_cons in Hvalid as [Hv Hvalid]. cbn [snd] in Hv.
  cbn [length value_count foldr snd] in Hai, Hover.
  fold (value_count (attr_map_of t)) in Hover.
  rewrite A_setmod_eq.
  destruct (Nat.leb_spec LUALDAP_MAX_ATTRS (ai a)); [lia|].
  destruct (decide (LUALDAP_MAX_VALUES < bi a + length (values_of (attr_value v)))%nat)
    as [Hnow|Hlater].
  { by rewrite (A_tab2val_overflow v a _ Hv Hbi Hnow). }
  rewrite (A_tab2val_valid v a _ Hv) by lia.
  pose proof (store_one_counters op (default "" (lua_tostring k), attr_value v) a)
    as (Ha1 & Hb1 & Hv1).
  cbn [snd] in Hb1, Hv1. unfold store_one in *. cbn [fst snd] in *.
  destruct (attr_value v) as [|s|ss]; cbn [mbind except_bind];
    apply IH; (done || lia).
Qed.

(** X23. The bounds of [add], for a table of valid values with at most
    [LUALDAP_MAX_ATTRS] attribute keys: with more than [LUALDAP_MAX_VALUES]
    values in all the call raises "too many values"; otherwise, with exactly
    [LUALDAP_MAX_ATTRS] attribute keys, it raises "too many attributes",
    the terminator of the array needing a slot of its own below that bound.
    Nothing is handed to the library. *)
Theorem add_capacity_bounds args reply L p c h dn t :
  index2value args 1 = LUserdata LUALDAP_CONNECTION_METATABLE p ->
  conns L !! p = Some c -> ld c = Some h ->
  lua_tolstring (index2value args 2) = Some dn ->
  index2value args 3 = LTable t ->
  Forall (fun kv => valid_value kv.2 = true) (mod_entries t) ->
  (length (attr_map_of t) <= LUALDAP_MAX_ATTRS)%nat ->
  ((LUALDAP_MAX_VALUES < value_count (attr_map_of t))%nat ->
   lualdap_add args reply L = (Raises too_many_values, L)) /\
  ((value_count (attr_map_of t) <= LUALDAP_MAX_VALUES)%nat ->
   length (attr_map_of t) = LUALDAP_MAX_ATTRS ->
   lualdap_add args reply L = (Raises too_many_attributes, L)).
Proof.
  destruct capacities as (Ca & Cv & Cb).
  intros Ha Hc Hh Hdn Ht Hvalid Hlen.
  rewrite (lualdap_add_open args reply L p c h dn Ha Hc Hh Hdn), Ht.
  split.
  - intros Hover. apply submit_after_throw.
    apply A_tab2mod_overflow; [done|simpl; lia..].
  - intros Hvals Hfull. unfold submit_after.
    rewrite A_tab2mod_valid; [|done|simpl; lia..].
    cbn [mbind except_bind]. rewrite A_lastattr_eq.
    destruct (store_all_stored LUALDAP_MOD_ADD (attr_map_of t) (A_init uninitialised) []
                lengths_A_init stored_A_init) as ([Hn _] & _); [simpl; lia..|].
    unfold encoded in Hn. rewrite length_app, length_fmap in Hn. simpl in Hn.
    destruct (Nat.leb_spec LUALDAP_MAX_ATTRS
                (ai (store_all LUALDAP_MOD_ADD (attr_map_of t) (A_init uninitialised))));
      [reflexivity|lia].
Qed.

End Acceptance.

Lemma add_accepts_valid_table_witness :
  @lualdap_add Sample.conv Sample.lib Sample.stack
    [Sample.conn_ud; LString "cn=test,dc=example";
     LTable [(LString "cn", LNumber 7); (LString "seeAlso", LBoolean true)]]
    Sample.accepted Sample.open_state
  = (@create_future Sample.lib 0 Sample.conn_ud 1 LDAP_RES_ADD,
     call (Call_add_ext (Some 7%nat) (cstr "cn=test,dc=example")
             (Some (encoded LUALDAP_MOD_ADD
                      (@attr_map_of Sample.conv
                         [(LString "cn", LNumber 7); (LString "seeAlso", LBoolean true)]))))
          Sample.open_state).
Proof.
  apply (@add_accepts_valid_table Sample.conv Sample.lib Sample.stack
           [Sample.conn_ud; LString "cn=test,dc=example";
            LTable [(LString "cn", LNumber 7); (LString "seeAlso", LBoolean true)]]
           Sample.accepted Sample.open_state 0%nat {| version := 3; ld := Some 7%nat |} 7%nat
           "cn=test,dc=example"
           [(LString "cn", LNumber 7); (LString "seeAlso", LBoolean true)]);
    try reflexivity.
  - repeat constructor.
  - vm_compute. lia.
  - vm_compute. lia.
Defined.

Lemma initialize_returns_fresh_connection_witness :
  exists p uri,
    LUserdata LUALDAP_CONNECTION_METATABLE 1 = LUserdata LUALDAP_CONNECTION_METATABLE p /\
    conns Sample.open_state !! p = None /\
    @lua_tostring Sample.conv (index2value [LString "ldap://ds.example.org"] 1) = Some uri.
Proof.
  destruct (@initialize_returns_fresh_connection Sample.conv Sample.lib
              [LString "ldap://ds.example.org"]
              {| init_err := 0; init_ld := Some 9%nat; timeout_rc := 0;
                 network_timeout_rc := 0; version_rc := 0; tls_rc := 0 |}
              Sample.open_state (LUserdata LUALDAP_CONNECTION_METATABLE 1)
              (set_conns <[1%nat := {| version := 3; ld := Some 9%nat |}]>
                 (set_conns <[1%nat := {| version := 0; ld := Some 9%nat |}]>
                    Sample.open_state))
              [Call_initialize (Some "ldap://ds.example.org");
               Call_set_option (Some 9%nat) LDAP_OPT_PROTOCOL_VERSION (OptInt 3);
               Call_set_option (Some 9%nat) LDAP_OPT_DEBUG_LEVEL (OptInt 7)])
    as (p & uri & Hv & Hfresh & _ & _ & _ & _ & Huri & _).
  - vm_compute. reflexivity.
  - exists p, uri. split; [exact Hv|]. split; [exact Hfresh|]. exact Huri.
Defined.

Lemma open_simple_binds_the_new_connection_witness :
  @lualdap_open_simple Sample.conv Sample.lib GsubNotFunction
    [LString "ldap://ds.example.org"; LString "cn=admin"; LString "secret"]
    {| init_err := 0; init_ld := Some 9%nat; timeout_rc := 0;
       network_timeout_rc := 0; version_rc := 0; tls_rc := 0 |}
    49 Sample.open_state
  = (Returns [LNil; LString (@ldap_err2string Sample.lib 49)],
     call (Call_sasl_bind_s (Some 9%nat) "cn=admin" "secret")
       (set_conns <[1%nat := {| version := 3; ld := Some 9%nat |}]> Sample.open_state),
     [Call_initialize (Some "ldap://ds.example.org");
      Call_set_option (Some 9%nat) LDAP_OPT_PROTOCOL_VERSION (OptInt 3)]).
Proof.
  refine (proj1 (proj1 (@open_simple_binds_the_new_connection Sample.conv Sample.lib
            GsubNotFunction
            [LString "ldap://ds.example.org"; LString "cn=admin"; LString "secret"]
            {| init_err := 0; init_ld := Some 9%nat; timeout_rc := 0;
               network_timeout_rc := 0; version_rc := 0; tls_rc := 0 |}
            49 Sample.open_state "ldap://ds.example.org" eq_refl _ _)
            (LUserdata LUALDAP_CONNECTION_METATABLE 1)
            (set_conns <[1%nat := {| version := 3; ld := Some 9%nat |}]> Sample.open_state)
            [Call_initialize (Some "ldap://ds.example.org");
             Call_set_option (Some 9%nat) LDAP_OPT_PROTOCOL_VERSION (OptInt 3)]
            9%nat _ eq_refl)).
  - exact I.
  - exact I.
  - vm_compute. reflexivity.
Defined.

Lemma closed_objects_print_closed_witness :
  fst (lualdap_conn_tostring (fun p => fmt_d (Z.of_nat p)) [Sample.conn_ud]
         (snd (lualdap_close [Sample.conn_ud] Sample.searching_state)))
  = Returns [LString "LuaLDAP connection (closed)"].
Proof.
  refine (proj1 (proj2 (closed_objects_print_closed
            (fun p => fmt_d (Z.of_nat p)) Sample.searching_state
            0%nat {| version := 3; ld := Some 7%nat |} 7%nat
            0%nat {| conn := 0; msgid := 4 |} {| version := 3; ld := Some 7%nat |}
            eq_refl eq_refl _))).
  split; [reflexivity|]. split; [discriminate|]. exists 0%nat. split; reflexivity.
Defined.

Lemma add_capacity_bounds_witness :
  @lualdap_add Sample.conv Sample.lib Sample.stack
    [Sample.conn_ud; LString "cn=test,dc=example";
     LTable (Capacity_examples.attributes 100 (LBoolean true))]
    Sample.accepted Sample.open_state
  = (Raises too_many_attributes, Sample.open_state).
Proof.
  refine (proj2 (@add_capacity_bounds Sample.conv Sample.lib Sample.stack
            [Sample.conn_ud; LString "cn=test,dc=example";
             LTable (Capacity_examples.attributes 100 (LBoolean true))]
            Sample.accepted Sample.open_state 0%nat {| version := 3; ld := Some 7%nat |} 7%nat
            "cn=test,dc=example" (Capacity_examples.attributes 100 (LBoolean true))
            eq_refl eq_refl eq_refl eq_refl eq_refl _ _) _ _).
  - apply (bool_decide_unpack (Forall _ _)). vm_compute. exact I.
  - vm_compute. lia.
  - vm_compute. lia.
  - vm_compute. reflexivity.
Defined.

(** ** Iterating over the results of a search *)

Section Iteration.
Context `{LuaConv} `{LdapLib} `{Indeterminate}.

Lemma open_cursor_call L sp s c lc :
  open_cursor L sp s c -> open_cursor (call lc L) sp s c.
Proof. intros (Hs & Hopen & p & Hp & Hc). split; [done|]. split; [done|]. by exists p. Qed.

Lemma next_message_entry_step upvalues args r L sp s c :
  lua_touserdata (index2value upvalues 1) = Some sp ->
  open_cursor L sp s c -> entry_reply r ->
  next_message upvalues args r L =
    (entry_values r,
     call (Call_msgfree (stored_message r))
       (call (Call_result (ld c) (msgid s) LDAP_MSG_ONE None) L)).
Proof.
  intros Hsp Hopen (Hrc & m & Hm & Hty).
  rewrite (next_message_open _ _ _ _ _ _ _ Hsp Hopen). cbn zeta.
  unfold entry_values, stored_message. rewrite Hrc, Hm. simpl. rewrite Hty. reflexivity.
Qed.

Lemma next_message_terminal_step upvalues args r L sp s c :
  lua_touserdata (index2value upvalues 1) = Some sp ->
  open_cursor L sp s c -> terminal r ->
  next_message upvalues args r L =
    (Returns [],
     call (Call_msgfree (stored_message r))
       (search_close sp s (call (Call_result (ld c) (msgid s) LDAP_MSG_ONE None) L))).
Proof.
  intros Hsp Hopen Hterm.
  rewrite (next_message_open _ _ _ _ _ _ _ Hsp Hopen). cbn zeta. unfold stored_message.
  destruct Hterm as [[-> Hres] | (Hn0 & Hn1 & m & Hm & Hty)]; [by destruct (res r)|].
  destruct (Z.eqb_spec (rc r) 0) as [?|_]; [done|].
  destruct (Z.eqb_spec (rc r) (-1)) as [?|_]; [done|].
  rewrite Hm.
  destruct (Z.eqb_spec (rc r) LDAP_RES_SEARCH_RESULT) as [?|_]; [reflexivity|].
  simpl. rewrite Hty. reflexivity.
Qed.

(** X24. Iterating an open cursor over the answers of the library: for any
    number of entries followed by the terminal message, the iterator yields
    the DN and the attribute table of each entry, in order, then no value,
    which ends a generic [for] loop; the cursor is then closed. Each step
    polls once, for the message id of the cursor, and releases the message it
    was handed once; nothing else is asked of the library. *)
Theorem search_iteration L sp s c entries last :
  open_cursor L sp s c ->
  Forall entry_reply entries -> terminal last ->
  let f := LCClosure Fnext_message [LUserdata LUALDAP_SEARCH_METATABLE sp] in
  let L' := snd (drain f (entries ++ [last]) L) in
  fst (drain f (entries ++ [last]) L) = (entry_values <$> entries) ++ [Returns []] /\
  calls L' = calls L ++ concat (poll_and_free c s <$> (entries ++ [last])) /\
  searches L' !! sp = Some {| conn := LUA_NOREF; msgid := msgid s |} /\
  conns L' = conns L /\
  forall r, call_closure f [] r L' =
            (Raises (ArgError 1 "LuaLDAP: LDAP search is closed"), L').
Proof.
  intros Hopen Hentries Hterm f L'. subst L'.
  revert L Hopen. induction Hentries as [|r entries Hr _ IH]; intros L Hopen.
  - cbn [app drain]. subst f. cbn [call_closure].
    rewrite (next_message_terminal_step [LUserdata LUALDAP_SEARCH_METATABLE sp] [] last L sp s c
               eq_refl Hopen Hterm).
    cbn [fst snd fmap list_fmap app concat poll_and_free].
    set (L1 := call (Call_msgfree (stored_message last)) _).
    assert (Hs1 : searches L1 !! sp = Some {| conn := LUA_NOREF; msgid := msgid s |})
      by apply searches_search_close.
    split; [done|]. split.
    { subst L1. cbn [calls call]. unfold search_close, luaL_unref.
      destruct (conn s <? 0)%Z; cbn [calls call set_searches set_registry];
        by rewrite <- app_assoc. }
    split; [done|]. split.
    { subst L1. unfold search_close, luaL_unref. by destruct (conn s <? 0)%Z. }
    intros r. by apply (next_message_closed [LUserdata LUALDAP_SEARCH_METATABLE sp] [] r _ sp _
                          eq_refl Hs1).
  - cbn [app drain]. subst f. cbn [call_closure].
    rewrite (next_message_entry_step [LUserdata LUALDAP_SEARCH_METATABLE sp] [] r L sp s c
               eq_refl Hopen Hr).
    set (L1 := call (Call_msgfree (stored_message r)) _).
    assert (Hopen1 : open_cursor L1 sp s c) by (subst L1; by do 2 apply open_cursor_call).
    specialize (IH L1 Hopen1). cbn [call_closure] in IH.
    destruct (drain (LCClosure Fnext_message [LUserdata LUALDAP_SEARCH_METATABLE sp])
                (entries ++ [last]) L1) as [os L2] eqn:Hdrain.
    cbn [fst snd] in IH |- *. destruct IH as (Hos & Hcalls & Hs2 & Hc2 & Hclosed).
    split; [cbn [fmap list_fmap app]; by rewrite Hos|].
    split.
    { rewrite Hcalls. subst L1. cbn [calls call fmap list_fmap concat poll_and_free app].
      by rewrite <- !app_assoc. }
    split; [done|]. split; [by rewrite Hc2|]. exact Hclosed.
Qed.

End Iteration.

Lemma search_iteration_witness :
  fst (@drain Sample.conv Sample.lib
         (LCClosure Fnext_message [Sample.search_ud])
         ([{| rc := LDAP_RES_SEARCH_ENTRY;
              res := Msg (Sample.message LDAP_RES_SEARCH_ENTRY 0 None) |}] ++
          [{| rc := LDAP_RES_SEARCH_RESULT;
              res := Msg (Sample.message LDAP_RES_SEARCH_RESULT 0 None) |}])
         Sample.searching_state)
  = (entry_values <$> [{| rc := LDAP_RES_SEARCH_ENTRY;
                          res := Msg (Sample.message LDAP_RES_SEARCH_ENTRY 0 None) |}])
    ++ [Returns []].
Proof.
  refine (proj1 (@search_iteration Sample.conv Sample.lib Sample.searching_state 0%nat
            {| conn := 0; msgid := 4 |} {| version := 3; ld := Some 7%nat |}
            [{| rc := LDAP_RES_SEARCH_ENTRY;
                res := Msg (Sample.message LDAP_RES_SEARCH_ENTRY 0 None) |}]
            {| rc := LDAP_RES_SEARCH_RESULT;
               res := Msg (Sample.message LDAP_RES_SEARCH_RESULT 0 None) |} _ _ _)).
  - split; [reflexivity|]. split; [discriminate|]. exists 0%nat. split; reflexivity.
  - constructor; [|constructor]. split; [reflexivity|]. eexists. split; reflexivity.
  - left. split; [reflexivity | discriminate].
Defined.
